(** * DataScribe: the dbt schema-YAML writer and the global lineage generator

    A shallow embedding of

    - [schema_scribe/services/lineage_generator.py]
      (class [GlobalLineageGenerator]), module [Lineage] below,
    - [schema_scribe/components/writers/dbt_yaml_writer.py]
      (class [DbtYamlWriter]), modules [Py], [Fs] and [Writer] below,
    - [schema_scribe/workflows/dbt_workflow.py] and
      [schema_scribe/workflows/lineage_workflow.py]
      (classes [DbtWorkflow] and [LineageWorkflow]), module [Workflow], and
    - [expand_env_vars] of [schema_scribe/utils/utils.py], module [Utils],

    together with the properties the specification states about them and
    further properties of the code. *)

From Stdlib Require Import ZArith Ascii String.
From stdpp Require Import gmap strings list fin_maps sorting.

Local Open Scope string_scope.
Local Open Scope Z_scope.

(** ** Strings

    Python [str] values are modelled as Rocq strings (sequences of 8-bit
    characters).  [+:+] is stdpp's notation for [String.append]. *)

Definition nl : string := String (ascii_of_nat 10) "".

(** The double-quote character, as a one-character string. *)
Definition dq : string := String (ascii_of_nat 34) "".

(** [sep.join(lines)] *)
Fixpoint str_join (sep : string) (lines : list string) : string :=
  match lines with
  | [] => ""
  | [l] => l
  | l :: rest => l +:+ sep +:+ str_join sep rest
  end.

(** [needle in hay] on strings: some suffix of [hay] starts with [needle]. *)
Fixpoint str_contains (needle hay : string) : bool :=
  String.prefix needle hay ||
  match hay with
  | "" => false
  | String _ hay' => str_contains needle hay'
  end.

(** [s.endswith(suffix)] *)
Fixpoint str_endswith (s suffix : string) : bool :=
  bool_decide (s = suffix) ||
  match s with
  | "" => false
  | String _ s' => str_endswith s' suffix
  end.

(** ** Python values and exceptions

    The writer works on dynamically typed data: the catalog (plain dicts and
    lists) and the documents that [ruamel.yaml] loads ([CommentedMap] and
    [CommentedSeq], which are a dict and a list that also carry comments and
    layout).  Both are modelled by [value].  A dict is the list of its
    entries in insertion order, keys are strings and occur once.  Documents
    are trees: YAML anchors shared between two places, and scalars other
    than the ones below (floats, timestamps), are outside the model, and so
    are the comments and the layout that [ruamel.yaml] keeps attached to a
    node it does not modify. *)

Module Py.

#[local] Set Warnings "-register-all".

Inductive value :=
| VNone
| VBool (b : bool)
| VInt (n : Z)
| VStr (s : string)
| VList (items : list value)
| VDict (entries : list (string * value)).

Inductive exn :=
| AttributeError
| TypeError
| KeyError
| OSError
| ValueError
| Abort
| WriterError.

Inductive result (A : Type) :=
| Ok (a : A)
| Raise (e : exn).
Arguments Ok {A} a.
Arguments Raise {A} e.

Definition rbind {A B} (r : result A) (k : A → result B) : result B :=
  match r with
  | Ok a => k a
  | Raise e => Raise e
  end.

(** [bool(v)] *)
Definition truthy (v : value) : bool :=
  match v with
  | VNone => false
  | VBool b => b
  | VInt n => negb (n =? 0)
  | VStr s => negb (bool_decide (s = ""))
  | VList items => negb (bool_decide (items = []))
  | VDict entries => negb (bool_decide (entries = []))
  end.

(** Lookup in the entries of a dict. *)
Fixpoint dict_get (entries : list (string * value)) (key : string) : option value :=
  match entries with
  | [] => None
  | (k, v) :: rest => if decide (k = key) then Some v else dict_get rest key
  end.

(** [d[key] = v]: an existing key keeps its place, a new key goes last. *)
Fixpoint dict_set (entries : list (string * value)) (key : string) (v : value)
  : list (string * value) :=
  match entries with
  | [] => [(key, v)]
  | (k, w) :: rest =>
      if decide (k = key) then (k, v) :: rest else (k, w) :: dict_set rest key v
  end.

(** [a == b].  [True == 1] holds as [bool] is a subclass of [int]; two dicts
    are equal when they have the same keys with equal values (a
    [CommentedMap] compared with a plain dict ignores the order). *)
Fixpoint py_eq (a b : value) : bool :=
  match a, b with
  | VNone, VNone => true
  | VBool x, VBool y => bool_decide (x = y)
  | VBool x, VInt n | VInt n, VBool x => n =? (if x then 1 else 0)
  | VInt m, VInt n => m =? n
  | VStr s, VStr t => bool_decide (s = t)
  | VList l, VList m =>
      (fix all2 (l m : list value) : bool :=
         match l, m with
         | [], [] => true
         | x :: l', y :: m' => py_eq x y && all2 l' m'
         | _, _ => false
         end) l m
  | VDict d, VDict e =>
      bool_decide (length d = length e) &&
      (fix all (d : list (string * value)) : bool :=
         match d with
         | [] => true
         | (k, v) :: d' =>
             match dict_get e k with
             | Some w => py_eq v w
             | None => false
             end && all d'
         end) d
  | _, _ => false
  end.

(** [v.get(key, default)]: only a dict has [get]. *)
Definition py_get (v : value) (key : string) (dflt : value) : result value :=
  match v with
  | VDict entries => Ok (default dflt (dict_get entries key))
  | _ => Raise AttributeError
  end.

(** [v[key]] for a string [key]: a missing key of a dict raises [KeyError],
    a list or a string takes integer indices only, and the other values are
    not subscriptable. *)
Definition py_getitem (v : value) (key : string) : result value :=
  match v with
  | VDict entries =>
      match dict_get entries key with
      | Some x => Ok x
      | None => Raise KeyError
      end
  | _ => Raise TypeError
  end.

(** The characters of a string, each as a one-character string. *)
Fixpoint chars (s : string) : list value :=
  match s with
  | "" => []
  | String c s' => VStr (String c "") :: chars s'
  end.

(** [for x in v]: the items of a list, the keys of a dict, the characters of
    a string; nothing else is iterable. *)
Definition py_iter (v : value) : result (list value) :=
  match v with
  | VList items => Ok items
  | VDict entries => Ok (VStr <$> entries.*1)
  | VStr s => Ok (chars s)
  | _ => Raise TypeError
  end.

(** [v.items()] *)
Definition py_items (v : value) : result (list (string * value)) :=
  match v with
  | VDict entries => Ok entries
  | _ => Raise AttributeError
  end.

(** [s.lower()] on the characters A to Z. *)
Definition lower_ascii (c : ascii) : ascii :=
  let n := nat_of_ascii c in
  if (65 <=? n)%nat && (n <=? 90)%nat then ascii_of_nat (n + 32) else c.

Fixpoint str_lower (s : string) : string :=
  match s with
  | "" => ""
  | String c s' => String (lower_ascii c) (str_lower s')
  end.

End Py.

(** ** The file system

    A tree of directories and files, with the process's working directory.
    A file is represented by what [yaml.load] makes of its text: a document,
    or a failure to parse; [yaml.dump] followed by [yaml.load] is taken to
    give the document back.  Paths are POSIX strings.  The components [.]
    and the empty one are skipped; [..] and symbolic links are outside the
    model (a component [..] names no entry). *)

Module Fs.
Import Py.

#[local] Set Warnings "-register-all".

Inductive content :=
| NotYaml
| Yaml (v : value).

Inductive node :=
| File (c : content)
| Dir (entries : list (string * node)).

Record disk := Disk {
  root : node;
  cwd : list string
}.

Definition is_abs (p : string) : bool :=
  match p with
  | String c _ => bool_decide (c = "/"%char)
  | "" => false
  end.

(** [os.path.join(a, b)] *)
Definition os_path_join (a b : string) : string :=
  if is_abs b then b
  else if bool_decide (a = "") || str_endswith a "/" then a +:+ b
  else a +:+ "/" +:+ b.

(** [p[:p.rfind('/') + 1]]: [p] up to and including its last slash. *)
Fixpoint head_part (p : string) : string :=
  match p with
  | "" => ""
  | String c p' => if str_contains "/" p then String c (head_part p') else ""
  end.

(** [s.rstrip('/')] *)
Fixpoint rstrip_slash (s : string) : string :=
  match s with
  | "" => ""
  | String c s' =>
      let r := rstrip_slash s' in
      if bool_decide (r = "") && bool_decide (c = "/"%char) then "" else String c r
  end.

(** [os.path.dirname(p)]: the head loses its trailing slashes unless it
    consists of slashes only. *)
Definition os_path_dirname (p : string) : string :=
  let head := head_part p in
  if bool_decide (rstrip_slash head = "") then head else rstrip_slash head.

(** The pieces of a path between its slashes. *)
Fixpoint split_path (p : string) : list string :=
  match p with
  | "" => [""]
  | String c p' =>
      if bool_decide (c = "/"%char) then "" :: split_path p'
      else match split_path p' with
           | [] => [String c ""]
           | x :: xs => String c x :: xs
           end
  end.

Definition path_components (p : string) : list string :=
  filter (fun x => x ≠ "" ∧ x ≠ ".") (split_path p).

(** Where a path leads, as the list of names from the root. *)
Definition locate (d : disk) (p : string) : list string :=
  ((if is_abs p then [] else cwd d) ++ path_components p)%list.

Fixpoint entry_get (entries : list (string * node)) (name : string) : option node :=
  match entries with
  | [] => None
  | (k, n) :: rest => if decide (k = name) then Some n else entry_get rest name
  end.

Fixpoint entry_set (entries : list (string * node)) (name : string) (n : node)
  : list (string * node) :=
  match entries with
  | [] => [(name, n)]
  | (k, m) :: rest =>
      if decide (k = name) then (k, n) :: rest else (k, m) :: entry_set rest name n
  end.

Fixpoint lookup_node (n : node) (comps : list string) : option node :=
  match comps with
  | [] => Some n
  | c :: cs =>
      match n with
      | Dir entries =>
          match entry_get entries c with
          | Some child => lookup_node child cs
          | None => None
          end
      | File _ => None
      end
  end.

Definition resolve (d : disk) (p : string) : option node :=
  lookup_node (root d) (locate d p).

(** The file at a location, if there is one. *)
Definition file_at (n : node) (comps : list string) : option content :=
  match lookup_node n comps with
  | Some (File c) => Some c
  | _ => None
  end.

(** [os.path.exists(p)] *)
Definition os_path_exists (d : disk) (p : string) : bool :=
  bool_decide (is_Some (resolve d p)).

(** [open(p, "r")] and [yaml.load]: opening a directory or a missing path
    fails with an [OSError]. *)
Definition open_read (d : disk) (p : string) : result content :=
  match resolve d p with
  | Some (File c) => Ok c
  | _ => Raise OSError
  end.

(** Put a file at a location: its directory must exist, and the location
    must not be a directory. *)
Fixpoint put_file (n : node) (comps : list string) (c : content) : option node :=
  match comps, n with
  | [], _ => None
  | [name], Dir entries =>
      match entry_get entries name with
      | Some (Dir _) => None
      | _ => Some (Dir (entry_set entries name (File c)))
      end
  | name :: cs, Dir entries =>
      match entry_get entries name with
      | Some child =>
          match put_file child cs c with
          | Some child' => Some (Dir (entry_set entries name child'))
          | None => None
          end
      | None => None
      end
  | _ :: _, File _ => None
  end.

(** [open(p, "w")] followed by [yaml.dump]; [None] stands for the [OSError]
    of a failed [open]. *)
Definition open_write (d : disk) (p : string) (c : content) : option disk :=
  match put_file (root d) (locate d p) c with
  | Some r => Some (Disk r (cwd d))
  | None => None
  end.

Definition dirnames (entries : list (string * node)) : list string :=
  entries ≫= (fun e => match e.2 with Dir _ => [e.1] | File _ => [] end).

Definition filenames (entries : list (string * node)) : list string :=
  entries ≫= (fun e => match e.2 with File _ => [e.1] | Dir _ => [] end).

(** [os.walk(top)], top-down: the triple of [top] itself, then the walks of
    its subdirectories in the order of the listing.  A [top] that is not a
    directory yields nothing. *)
Fixpoint os_walk (top : string) (n : node)
  : list (string * list string * list string) :=
  match n with
  | File _ => []
  | Dir entries =>
      (top, dirnames entries, filenames entries) ::
      (fix sub (es : list (string * node)) :=
         match es with
         | [] => []
         | (name, child) :: es' =>
             (os_walk (os_path_join top name) child ++ sub es')%list
         end) entries
  end.

End Fs.

(** ** DbtYamlWriter *)

Module Writer.
Import Py Fs.

Inductive writer_mode := Update | Check | Interactive | Drift.

#[global] Instance writer_mode_eq_dec : EqDecision writer_mode.
Proof. solve_decision. Defined.

(** What a message is about: [model 'm'] or [column 'm.c']. *)
Inductive node_ref :=
| ModelRef (model_name : string)
| ColumnRef (model_name : string) (col_name : value).

(** The warnings and errors the writer logs, by their arguments. The
    information messages are left out. *)
Inductive log_event :=
| Warn_missing_model (model_name : string)
| Warn_missing_key (key : string) (target : node_ref)
| Warn_drift (model_name : string) (col_name : value)
| Error_no_path (model_name : string).

(** The writer object.  [yaml_files], [model_to_file_map] and
    [files_to_write] are the attributes of the same names;
    [model_to_file_map] is kept for the names that are strings, as no other
    name can equal a key of the catalog.  [log] collects what the writer
    logs, and [replies] holds the lines the operator will type at the
    prompts of the interactive mode. *)
Record writer := Writer_ {
  dbt_project_dir : string;
  mode : writer_mode;
  yaml_files : gmap string value;
  model_to_file_map : gmap string string;
  files_to_write : gset string;
  log : list log_event;
  replies : list string
}.

Definition parse_mode (m : string) : option writer_mode :=
  if decide (m = "update") then Some Update
  else if decide (m = "check") then Some Check
  else if decide (m = "interactive") then Some Interactive
  else if decide (m = "drift") then Some Drift
  else None.

Definition new_writer (dir : string) (m : writer_mode) (input : list string) : writer :=
  Writer_ dir m ∅ ∅ ∅ [] input.

Definition __init__ (dir : string) (m : string) (input : list string) : result writer :=
  match parse_mode m with
  | Some m => Ok (new_writer dir m input)
  | None => Raise ValueError
  end.

Definition set_yaml_files (f : gmap string value) (w : writer) : writer :=
  Writer_ (dbt_project_dir w) (mode w) f (model_to_file_map w)
          (files_to_write w) (log w) (replies w).

Definition set_model_to_file_map (f : gmap string string) (w : writer) : writer :=
  Writer_ (dbt_project_dir w) (mode w) (yaml_files w) f
          (files_to_write w) (log w) (replies w).

Definition set_files_to_write (f : gset string) (w : writer) : writer :=
  Writer_ (dbt_project_dir w) (mode w) (yaml_files w) (model_to_file_map w)
          f (log w) (replies w).

Definition set_log (l : list log_event) (w : writer) : writer :=
  Writer_ (dbt_project_dir w) (mode w) (yaml_files w) (model_to_file_map w)
          (files_to_write w) l (replies w).

Definition set_replies (r : list string) (w : writer) : writer :=
  Writer_ (dbt_project_dir w) (mode w) (yaml_files w) (model_to_file_map w)
          (files_to_write w) (log w) r.

(** *** Methods as state transformers that may raise *)

Definition M (A : Type) : Type := writer → result (A * writer).

Definition ret {A} (a : A) : M A := fun w => Ok (a, w).

Definition bind {A B} (m : M A) (k : A → M B) : M B :=
  fun w => match m w with
           | Ok (a, w') => k a w'
           | Raise e => Raise e
           end.

Definition lift {A} (r : result A) : M A :=
  fun w => match r with
           | Ok a => Ok (a, w)
           | Raise e => Raise e
           end.

Definition get_self : M writer := fun w => Ok (w, w).

Definition modify (f : writer → writer) : M unit := fun w => Ok (tt, f w).

Definition logger (e : log_event) : M unit :=
  modify (fun w => set_log (log w ++ [e]) w).

Notation "'let!' x ':=' m 'in' k" := (bind m (fun x => k))
  (at level 10, x name, m at level 100, k at level 200, only parsing).

Section Methods.

(** Python's built-in [str], which the interactive prompt applies to the
    suggested value. *)
Variable py_str : value → string.

(** The order in which a [for] loop goes through a set of strings. *)
Variable set_iter : gset string → list string.

(** [typer.prompt] returns the line typed, or the default when the line is
    empty; an input that has run out aborts. *)
Definition _prompt_user_for_change (target : node_ref) (key ai_value : string)
  : M (option string) :=
  fun w =>
    match replies w with
    | [] => Raise Abort
    | line :: rest =>
        let final_value := if decide (line = "") then ai_value else line in
        if decide (str_lower final_value = "s")
        then Ok (None, set_replies rest w)
        else Ok (Some final_value, set_replies rest w)
    end.

(** [_process_update] returns its result together with [config_node] as the
    call leaves it. *)
Definition _process_update (config_node : list (string * value)) (key : string)
    (ai_value : value) (target : node_ref) : M (bool * list (string * value)) :=
  let! self := get_self in
  match mode self with
  | Check =>
      let! _ := logger (Warn_missing_key key target) in
      ret (true, config_node)
  | Interactive =>
      let! final_value := _prompt_user_for_change target key (py_str ai_value) in
      match final_value with
      | Some v => ret (true, dict_set config_node key (VStr v))
      | None => ret (false, config_node)
      end
  | Update | Drift =>
      ret (true, dict_set config_node key ai_value)
  end.

(** The first node named [model_name], with its position:
    [next((n for n in ... if n.get("name") == model_name), None)]. *)
Fixpoint find_node (items : list value) (model_name : string) (i : nat)
  : result (option (nat * list (string * value))) :=
  match items with
  | [] => Ok None
  | VDict entries :: rest =>
      if py_eq (default VNone (dict_get entries "name")) (VStr model_name)
      then Ok (Some (i, entries))
      else find_node rest model_name (S i)
  | _ :: _ => Raise AttributeError
  end.

(** [next((c for c in ... if c["name"] == col_name), None)] *)
Fixpoint find_ai_column (candidates : list value) (col_name : value)
  : result (option value) :=
  match candidates with
  | [] => Ok None
  | c :: rest =>
      match py_getitem c "name" with
      | Ok n => if py_eq n col_name then Ok (Some c) else find_ai_column rest col_name
      | Raise e => Raise e
      end
  end.

(** The loop over [ai_column.get("ai_generated", {}).items()]. *)
Fixpoint update_fields (target : node_ref) (items : list (string * value))
    (column_config : list (string * value)) (file_changed : bool)
  : M (bool * list (string * value)) :=
  match items with
  | [] => ret (file_changed, column_config)
  | (key, ai_value) :: rest =>
      if negb (truthy (default VNone (dict_get column_config key)))
      then
        let! r := _process_update column_config key ai_value target in
        update_fields target rest r.2 (if r.1 then true else file_changed)
      else update_fields target rest column_config file_changed
  end.

(** One round of the loop over the node's columns. *)
Definition update_column (model_name : string) (ai_model_data : value)
    (file_changed : bool) (column_config : value) : M (bool * value) :=
  match column_config with
  | VDict entries =>
      let col_name := default VNone (dict_get entries "name") in
      let! ai_columns := lift (py_get ai_model_data "columns" (VList [])) in
      let! candidates := lift (py_iter ai_columns) in
      let! ai_column := lift (find_ai_column candidates col_name) in
      match ai_column with
      | None => ret (file_changed, column_config)
      | Some c =>
          if negb (truthy c) then ret (file_changed, column_config)
          else
            let! self := get_self in
            let! drift := (if bool_decide (mode self = Drift)
                        && truthy (default VNone (dict_get entries "description"))
                     then let! st := lift (py_get c "drift_status" VNone) in
                          ret (py_eq st (VStr "DRIFT"))
                     else ret false) in
            if drift : bool
            then let! _ := logger (Warn_drift model_name col_name) in
                 ret (true, column_config)
            else
              let! ai_generated := lift (py_get c "ai_generated" (VDict [])) in
              let! items := lift (py_items ai_generated) in
              let! r := update_fields (ColumnRef model_name col_name) items entries
                    file_changed in
              ret (r.1, VDict r.2)
      end
  | _ => lift (Raise AttributeError)
  end.

Fixpoint update_columns (model_name : string) (ai_model_data : value)
    (columns : list value) (file_changed : bool) : M (bool * list value) :=
  match columns with
  | [] => ret (file_changed, [])
  | column_config :: rest =>
      let! r := update_column model_name ai_model_data file_changed column_config in
      let! r' := update_columns model_name ai_model_data rest r.1 in
      ret (r'.1, r.2 :: r'.2)
  end.

(** The model-level description. *)
Definition update_description (model_name : string) (ai_model_data : value)
    (node_config : list (string * value)) : M (bool * list (string * value)) :=
  if negb (truthy (default VNone (dict_get node_config "description")))
  then
    let! ai_description := lift (py_get ai_model_data "model_description" VNone) in
    if truthy ai_description
    then _process_update node_config "description" ai_description
           (ModelRef model_name)
    else ret (false, node_config)
  else ret (false, node_config).

(** The node and its columns are updated in place; here the updated columns
    are put back into the node, the node into the [models] list, the list
    into the document and the document into [yaml_files].  (A node is only
    found in, and columns are only updated in, a list.) *)
Definition _update_existing_model_in_memory (file_path model_name : string)
    (ai_model_data : value) : M bool :=
  let! self := get_self in
  match yaml_files self !! file_path with
  | None => ret false
  | Some data =>
      if negb (truthy data) then ret false
      else
        let! models := lift (py_get data "models" (VList [])) in
        let! nodes := lift (py_iter models) in
        let! found := lift (find_node nodes model_name 0) in
        match found with
        | None => ret false
        | Some (i, node_config) =>
            if negb (truthy (VDict node_config)) then ret false
            else
              let! r1 := update_description model_name ai_model_data node_config in
              let! columns := lift (py_iter (default (VList [])
                                         (dict_get r1.2 "columns"))) in
              let! r2 := update_columns model_name ai_model_data columns r1.1 in
              let file_changed := r2.1 in
              let node_config' :=
                match dict_get r1.2 "columns" with
                | Some (VList _) => dict_set r1.2 "columns" (VList r2.2)
                | _ => r1.2
                end in
              let data' :=
                match data with
                | VDict entries =>
                    match dict_get entries "models" with
                    | Some (VList _) =>
                        VDict (dict_set entries "models"
                                 (VList (<[i := VDict node_config']> nodes)))
                    | _ => data
                    end
                | _ => data
                end in
              let! _ := modify (fun w =>
                set_yaml_files (<[file_path := data']> (yaml_files w)) w) in
              let! _ := (if file_changed
               then modify (fun w =>
                      set_files_to_write ({[file_path]} ∪ files_to_write w) w)
               else ret tt) in
              ret file_changed
        end
  end.

(** The loop that fills one new column stub. *)
Fixpoint stub_fields (target : node_ref) (items : list (string * value))
    (new_col_stub : list (string * value)) : M (list (string * value)) :=
  match items with
  | [] => ret new_col_stub
  | (key, ai_value) :: rest =>
      let! r := _process_update new_col_stub key ai_value target in
      stub_fields target rest r.2
  end.

Fixpoint stub_columns (model_name : string) (columns : list value)
  : M (list value) :=
  match columns with
  | [] => ret []
  | col :: rest =>
      let! col_name := lift (py_getitem col "name") in
      let! ai_generated := lift (py_get col "ai_generated" (VDict [])) in
      let! items := lift (py_items ai_generated) in
      let! new_col_stub := stub_fields (ColumnRef model_name col_name) items
                       [("name", col_name)] in
      let! rest' := stub_columns model_name rest in
      ret (VDict new_col_stub :: rest')
  end.

(** The construction of [new_model_stub]. *)
Definition build_stub (model_name : string) (ai_model_data : value)
  : M (list (string * value)) :=
  let! description := lift (py_getitem ai_model_data "model_description") in
  let! r := _process_update [("name", VStr model_name)] "description" description
        (ModelRef model_name) in
  let! ai_columns := lift (py_get ai_model_data "columns" (VList [])) in
  let! columns := lift (py_iter ai_columns) in
  let! new_columns_list := stub_columns model_name columns in
  ret (dict_set r.2 "columns" (VList new_columns_list)).

(** [data.setdefault("models", []).append(new_model_stub)] *)
Definition append_stub (data : value) (new_model_stub : value) : result value :=
  match data with
  | VDict entries =>
      match dict_get entries "models" with
      | None => Ok (VDict (dict_set entries "models" (VList [new_model_stub])))
      | Some (VList nodes) =>
          Ok (VDict (dict_set entries "models" (VList (nodes ++ [new_model_stub]))))
      | Some _ => Raise AttributeError
      end
  | _ => Raise AttributeError
  end.

(** [CommentedMap({"version": 2, "models": [new_model_stub]})] *)
Definition new_document (new_model_stub : value) : value :=
  VDict [("version", VInt 2); ("models", VList [new_model_stub])].

(** Where the stub of a model goes. *)
Definition stub_path (sql_path : string) : string :=
  os_path_join (os_path_dirname sql_path) "schema.yml".

Definition place_stub (model_name : string) (ai_model_data : value)
    (new_model_stub : list (string * value)) : M bool :=
  let! sql_path := lift (py_get ai_model_data "original_file_path" VNone) in
  if negb (truthy sql_path)
  then let! _ := logger (Error_no_path model_name) in ret false
  else
    match sql_path with
    | VStr sql_path =>
        let target_yaml_path := stub_path sql_path in
        let! self := get_self in
        let! data' := lift (match yaml_files self !! target_yaml_path with
                      | Some data => append_stub data (VDict new_model_stub)
                      | None => Ok (new_document (VDict new_model_stub))
                      end) in
        let! _ := modify (fun w =>
          set_yaml_files (<[target_yaml_path := data']> (yaml_files w)) w) in
        let! _ := modify (fun w =>
          set_files_to_write ({[target_yaml_path]} ∪ files_to_write w) w) in
        ret true
    | _ => lift (Raise TypeError)
    end.

Definition _create_new_model_stub_in_memory (model_name : string)
    (ai_model_data : value) : M bool :=
  let! self := get_self in
  if bool_decide (mode self = Check)
  then let! _ := logger (Warn_missing_model model_name) in ret true
  else
    let! new_model_stub := build_stub model_name ai_model_data in
    place_stub model_name ai_model_data new_model_stub.

(** *** Discovery and loading *)

(** [file.endswith((".yml", ".yaml")) and "dbt_project" not in file] *)
Definition is_schema_file (file : string) : bool :=
  (str_endswith file ".yml" || str_endswith file ".yaml")
  && negb (str_contains "dbt_project" file).

Definition schema_files_in (triple : string * list string * list string)
  : list string :=
  let '(root, _, files) := triple in
  os_path_join root <$> filter (fun file => is_schema_file file) files.

Definition model_paths (dir : string) : list string :=
  [os_path_join dir "models"; os_path_join dir "seeds";
   os_path_join dir "snapshots"].

Definition _find_schema_files (dir : string) (d : disk) : list string :=
  model_paths dir ≫= (fun path =>
    if os_path_exists d path
    then match resolve d path with
         | Some n => os_walk path n ≫= schema_files_in
         | None => []
         end
    else []).

(** The loop over the nodes of one list of a document.  A name that is a
    list or a dict cannot be the key of [model_to_file_map]; a truthy name
    that is not a string is a key that no model of the catalog has. *)
Fixpoint index_nodes (file_path : string) (items : list value)
    (m : gmap string string) : result (gmap string string) :=
  match items with
  | [] => Ok m
  | VDict entries :: rest =>
      let model_name := default VNone (dict_get entries "name") in
      if truthy model_name
      then match model_name with
           | VStr name => index_nodes file_path rest (<[name := file_path]> m)
           | VList _ | VDict _ => Raise TypeError
           | _ => index_nodes file_path rest m
           end
      else index_nodes file_path rest m
  | _ :: rest => index_nodes file_path rest m
  end.

Definition node_types : list string :=
  ["models"; "sources"; "seeds"; "snapshots"].

Fixpoint index_node_types (file_path : string) (data : value)
    (types : list string) (m : gmap string string)
  : result (gmap string string) :=
  match types with
  | [] => Ok m
  | node_type :: rest =>
      rbind (py_get data node_type (VList [])) (fun nodes =>
      rbind (py_iter nodes) (fun items =>
      rbind (index_nodes file_path items m) (fun m' =>
      index_node_types file_path data rest m')))
  end.

(** One round of the loop of [_load_and_map_existing_yamls]: a file that
    does not parse raises [WriterError], an empty document is skipped. *)
Definition load_file (d : disk) (file_path : string) : M unit :=
  let! c := lift (open_read d file_path) in
  match c with
  | NotYaml => lift (Raise WriterError)
  | Yaml data =>
      if negb (truthy data) then ret tt
      else
        let! _ := modify (fun w =>
          set_yaml_files (<[file_path := data]> (yaml_files w)) w) in
        let! self := get_self in
        let! m := lift (index_node_types file_path data node_types
                          (model_to_file_map self)) in
        modify (set_model_to_file_map m)
  end.

Fixpoint load_files (d : disk) (schema_files : list string) : M unit :=
  match schema_files with
  | [] => ret tt
  | file_path :: rest => let! _ := load_file d file_path in load_files d rest
  end.

Definition _load_and_map_existing_yamls (d : disk) : M unit :=
  let! self := get_self in
  load_files d (_find_schema_files (dbt_project_dir self) d).

(** *** write *)

Definition lookup_or_KeyError {A} (o : option A) : result A :=
  match o with
  | Some a => Ok a
  | None => Raise KeyError
  end.

Fixpoint update_loop (catalog_data : gmap string value) (names : list string)
    (is_outdated : bool) : M bool :=
  match names with
  | [] => ret is_outdated
  | model_name :: rest =>
      let! self := get_self in
      let! file_path := lift (lookup_or_KeyError
                                (model_to_file_map self !! model_name)) in
      let! ai_model_data := lift (lookup_or_KeyError
                                    (catalog_data !! model_name)) in
      let! r := _update_existing_model_in_memory file_path model_name
                  ai_model_data in
      update_loop catalog_data rest (if r then true else is_outdated)
  end.

Fixpoint create_loop (catalog_data : gmap string value) (names : list string)
    (is_outdated : bool) : M bool :=
  match names with
  | [] => ret is_outdated
  | model_name :: rest =>
      let! ai_model_data := lift (lookup_or_KeyError
                                    (catalog_data !! model_name)) in
      let! r := _create_new_model_stub_in_memory model_name ai_model_data in
      create_loop catalog_data rest (if r then true else is_outdated)
  end.

(** The partition of the catalog and the two loops of [write]. *)
Definition reconcile_models (catalog_data : gmap string value) : M bool :=
  let! self := get_self in
  let catalog_models := dom catalog_data in
  let documented_models := dom (model_to_file_map self) in
  let models_to_update := catalog_models ∩ documented_models in
  let models_to_create := catalog_models ∖ documented_models in
  let! is_outdated := update_loop catalog_data (set_iter models_to_update)
                        false in
  if bool_decide (models_to_create ≠ ∅)
  then create_loop catalog_data (set_iter models_to_create) is_outdated
  else ret is_outdated.

(** [write] up to, and without, the persistence. *)
Definition reconcile (catalog_data : gmap string value) (d : disk) : M bool :=
  let! _ := _load_and_map_existing_yamls d in
  reconcile_models catalog_data.

(** The loop of [_write_modified_files_to_disk].  A failed [open] raises
    [WriterError] and leaves the files written so far as they are.  (A path
    without a document would raise [KeyError] after [open] has emptied the
    file.) *)
Fixpoint write_files (self : writer) (paths : list string) (d : disk)
  : result unit * disk :=
  match paths with
  | [] => (Ok tt, d)
  | file_path :: rest =>
      match yaml_files self !! file_path with
      | Some data =>
          match open_write d file_path (Yaml data) with
          | Some d' => write_files self rest d'
          | None => (Raise WriterError, d)
          end
      | None =>
          match open_write d file_path (Yaml VNone) with
          | Some d' => (Raise KeyError, d')
          | None => (Raise WriterError, d)
          end
      end
  end.

Definition _write_modified_files_to_disk (self : writer) (d : disk)
  : result unit * disk :=
  write_files self (set_iter (files_to_write self)) d.

(** [self.mode not in ["check", "drift"] and self.files_to_write] *)
Definition persists (self : writer) : bool :=
  negb (bool_decide (mode self = Check) || bool_decide (mode self = Drift))
  && negb (bool_decide (files_to_write self = ∅)).

(** [write]: the result, or the exception that escapes, and the disk as the
    call leaves it. *)
Definition write (catalog_data : gmap string value) (self : writer) (d : disk)
  : result bool * disk :=
  match reconcile catalog_data d self with
  | Raise e => (Raise e, d)
  | Ok (is_outdated, self') =>
      if persists self'
      then match _write_modified_files_to_disk self' d with
           | (Ok _, d') => (Ok is_outdated, d')
           | (Raise e, d') => (Raise e, d')
           end
      else (Ok is_outdated, d)
  end.

End Methods.

End Writer.

(** ** GlobalLineageGenerator *)

Module Lineage.

(** The generator's two attributes: [self.nodes : Dict[str, str]] (node name
    to style) and [self.edges : Set[str]] (the formatted edge lines). *)
Record graph := Graph {
  nodes : gmap string string;
  edges : gset string
}.

(** [__init__]: both containers start empty. *)
Definition new_graph : graph := Graph ∅ ∅.

Definition _get_style_priority (style : string) : Z :=
  if decide (style = "box") then 3
  else if decide (style = "source") then 2
  else if decide (style = "db") then 1
  else 0.

(** [self._get_style_priority(current_style) if current_style else -1]:
    an absent name ([None]) and an empty style are both falsy. *)
Definition current_priority (current_style : option string) : Z :=
  match current_style with
  | Some s => if decide (s = "") then -1 else _get_style_priority s
  | None => -1
  end.

Definition _add_node (name style : string) (g : graph) : graph :=
  let current_style := nodes g !! name in
  let new_priority := _get_style_priority style in
  if decide (current_priority current_style < new_priority)
  then Graph (<[name := style]> (nodes g)) (edges g)
  else g.

(** The line an edge is stored as. *)
Definition edge_line (from_node to_node label : string) : string :=
  if decide (label = "")
  then "    " +:+ from_node +:+ " --> " +:+ to_node
  else "    " +:+ from_node +:+ " -- " +:+ dq +:+ label +:+ dq +:+ " --> " +:+ to_node.

Definition _add_edge (from_node to_node label : string) (g : graph) : graph :=
  Graph (nodes g) ({[ edge_line from_node to_node label ]} ∪ edges g).

(** The inputs: one foreign key and one dbt model. *)
Record fk := Fk { source_table : string; target_table : string }.
Record dbt_model := DbtModel { name : string; dependencies : list string }.

(** Step 1 of [generate_graph]. *)
Definition process_fk (g : graph) (k : fk) : graph :=
  let from_table := source_table k in
  let to_table := target_table k in
  _add_edge from_table to_table "FK"
    (_add_node to_table "db" (_add_node from_table "db" g)).

(** Step 2 of [generate_graph]. *)
Definition process_dep (model_name : string) (g : graph) (dep : string) : graph :=
  if str_contains "." dep
  then _add_edge dep model_name "" (_add_node dep "source" g)
  else _add_edge dep model_name "" (_add_node dep "box" g).

Definition process_model (g : graph) (m : dbt_model) : graph :=
  let model_name := name m in
  foldl (process_dep model_name) (_add_node model_name "box" g) (dependencies m).

Definition build_graph (db_fks : list fk) (dbt_models : list dbt_model) : graph :=
  foldl process_model (foldl process_fk new_graph db_fks) dbt_models.

(** Step 3: the node definitions; a style other than the three known ones
    yields no line. *)
Definition node_definition (entry : string * string) : list string :=
  let '(name, style) := entry in
  if decide (style = "box") then ["    " +:+ name +:+ "[" +:+ dq +:+ name +:+ dq +:+ "]"]
  else if decide (style = "db") then ["    " +:+ name +:+ "[(" +:+ dq +:+ name +:+ dq +:+ ")]"]
  else if decide (style = "source") then ["    " +:+ name +:+ "((" +:+ dq +:+ name +:+ dq +:+ "))"]
  else [].

(** Python's [sorted] on strings: ascending in the lexicographic order of the
    characters' codes, which is [String.le]. *)
Definition sorted (l : list string) : list string := merge_sort String.le l.

Definition node_lines (g : graph) : list string :=
  sorted (map_to_list (nodes g) ≫= node_definition).

(** [sorted(list(self.edges))] *)
Definition edge_lines (g : graph) : list string :=
  sorted (elements (edges g)).

Definition graph_lines (g : graph) : list string :=
  ["graph TD;"] ++ node_lines g ++ [""] ++ edge_lines g.

Definition render (g : graph) : string := str_join nl (graph_lines g).

Definition generate_graph (db_fks : list fk) (dbt_models : list dbt_model) : string :=
  render (build_graph db_fks dbt_models).

(** A sequence of [_add_node] calls and a sequence of [_add_edge] calls. *)
Definition add_nodes (calls : list (string * string)) (g : graph) : graph :=
  foldl (fun g c => _add_node c.1 c.2 g) g calls.

Definition add_edges (calls : list (string * string * string)) (g : graph) : graph :=
  foldl (fun g c => _add_edge c.1.1 c.1.2 c.2 g) g calls.

(** The three style tags: table, source and model. *)
Definition is_tag (style : string) : Prop :=
  style = "db" ∨ style = "source" ∨ style = "box".

End Lineage.

(** ** The workflows

    [DbtWorkflow] ([schema_scribe/workflows/dbt_workflow.py]) drives the
    writer, [LineageWorkflow] ([schema_scribe/workflows/lineage_workflow.py])
    the lineage generator.  The components that are injected into a workflow
    (the database connector, the output writer), and the services whose
    code lies outside these sources (the catalog generator, the manifest
    parser), are parameters: each is a function that returns a result or
    raises.  Of the connector the model keeps whether one was injected and
    whether its connection is open. *)

Module Workflow.
Import Py Fs.

(** What ends a workflow early: [typer.Exit(code)], [CIError(message)], or
    an exception that no handler catches. *)
Inductive failure :=
| Exit (code : Z)
| CIError (message : string)
| Uncaught (e : exn).

Inductive outcome :=
| Done
| Stop (f : failure).

Record world := World {
  files : disk;
  connected : bool
}.

Module DbtWorkflow.

Record dbt_workflow := DbtWorkflow_ {
  db_connector : bool;
  writer : bool;
  dbt_project_dir : string;
  update_yaml : bool;
  check : bool;
  interactive : bool;
  drift : bool;
  stdin : list string
}.

Section Methods.

Variable py_str : value → string.
Variable set_iter : gset string → list string.

(** [DbtCatalogGenerator.generate_catalog(dbt_project_dir, run_drift_check)]:
    it reads the project and writes nothing. *)
Variable generate_catalog : string → bool → disk → result (gmap string value).

(** [self.writer.write(catalog, **writer_kwargs)] *)
Variable output_write : gmap string value → disk → result unit * disk.

Definition log_msg (self : dbt_workflow) : string :=
  if check self then "documentation is outdated"
  else "documentation drift was detected".

Definition _handle_yaml_update (self : dbt_workflow) (mode : string)
    (catalog : gmap string value) (d : disk) : outcome * disk :=
  match Writer.__init__ (dbt_project_dir self) mode (stdin self) with
  | Raise e => (Stop (Uncaught e), d)
  | Ok writer =>
      match Writer.write py_str set_iter catalog writer d with
      | (Raise e, d') => (Stop (Uncaught e), d')
      | (Ok updates_needed, d') =>
          if bool_decide (mode = "check") || bool_decide (mode = "drift")
          then
            if updates_needed
            then (Stop (CIError ("CI CHECK FAILED: " +:+ log_msg self +:+ ".")), d')
            else (Done, d')
          else (Done, d')
      end
  end.

(** [except (KeyError, ValueError, IOError)]: the classes of the other
    exceptions are taken to be unrelated to these three. *)
Definition _handle_file_output (self : dbt_workflow)
    (catalog : gmap string value) (d : disk) : outcome * disk :=
  match output_write catalog d with
  | (Ok _, d') => (Done, d')
  | (Raise e, d') =>
      match e with
      | KeyError | ValueError | OSError => (Stop (Exit 1), d')
      | _ => (Stop (Uncaught e), d')
      end
  end.

Definition action_mode (self : dbt_workflow) : option string :=
  if drift self then Some "drift"
  else if check self then Some "check"
  else if interactive self then Some "interactive"
  else if update_yaml self then Some "update"
  else None.

Definition run (self : dbt_workflow) (s : world) : outcome * world :=
  if drift self && negb (db_connector self) then (Stop (Exit 1), s)
  else
    match generate_catalog (dbt_project_dir self) (drift self) (files s) with
    | Raise e => (Stop (Uncaught e), s)
    | Ok catalog =>
        let r :=
          match action_mode self with
          | Some mode => _handle_yaml_update self mode catalog (files s)
          | None =>
              if writer self then _handle_file_output self catalog (files s)
              else (Done, files s)
          end in
        match r.1 with
        | Done =>
            (Done, World r.2 (if db_connector self then false else connected s))
        | Stop f => (Stop f, World r.2 (connected s))
        end
    end.

End Methods.

End DbtWorkflow.

Module LineageWorkflow.

Section Methods.

(** Whether [self.db_connector] is a connector: without one (the value
    [None], which is not true) there is no [get_foreign_keys] to call. *)
Variable db_connector : bool.

(** [self.db_connector.get_foreign_keys()] *)
Variable get_foreign_keys : result (list Lineage.fk).

(** [DbtManifestParser(dbt_project_dir).models] *)
Variable _parse_dbt_models : string → disk → result (list Lineage.dbt_model).

(** [self.writer.write(catalog_data, **self.writer_params)] *)
Variable output_write : gmap string value → disk → result unit * disk.

(** The body of the [try] block of [run]. *)
Definition attempt (dbt_project_dir : string) (d : disk) : result unit * disk :=
  if negb db_connector then (Raise AttributeError, d)
  else
    match get_foreign_keys with
    | Raise e => (Raise e, d)
    | Ok db_fks =>
        match _parse_dbt_models dbt_project_dir d with
        | Raise e => (Raise e, d)
        | Ok dbt_models =>
            let mermaid_graph := Lineage.generate_graph db_fks dbt_models in
            output_write {[ "mermaid_graph" := VStr mermaid_graph ]} d
        end
    end.

(** [except Exception] turns every exception into [typer.Exit(code=1)], and
    the [finally] block closes the connection of the connector. *)
Definition run (dbt_project_dir : string) (s : world) : outcome * world :=
  let closed := if db_connector then false else connected s in
  match attempt dbt_project_dir (files s) with
  | (Ok _, d') => (Done, World d' closed)
  | (Raise _, d') => (Stop (Exit 1), World d' closed)
  end.

End Methods.

End LineageWorkflow.

End Workflow.

(** ** Environment variables in the configuration

    [expand_env_vars] of [schema_scribe/utils/utils.py].  The environment
    is the function [getenv], which is [os.getenv]: the value of a
    variable, or nothing when the variable is not set. *)

Module Utils.

(** The text with the variables expanded, or the [ConfigError] that names
    the variable that is not set. *)
Inductive expansion :=
| Expanded (text : string)
| ConfigError (var_name : string).

(** The class [[A-Za-z0-9_]]. *)
Definition is_name_char (c : ascii) : bool :=
  let n := nat_of_ascii c in
  ((65 <=? n) && (n <=? 90) || (97 <=? n) && (n <=? 122)
   || (48 <=? n) && (n <=? 57) || (n =? 95))%nat.

(** The longest run of name characters at the start of a string, and what
    follows it. *)
Fixpoint span_name (s : string) : string * string :=
  match s with
  | "" => ("", "")
  | String c s' =>
      if is_name_char c
      then (String c (span_name s').1, (span_name s').2)
      else ("", s)
  end.

(** A match of the pattern [\$\{([A-Za-z0-9_]+)\}] at the start of a
    string: the group, and what follows the match.  The closing brace is
    no name character, so that the group is the longest run of name
    characters after the opening brace; it must not be empty and the brace
    must follow it. *)
Definition match_at (s : string) : option (string * string) :=
  match s with
  | String "$" (String "{" s') =>
      match span_name s' with
      | (String c name, String "}" rest) => Some (String c name, rest)
      | _ => None
      end
  | _ => None
  end.

(** [pattern.sub(replacer, content)]: the matches are taken from left to
    right and do not overlap, [replacer] is called at each match in turn,
    and what it returns is not searched again.  [skip] counts the
    characters of the current match that are still to be passed. *)
Fixpoint sub (getenv : string → option string) (content : string) (skip : nat)
  : expansion :=
  match content with
  | "" => Expanded ""
  | String c rest =>
      match skip with
      | S k => sub getenv rest k
      | O =>
          match match_at content with
          | Some (var_name, _) =>
              match getenv var_name with
              | None => ConfigError var_name
              | Some var_value =>
                  match sub getenv rest (String.length var_name + 2)%nat with
                  | Expanded text => Expanded (var_value +:+ text)
                  | ConfigError n => ConfigError n
                  end
              end
          | None =>
              match sub getenv rest 0 with
              | Expanded text => Expanded (String c text)
              | ConfigError n => ConfigError n
              end
          end
      end
  end.

Definition expand_env_vars (getenv : string → option string) (content : string)
  : expansion :=
  sub getenv content 0.

(** A name of a variable: name characters only. *)
Fixpoint is_name (s : string) : bool :=
  match s with
  | "" => true
  | String c s' => is_name_char c && is_name s'
  end.

End Utils.

(** * Properties of the lineage generator *)

Module LineageFacts.
Import Lineage.

Lemma priority_tag_inj s1 s2 :
  is_tag s1 → is_tag s2 →
  _get_style_priority s1 = _get_style_priority s2 → s1 = s2.
Proof.
  intros [-> | [-> | ->]] [-> | [-> | ->]]; vm_compute; congruence.
Qed.

Lemma priority_tag_pos s : is_tag s → 0 < _get_style_priority s.
Proof. intros [-> | [-> | ->]]; vm_compute; reflexivity. Qed.

Lemma tag_nonempty s : is_tag s → s ≠ "".
Proof. intros [-> | [-> | ->]]; discriminate. Qed.

Lemma add_node_other name style g n :
  n ≠ name → nodes (_add_node name style g) !! n = nodes g !! n.
Proof.
  intros Hne. unfold _add_node. case_decide; simpl; [|done].
  by rewrite lookup_insert_ne.
Qed.

Lemma add_node_same name style g :
  nodes (_add_node name style g) !! name =
    if decide (current_priority (nodes g !! name) < _get_style_priority style)
    then Some style else nodes g !! name.
Proof.
  unfold _add_node. case_decide; simpl; [|done]. by rewrite lookup_insert_eq.
Qed.

Lemma add_nodes_snoc calls c g :
  add_nodes (calls ++ [c]) g = _add_node c.1 c.2 (add_nodes calls g).
Proof. unfold add_nodes. by rewrite foldl_app. Qed.

(** What the node table holds for [n] after a sequence of calls with tag
    styles, started from the empty table. *)
Lemma add_nodes_lookup calls n :
  Forall (fun c => is_tag c.2) calls →
  match nodes (add_nodes calls new_graph) !! n with
  | None => ∀ s, (n, s) ∉ calls
  | Some s =>
      (n, s) ∈ calls ∧
      ∀ s', (n, s') ∈ calls → _get_style_priority s' ≤ _get_style_priority s
  end.
Proof.
  induction calls as [|[m st] calls IH] using rev_ind; intros Htag.
  - simpl. rewrite lookup_empty. intros s Hs. by apply elem_of_nil in Hs.
  - apply Forall_app in Htag as [Htag Hlast].
    rewrite Forall_singleton in Hlast. simpl in Hlast.
    specialize (IH Htag). rewrite add_nodes_snoc. simpl.
    destruct (decide (n = m)) as [->|Hne].
    + rewrite add_node_same.
      destruct (nodes (add_nodes calls new_graph) !! m) as [cur|] eqn:Hcur.
      * destruct IH as [Hin Hmax].
        assert (is_tag cur) as Hcurtag.
        { rewrite Forall_forall in Htag. apply (Htag (m, cur) Hin). }
        simpl. destruct (decide (cur = "")) as [->|_];
          [by apply tag_nonempty in Hcurtag|].
        case_decide as Hlt.
        -- split; [apply elem_of_app; right; by apply list_elem_of_singleton|].
           intros s' [Hs'|Hs']%elem_of_app.
           ++ specialize (Hmax s' Hs'). lia.
           ++ apply list_elem_of_singleton in Hs'. injection Hs' as ->. lia.
        -- split; [apply elem_of_app; by left|].
           intros s' [Hs'|Hs']%elem_of_app; [by apply Hmax|].
           apply list_elem_of_singleton in Hs'. injection Hs' as ->. lia.
      * simpl. pose proof (priority_tag_pos st Hlast).
        case_decide; [|lia].
        split; [apply elem_of_app; right; by apply list_elem_of_singleton|].
        intros s' [Hs'|Hs']%elem_of_app; [by destruct (IH s')|].
        apply list_elem_of_singleton in Hs'. injection Hs' as ->. lia.
    + rewrite add_node_other by done.
      destruct (nodes (add_nodes calls new_graph) !! n) as [cur|].
      * destruct IH as [Hin Hmax]. split; [apply elem_of_app; by left|].
        intros s' [Hs'|Hs']%elem_of_app; [by apply Hmax|].
        apply list_elem_of_singleton in Hs'. congruence.
      * intros s [Hs|Hs]%elem_of_app; [by destruct (IH s)|].
        apply list_elem_of_singleton in Hs. congruence.
Qed.

(** C5. Style monotonicity: after any sequence of [_add_node] calls whose
    styles are among the table, source and model tags ("db", "source", "box"),
    made on a fresh generator, every name [n] that was passed at least once is
    recorded with a style [s] that was passed for [n] and whose priority is at
    least that of every style passed for [n]; as the priority separates the
    three tags, [s] is the highest-priority style seen.  Moreover no single
    call ever lowers the priority of the style recorded for a name. *)
Theorem style_monotonicity (calls : list (string * string)) (n s0 : string) :
  Forall (fun c => is_tag c.2) calls →
  (n, s0) ∈ calls →
  (∃ s, nodes (add_nodes calls new_graph) !! n = Some s ∧
        (n, s) ∈ calls ∧
        (∀ s', (n, s') ∈ calls →
               _get_style_priority s' ≤ _get_style_priority s) ∧
        (∀ s', (n, s') ∈ calls →
               _get_style_priority s' = _get_style_priority s → s' = s)) ∧
  (∀ g name style old,
      nodes g !! n = Some old →
      ∃ new, nodes (_add_node name style g) !! n = Some new ∧
             current_priority (Some old) ≤ current_priority (Some new)).
Proof.
  intros Htag Hin. split.
  - pose proof (add_nodes_lookup calls n Htag) as H.
    destruct (nodes (add_nodes calls new_graph) !! n) as [s|];
      [|by destruct (H s0)].
    destruct H as [Hs Hmax]. exists s. repeat split; try done.
    intros s' Hs' Heq. rewrite Forall_forall in Htag.
    apply priority_tag_inj; [apply (Htag _ Hs')|apply (Htag _ Hs)|done].
  - intros g name style old Hold.
    destruct (decide (n = name)) as [->|Hne].
    + rewrite add_node_same, Hold. case_decide as Hlt.
      * exists style. split; [done|]. simpl in *.
        destruct (decide (style = "")) as [->|?]; [|lia].
        destruct (decide (old = "")) as [->|Hold']; [lia|].
        assert (0 ≤ _get_style_priority old)
          by (unfold _get_style_priority; repeat case_decide; lia).
        change (_get_style_priority "") with 0 in Hlt. lia.
      * exists old. split; [done|]. lia.
    + rewrite add_node_other by done. exists old. split; [done|]. lia.
Qed.

(** Witness of [style_monotonicity]: table, then model, then source. *)
Lemma style_monotonicity_witness :
  nodes (add_nodes [("orders", "db"); ("orders", "box"); ("orders", "source")]
           new_graph) !! "orders" = Some "box".
Proof.
  assert (Forall (fun c : string * string => is_tag c.2)
            [("orders", "db"); ("orders", "box"); ("orders", "source")]) as Htag.
  { rewrite !Forall_cons. unfold is_tag. simpl. auto 10 using Forall_nil_2. }
  assert (("orders", "db") ∈
            [("orders", "db"); ("orders", "box"); ("orders", "source")]) as Hin.
  { apply list_elem_of_here. }
  destruct (style_monotonicity _ "orders" "db" Htag Hin)
    as [[s (Hs & _ & Hmax & _)] _].
  rewrite Hs. vm_compute in Hs. congruence.
Defined.

(** *** Edges *)

Lemma str_length_app a b :
  String.length (a +:+ b) = (String.length a + String.length b)%nat.
Proof. induction a as [|c a IH]; simpl; [done|]. by rewrite IH. Qed.

Lemma str_app_inv_tail a b s : a +:+ s = b +:+ s → a = b.
Proof.
  revert b. induction a as [|c a IH]; intros [|d b] H.
  - done.
  - apply (f_equal String.length) in H.
    rewrite !str_length_app in H. simpl in H. lia.
  - apply (f_equal String.length) in H.
    rewrite !str_length_app in H. simpl in H. lia.
  - simpl in H. injection H as -> H. f_equal. by apply IH.
Qed.

(** Two edges between the same pair of nodes are stored as the same line
    only if their labels agree. *)
Lemma edge_line_label_inj f t l1 l2 :
  edge_line f t l1 = edge_line f t l2 → l1 = l2.
Proof.
  unfold edge_line. intros H.
  destruct (decide (l1 = "")) as [->|H1], (decide (l2 = "")) as [->|H2];
    [done| | |].
  - apply (inj (String.app "    ")), (inj (String.app f)) in H.
    simpl in H. discriminate.
  - apply (inj (String.app "    ")), (inj (String.app f)) in H.
    simpl in H. discriminate.
  - apply (inj (String.app "    ")), (inj (String.app f)) in H.
    apply (inj (String.app " -- ")), (inj (String.app dq)) in H.
    by apply str_app_inv_tail in H.
Qed.

Lemma add_edges_snoc calls c g :
  add_edges (calls ++ [c]) g = _add_edge c.1.1 c.1.2 c.2 (add_edges calls g).
Proof. unfold add_edges. by rewrite foldl_app. Qed.

(** The edge set after a sequence of additions holds exactly the lines of
    the added triples. *)
Lemma add_edges_elem calls g line :
  line ∈ edges (add_edges calls g) ↔
  line ∈ edges g ∨ ∃ f t l, (f, t, l) ∈ calls ∧ line = edge_line f t l.
Proof.
  induction calls as [|[[f t] l] calls IH] using rev_ind.
  - simpl. split; [by left|]. intros [H|(f & t & l & H & _)]; [done|].
    by apply elem_of_nil in H.
  - rewrite add_edges_snoc. simpl. rewrite elem_of_union, elem_of_singleton, IH.
    split.
    + intros [->|[H|(f' & t' & l' & H & ->)]].
      * right. exists f, t, l. split; [|done].
        apply elem_of_app. right. by apply list_elem_of_singleton.
      * by left.
      * right. exists f', t', l'. split; [|done]. apply elem_of_app. by left.
    + intros [H|(f' & t' & l' & H & ->)]; [right; by left|].
      apply elem_of_app in H as [H|H].
      * right; right. by exists f', t', l'.
      * apply list_elem_of_singleton in H. injection H as -> -> ->. by left.
Qed.

Lemma sorted_Permutation l : sorted l ≡ₚ l.
Proof. apply merge_sort_Permutation. Qed.

Lemma filter_eq_absent (x : string) (l : list string) :
  x ∉ l → filter (eq x) l = [].
Proof.
  induction l as [|y l IH]; intros Hx; [done|].
  apply not_elem_of_cons in Hx as [Hxy Hx].
  rewrite filter_cons. case_decide; [done|]. by apply IH.
Qed.

Lemma NoDup_filter_eq_length (x : string) (l : list string) :
  NoDup l → x ∈ l → length (filter (eq x) l) = 1%nat.
Proof.
  induction 1 as [|y l Hy Hnd IH]; intros Hin.
  - by apply elem_of_nil in Hin.
  - rewrite filter_cons. case_decide as Hxy.
    + subst y. simpl. by rewrite filter_eq_absent.
    + apply elem_of_cons in Hin as [->|Hin]; [done|]. by apply IH.
Qed.

Lemma edge_lines_NoDup g : NoDup (edge_lines g).
Proof.
  unfold edge_lines. rewrite sorted_Permutation. apply NoDup_elements.
Qed.

Lemma edge_lines_elem g line : line ∈ edge_lines g ↔ line ∈ edges g.
Proof.
  unfold edge_lines. rewrite sorted_Permutation. apply elem_of_elements.
Qed.

(** The scenario of the specification: [orders] is both the source of a
    foreign key and a model, and is drawn as a model. *)
Example generate_graph_scenario :
  generate_graph [Fk "orders" "users"] [DbtModel "orders" ["users"]]
  = str_join nl
      [ "graph TD;";
        "    orders[" +:+ dq +:+ "orders" +:+ dq +:+ "]";
        "    users[" +:+ dq +:+ "users" +:+ dq +:+ "]";
        "";
        "    orders -- " +:+ dq +:+ "FK" +:+ dq +:+ " --> users";
        "    users --> orders" ].
Proof. vm_compute. reflexivity. Qed.

Example add_edges_twice :
  edge_lines (add_edges [("a", "b", "FK"); ("a", "b", ""); ("a", "b", "FK")]
                new_graph)
  = [ "    a -- " +:+ dq +:+ "FK" +:+ dq +:+ " --> b"; "    a --> b" ].
Proof. vm_compute. reflexivity. Qed.

End LineageFacts.

(** * Properties of the file system model and of discovery *)

Module FsFacts.
Import Py Fs Writer.

(** Induction on a directory tree. *)
Fixpoint node_ind' (P : node → Prop)
    (Hfile : ∀ c, P (File c))
    (Hdir : ∀ entries, Forall (fun e => P e.2) entries → P (Dir entries))
    (n : node) : P n :=
  match n with
  | File c => Hfile c
  | Dir entries =>
      Hdir entries
        ((fix all (es : list (string * node)) : Forall (fun e => P e.2) es :=
            match es with
            | [] => Forall_nil_2 _
            | e :: es' => Forall_cons_2 _ _ _ (node_ind' P Hfile Hdir e.2) (all es')
            end) entries)
  end.

(** [reach n ds n']: going down from [n] through the directories named
    [ds], in this order, leads to [n']. *)
Inductive reach : node → list string → node → Prop :=
| reach_here n : reach n [] n
| reach_down entries name child ds n' :
    (name, child) ∈ entries → reach child ds n' →
    reach (Dir entries) (name :: ds) n'.

(** *** The string tests *)

Lemma prefix_spec s t : String.prefix s t = true ↔ ∃ b, t = s +:+ b.
Proof.
  revert s. induction t as [|c' t IH]; intros [|c s]; simpl.
  - split; [intros _; by exists ""|done].
  - split; [done|]. intros [b Hb]. discriminate.
  - split; [intros _; by eexists|done].
  - destruct (ascii_dec c c') as [->|Hne].
    + rewrite IH. split; intros [b Hb]; exists b; [by rewrite Hb|].
      by injection Hb.
    + split; [done|]. intros [b Hb]. injection Hb as Hc _. congruence.
Qed.

Lemma str_contains_spec needle hay :
  str_contains needle hay = true ↔ ∃ a b, hay = a +:+ needle +:+ b.
Proof.
  induction hay as [|c hay IH].
  - cbn [str_contains]. rewrite orb_false_r, prefix_spec. split.
    + intros [b Hb]. by exists "", b.
    + intros (a & b & H). destruct a; [by exists b|discriminate].
  - cbn [str_contains]. rewrite orb_true_iff, prefix_spec, IH. split.
    + intros [[b Hb]|(a & b & Hab)].
      * by exists "", b.
      * exists (String c a), b. simpl. by rewrite Hab.
    + intros (a & b & H). destruct a as [|c' a].
      * left. by exists b.
      * right. simpl in H. injection H as _ H. by exists a, b.
Qed.

Lemma str_endswith_spec s suffix :
  str_endswith s suffix = true ↔ ∃ a, s = a +:+ suffix.
Proof.
  induction s as [|c s IH].
  - cbn [str_endswith]. rewrite orb_false_r, bool_decide_eq_true. split.
    + intros <-. by exists "".
    + intros [a H]. destruct a; [done|discriminate].
  - cbn [str_endswith]. rewrite orb_true_iff, bool_decide_eq_true, IH. split.
    + intros [<-|[a ->]]; [by exists ""|]. by exists (String c a).
    + intros [a H]. destruct a as [|c' a].
      * by left.
      * right. simpl in H. injection H as _ H. by exists a.
Qed.

(** *** os.walk *)

Lemma os_walk_Dir top entries :
  os_walk top (Dir entries) =
  (top, dirnames entries, filenames entries) ::
  (entries ≫= fun e => os_walk (os_path_join top e.1) e.2).
Proof.
  simpl. f_equal. induction entries as [|[name child] es IH]; [done|].
  by rewrite IH.
Qed.

(** The triples of a walk are the directories that can be reached. *)
Lemma os_walk_spec n top root dirs files :
  (root, dirs, files) ∈ os_walk top n ↔
  ∃ ds entries, reach n ds (Dir entries) ∧
                root = foldl os_path_join top ds ∧
                dirs = dirnames entries ∧ files = filenames entries.
Proof.
  revert top. induction n as [c|entries IH] using node_ind'; intros top.
  - simpl. split; [by intros ?%elem_of_nil|].
    intros (ds & es & Hr & _). inversion Hr.
  - rewrite os_walk_Dir, elem_of_cons, list_elem_of_bind. split.
    + intros [H|([name child] & H & Hin)].
      * injection H as -> -> ->. exists [], entries. split; [constructor|done].
      * rewrite Forall_forall in IH. apply (IH _ Hin) in H.
        destruct H as (ds & es & Hr & -> & -> & ->).
        exists (name :: ds), es. split; [by econstructor|done].
    + intros (ds & es & Hr & -> & -> & ->).
      inversion Hr as [|? name child ds' ? Hin Hr']; subst.
      * by left.
      * right. exists (name, child). split; [|done].
        rewrite Forall_forall in IH. apply (IH _ Hin). by exists ds', es.
Qed.

Lemma elem_of_filenames entries name :
  name ∈ filenames entries ↔ ∃ c, (name, File c) ∈ entries.
Proof.
  unfold filenames. rewrite list_elem_of_bind. split.
  - intros ([k [c|es]] & H & Hin); simpl in H.
    + apply list_elem_of_singleton in H as ->. by exists c.
    + by apply elem_of_nil in H.
  - intros [c Hin]. exists (name, File c). split; [|done].
    by apply list_elem_of_singleton.
Qed.

(** The names that discovery accepts: they end in [.yml] or [.yaml] and do
    not contain [dbt_project]. *)
Definition schema_file_name (name : string) : Prop :=
  ((∃ stem, name = stem +:+ ".yml") ∨ (∃ stem, name = stem +:+ ".yaml")) ∧
  ¬ (∃ a b, name = a +:+ "dbt_project" +:+ b).

Lemma is_schema_file_spec name :
  is_schema_file name = true ↔ schema_file_name name.
Proof.
  unfold is_schema_file, schema_file_name.
  rewrite andb_true_iff, orb_true_iff, negb_true_iff, !str_endswith_spec.
  rewrite <- not_true_iff_false, str_contains_spec. done.
Qed.

(** What discovery returns, with the guard as the code has it: exactly the
    paths of the files that lie, at any depth, below the [models], [seeds]
    and [snapshots] directories of the project, whose name ends in [.yml] or
    [.yaml] and does not contain [dbt_project]; the path of a file is the
    path of its root directory joined with the names that lead to it.  A
    root that does not exist, or that is not a directory, contributes
    nothing, and no error is raised. *)
Lemma discovery (dir : string) (d : disk) (p : string) :
  p ∈ _find_schema_files dir d ↔
  ∃ top n ds entries name c,
    top ∈ [os_path_join dir "models"; os_path_join dir "seeds";
           os_path_join dir "snapshots"] ∧
    resolve d top = Some n ∧
    reach n ds (Dir entries) ∧
    (name, File c) ∈ entries ∧
    schema_file_name name ∧
    p = os_path_join (foldl os_path_join top ds) name.
Proof.
  unfold _find_schema_files. rewrite list_elem_of_bind. split.
  - intros (top & H & Htop). exists top.
    unfold os_path_exists in H. case_bool_decide as Hex; [|by apply elem_of_nil in H].
    destruct (resolve d top) as [n|] eqn:Hn; [|by apply elem_of_nil in H].
    apply list_elem_of_bind in H as ([[root dirs] files] & H & Hw).
    apply os_walk_spec in Hw as (ds & es & Hr & -> & -> & ->).
    unfold schema_files_in in H. apply list_elem_of_fmap in H as (name & -> & H).
    apply list_elem_of_filter in H as [Hname H].
    apply elem_of_filenames in H as [c Hc].
    exists n, ds, es, name, c. repeat split; try done.
    + apply is_schema_file_spec. by apply Is_true_true.
    + apply is_schema_file_spec. by apply Is_true_true.
  - intros (top & n & ds & es & name & c & Htop & Hn & Hr & Hc & Hname & ->).
    exists top. split; [|done].
    unfold os_path_exists. rewrite Hn.
    rewrite bool_decide_eq_true_2 by done.
    apply list_elem_of_bind.
    exists (foldl os_path_join top ds, dirnames es, filenames es). split.
    + unfold schema_files_in. apply list_elem_of_fmap. exists name.
      split; [done|]. apply list_elem_of_filter. split.
      * apply Is_true_true. by apply is_schema_file_spec.
      * apply elem_of_filenames. by exists c.
    + apply os_walk_spec. by exists ds, es.
Qed.

(** A project with a documentation file [models/dbt_project_docs.yml]. *)
Definition disk_with_docs : disk :=
  Disk (Dir [("dbt_project.yml", File (Yaml (VDict [("name", VStr "shop")])));
             ("models",
              Dir [("dbt_project_docs.yml",
                    File (Yaml (VDict [("version", VInt 2)])));
                   ("schema.yml", File (Yaml (VDict [("version", VInt 2)])))])])
       [].

(** C9. The guard of discovery is the substring test
    ["dbt_project" not in file], where the docstring of [_find_schema_files]
    promises all schema files but [dbt_project.yml]:
    [models/dbt_project_docs.yml] lies under the models root, ends in
    [.yml] and is not the project's configuration file, and yet discovery
    leaves it out and returns [models/schema.yml] only. *)
Theorem discovery_misses_a_schema_file :
  (∃ n entries c,
      resolve disk_with_docs (os_path_join "" "models") = Some n ∧
      reach n [] (Dir entries) ∧
      ("dbt_project_docs.yml", File c) ∈ entries ∧
      (∃ stem, "dbt_project_docs.yml" = stem +:+ ".yml") ∧
      "dbt_project_docs.yml" ≠ "dbt_project.yml" ∧
      os_path_join (foldl os_path_join (os_path_join "" "models") [])
        "dbt_project_docs.yml" = "models/dbt_project_docs.yml") ∧
  _find_schema_files "" disk_with_docs = ["models/schema.yml"] ∧
  "models/dbt_project_docs.yml" ∉ _find_schema_files "" disk_with_docs.
Proof.
  split; [|split].
  - eexists _, _, _. split; [vm_compute; reflexivity|].
    split; [constructor|]. split; [apply list_elem_of_here|].
    split; [by exists "dbt_project_docs"|]. split; [discriminate|].
    vm_compute. reflexivity.
  - vm_compute. reflexivity.
  - intros H. vm_compute in H.
    apply list_elem_of_singleton in H. discriminate.
Qed.

(** *** Writing a file *)

Lemma entry_get_set_eq entries name n :
  entry_get (entry_set entries name n) name = Some n.
Proof.
  induction entries as [|[k m] es IH]; simpl.
  - by rewrite decide_True.
  - destruct (decide (k = name)) as [->|Hne]; simpl.
    + by rewrite decide_True.
    + by rewrite decide_False.
Qed.

Lemma entry_get_set_ne entries name name' n :
  name ≠ name' → entry_get (entry_set entries name n) name' = entry_get entries name'.
Proof.
  intros Hne. induction entries as [|[k m] es IH]; simpl.
  - by rewrite decide_False.
  - destruct (decide (k = name)) as [->|Hk]; simpl.
    + by rewrite !decide_False.
    + destruct (decide (k = name')); [done|apply IH].
Qed.

Lemma file_at_nil n : file_at n [] = match n with File c => Some c | Dir _ => None end.
Proof. done. Qed.

Lemma file_at_cons entries name comps :
  file_at (Dir entries) (name :: comps) =
  match entry_get entries name with
  | Some child => file_at child comps
  | None => None
  end.
Proof. unfold file_at. simpl. by destruct (entry_get entries name). Qed.

Lemma file_at_File_cons c name comps : file_at (File c) (name :: comps) = None.
Proof. done. Qed.

Lemma put_file_below entries name name2 cs c :
  put_file (Dir entries) (name :: name2 :: cs) c =
  match entry_get entries name with
  | Some child =>
      match put_file child (name2 :: cs) c with
      | Some child' => Some (Dir (entry_set entries name child'))
      | None => None
      end
  | None => None
  end.
Proof. reflexivity. Qed.

(** Writing a file leaves the files at all other locations as they were:
    no other file is created, modified or removed. *)
Lemma put_file_other n comps c n' comps' :
  put_file n comps c = Some n' → comps' ≠ comps →
  file_at n' comps' = file_at n comps'.
Proof.
  revert n n' comps'. induction comps as [|name cs IH]; intros n n' comps' H Hne;
    [done|].
  destruct n as [c0|entries]; [by destruct cs|].
  destruct cs as [|name2 cs].
  - simpl in H.
    assert (n' = Dir (entry_set entries name (File c)) ∧
            ∀ es, entry_get entries name ≠ Some (Dir es)) as [-> Hnd].
    { destruct (entry_get entries name) as [[c1|es1]|]; [|done|];
        injection H as <-; split; done. }
    destruct comps' as [|name' rest]; [done|]. rewrite !file_at_cons.
    destruct (decide (name = name')) as [<-|Hn].
    + rewrite entry_get_set_eq. destruct rest as [|r rest]; [done|].
      rewrite file_at_File_cons.
      destruct (entry_get entries name) as [[c1|es1]|]; try done.
    + by rewrite entry_get_set_ne.
  - rewrite put_file_below in H.
    destruct (entry_get entries name) as [child|] eqn:Hchild; [|done].
    destruct (put_file child (name2 :: cs) c) as [child'|] eqn:Hput; [|done].
    injection H as <-.
    destruct comps' as [|name' rest]; [done|]. rewrite !file_at_cons.
    destruct (decide (name = name')) as [<-|Hn].
    + rewrite entry_get_set_eq, Hchild. apply (IH _ _ _ Hput). congruence.
    + by rewrite entry_get_set_ne.
Qed.

Lemma open_write_other d p c d' comps :
  open_write d p c = Some d' → comps ≠ locate d p →
  file_at (root d') comps = file_at (root d) comps.
Proof.
  unfold open_write.
  destruct (put_file (root d) (locate d p) c) as [r|] eqn:Hput; [|done].
  intros [= <-] Hne. simpl. by eapply put_file_other.
Qed.

Lemma open_write_cwd d p c d' : open_write d p c = Some d' → cwd d' = cwd d.
Proof.
  unfold open_write. destruct (put_file _ _ _); [|done]. by intros [= <-].
Qed.

Lemma locate_cwd d d' p : cwd d' = cwd d → locate d' p = locate d p.
Proof. unfold locate. by intros ->. Qed.

End FsFacts.

(** * Properties of the writer *)

Module WriterFacts.
Import Py Fs Writer FsFacts.

#[local] Open Scope nat_scope.
#[local] Open Scope list_scope.
#[local] Set Warnings "-clear-no-such-hyp".

(** *** Dictionaries *)

Lemma dict_get_set_eq e k v : dict_get (dict_set e k v) k = Some v.
Proof.
  induction e as [|[k' w] e IH]; simpl.
  - by rewrite decide_True.
  - destruct (decide (k' = k)) as [->|Hne]; simpl.
    + by rewrite decide_True.
    + by rewrite decide_False.
Qed.

Lemma dict_get_set_ne e k k' v :
  k ≠ k' → dict_get (dict_set e k v) k' = dict_get e k'.
Proof.
  intros Hne. induction e as [|[k0 w] e IH]; simpl.
  - by rewrite decide_False.
  - destruct (decide (k0 = k)) as [->|Hne0]; simpl.
    + by rewrite !decide_False.
    + destruct (decide (k0 = k')); [done|apply IH].
Qed.

Lemma dict_set_id e k v : dict_get e k = Some v → dict_set e k v = e.
Proof.
  induction e as [|[k0 w] e IH]; simpl; [done|].
  destruct (decide (k0 = k)) as [->|Hne].
  - by intros [= ->].
  - intros H. by rewrite IH.
Qed.

Lemma list_insert_same {A} (l : list A) i x : l !! i = Some x → <[i := x]> l = l.
Proof. apply list_insert_id. Qed.

(** *** A measure of documents

    A falsy scalar weighs 1 and a truthy one 2; a list or a dict weighs one
    more than its items together.  Every value that is falsy weighs 1,
    every value that is truthy at least 2. *)

Fixpoint vsize (v : value) : nat :=
  match v with
  | VList l =>
      S ((fix go (l : list value) : nat :=
            match l with
            | [] => 0
            | x :: l' => vsize x + go l'
            end) l)
  | VDict d =>
      S ((fix go (d : list (string * value)) : nat :=
            match d with
            | [] => 0
            | e :: d' => vsize e.2 + go d'
            end) d)
  | _ => if truthy v then 2 else 1
  end.

Definition lsize (l : list value) : nat := sum_list_with vsize l.
Definition esize (d : list (string * value)) : nat :=
  sum_list_with (fun e => vsize e.2) d.
Definition fsize (o : option value) : nat :=
  match o with
  | Some v => vsize v
  | None => 0
  end.

Lemma vsize_VList l : vsize (VList l) = S (lsize l).
Proof. reflexivity. Qed.

Lemma vsize_VDict d : vsize (VDict d) = S (esize d).
Proof. reflexivity. Qed.

Lemma vsize_pos v : (1 ≤ vsize v)%nat.
Proof. destruct v; simpl; try case_match; lia. Qed.

Lemma vsize_falsy v : truthy v = false → vsize v = 1%nat.
Proof.
  destruct v as [|b|n|s|l|d]; simpl; intros H; try by rewrite H.
  - done.
  - apply negb_false_iff, bool_decide_eq_true in H. by subst.
  - apply negb_false_iff, bool_decide_eq_true in H. by subst.
Qed.

Lemma vsize_truthy v : truthy v = true → (2 ≤ vsize v)%nat.
Proof.
  destruct v as [|b|n|s|l|d]; intros H.
  - done.
  - simpl in *. by rewrite H.
  - simpl in *. by rewrite H.
  - simpl in *. by rewrite H.
  - rewrite vsize_VList. simpl in H.
    apply negb_true_iff, bool_decide_eq_false in H.
    destruct l as [|x l]; [done|]. unfold lsize. simpl.
    pose proof (vsize_pos x). lia.
  - rewrite vsize_VDict. simpl in H.
    apply negb_true_iff, bool_decide_eq_false in H.
    destruct d as [|x d]; [done|]. unfold esize. simpl.
    pose proof (vsize_pos x.2). lia.
Qed.

Lemma esize_set_some e k x y :
  dict_get e k = Some x →
  (esize (dict_set e k y) + vsize x = esize e + vsize y)%nat.
Proof.
  unfold esize. induction e as [|[k0 w] e IH]; simpl; [done|].
  destruct (decide (k0 = k)) as [->|Hne]; simpl.
  - intros [= ->]. lia.
  - intros H. specialize (IH H). lia.
Qed.

Lemma esize_set_none e k y :
  dict_get e k = None → esize (dict_set e k y) = (esize e + vsize y)%nat.
Proof.
  unfold esize. induction e as [|[k0 w] e IH]; simpl; [intros _; lia|].
  destruct (decide (k0 = k)) as [->|Hne]; simpl; [done|].
  intros H. specialize (IH H). lia.
Qed.

Lemma lsize_insert l i x y :
  l !! i = Some x → (lsize (<[i := y]> l) + vsize x = lsize l + vsize y)%nat.
Proof.
  unfold lsize. revert i. induction l as [|z l IH]; intros [|i]; simpl; try done.
  - intros [= ->]. lia.
  - intros H. specialize (IH _ H). lia.
Qed.

Lemma lsize_app l1 l2 : lsize (l1 ++ l2) = (lsize l1 + lsize l2)%nat.
Proof. unfold lsize. induction l1; simpl; lia. Qed.

(** Writing into a slot that is absent or falsy does not shrink a dict, and
    makes it grow when the value written is truthy. *)
Lemma esize_set_falsy e k y :
  truthy (default VNone (dict_get e k)) = false →
  (esize e ≤ esize (dict_set e k y))%nat ∧
  (truthy y = true → esize e < esize (dict_set e k y))%nat.
Proof.
  intros H. destruct (dict_get e k) as [x|] eqn:Hx; simpl in H.
  - pose proof (esize_set_some e k x y Hx) as Heq.
    apply vsize_falsy in H. pose proof (vsize_pos y).
    split; [lia|]. intros Hy%vsize_truthy. lia.
  - rewrite (esize_set_none e k y Hx). pose proof (vsize_pos y).
    split; lia.
Qed.

(** Writing into a slot that is absent or falsy changes the dict, unless the
    value written is the falsy value that was there. *)
Lemma dict_set_neq_falsy e k y :
  truthy (default VNone (dict_get e k)) = false → truthy y = true →
  dict_set e k y ≠ e.
Proof.
  intros Hf Hy Heq. destruct (esize_set_falsy e k y Hf) as [_ Hlt].
  specialize (Hlt Hy). rewrite Heq in Hlt. lia.
Qed.

(** *** Inversion of the monadic code *)

Lemma bind_Ok {A B} (m : M A) (k : A → M B) w r :
  bind m k w = Ok r → ∃ a w1, m w = Ok (a, w1) ∧ k a w1 = Ok r.
Proof.
  unfold bind. destruct (m w) as [[a w1]|e]; [|done]. intros H. by exists a, w1.
Qed.

Lemma lift_Ok {A} (r : result A) w a w' :
  lift r w = Ok (a, w') → r = Ok a ∧ w' = w.
Proof. unfold lift. destruct r; [|done]. by intros [= -> ->]. Qed.

Lemma ret_Ok {A} (a : A) w a' w' : ret a w = Ok (a', w') → a' = a ∧ w' = w.
Proof. by intros [= -> ->]. Qed.

Lemma get_self_Ok w a w' : get_self w = Ok (a, w') → a = w ∧ w' = w.
Proof. by intros [= -> ->]. Qed.

Lemma modify_Ok f w a w' : modify f w = Ok (a, w') → w' = f w.
Proof. by intros [= _ ->]. Qed.

Lemma logger_Ok e w a w' :
  logger e w = Ok (a, w') → w' = set_log (log w ++ [e]) w.
Proof. by intros [= _ ->]. Qed.

Lemma rbind_Ok {A B} (r : result A) (k : A → result B) b :
  rbind r k = Ok b → ∃ a, r = Ok a ∧ k a = Ok b.
Proof. destruct r; [|done]. simpl. intros H. by eexists. Qed.

Ltac monad_inv :=
  repeat match goal with
  | H : bind _ _ _ = Ok _ |- _ =>
      let a := fresh "a" in let w := fresh "w" in let H1 := fresh "H" in
      apply bind_Ok in H as (a & w & H1 & H)
  | H : lift _ _ = Ok (_, _) |- _ =>
      let H1 := fresh "H" in apply lift_Ok in H as [H1 ?]; subst
  | H : ret _ _ = Ok (_, _) |- _ => apply ret_Ok in H as [? ?]; subst
  | H : get_self _ = Ok (_, _) |- _ => apply get_self_Ok in H as [? ?]; subst
  | H : modify _ _ = Ok (_, _) |- _ => apply modify_Ok in H; subst
  | H : logger _ _ = Ok (_, _) |- _ => apply logger_Ok in H; subst
  | H : rbind _ _ = Ok _ |- _ =>
      let a := fresh "a" in let H1 := fresh "H" in
      apply rbind_Ok in H as (a & H1 & H)
  | H : Raise _ = Ok _ |- _ => discriminate H
  | H : true = false |- _ => discriminate H
  | H : false = true |- _ => discriminate H
  | H : Ok _ = Ok _ |- _ => injection H as H; subst
  | H : (_, _) = (_, _) |- _ => injection H as ? ?; subst
  | H : _ = Ok ?r |- _ =>
      is_var r;
      lazymatch type of r with
      | prod _ _ => destruct r
      end
  | H : _ = Ok (?r, _) |- _ =>
      is_var r;
      lazymatch type of r with
      | prod _ _ => destruct r
      end
  end.

(** Two states of the writer that differ in the log and in the pending
    input at most. *)
Definition frame (w w' : writer) : Prop :=
  yaml_files w' = yaml_files w ∧
  files_to_write w' = files_to_write w ∧
  model_to_file_map w' = model_to_file_map w ∧
  mode w' = mode w ∧
  dbt_project_dir w' = dbt_project_dir w.

Lemma frame_refl w : frame w w.
Proof. by repeat split. Qed.

Lemma frame_trans w1 w2 w3 : frame w1 w2 → frame w2 w3 → frame w1 w3.
Proof.
  intros (?&?&?&?&?) (?&?&?&?&?). repeat split; congruence.
Qed.

Lemma frame_set_log l w : frame w (set_log l w).
Proof. by repeat split. Qed.

Lemma frame_set_replies r w : frame w (set_replies r w).
Proof. by repeat split. Qed.

(** *** What reconciliation keeps

    [kept e e']: every field of [e] with a truthy value has the same value
    in [e'].  The relations below lift this to columns, to nodes (for the
    description and, position by position, for the columns), to documents
    (the nodes of [models], position by position, nodes being added at the
    end only, and every other key as it was) and to [yaml_files]. *)

Definition kept (e e' : list (string * value)) : Prop :=
  ∀ k v, dict_get e k = Some v → truthy v = true → dict_get e' k = Some v.

Definition columns_of (e : list (string * value)) : list value :=
  match dict_get e "columns" with
  | Some (VList l) => l
  | _ => []
  end.

Definition models_of (e : list (string * value)) : list value :=
  match dict_get e "models" with
  | Some (VList l) => l
  | _ => []
  end.

Definition col_ok (c c' : value) : Prop :=
  match c, c' with
  | VDict e, VDict e' => kept e e'
  | _, _ => c' = c
  end.

Definition node_ok (n n' : value) : Prop :=
  match n, n' with
  | VDict e, VDict e' =>
      (∀ v, dict_get e "description" = Some v → truthy v = true →
            dict_get e' "description" = Some v) ∧
      Forall2 col_ok (columns_of e) (columns_of e')
  | _, _ => n' = n
  end.

Definition doc_ok (d d' : value) : Prop :=
  match d, d' with
  | VDict e, VDict e' =>
      (∀ k, k ≠ "models" → dict_get e' k = dict_get e k) ∧
      ∃ l1 extra, models_of e' = l1 ++ extra ∧ Forall2 node_ok (models_of e) l1
  | _, _ => d' = d
  end.

Definition files_ok (f f' : gmap string value) : Prop :=
  ∀ p d, f !! p = Some d → ∃ d', f' !! p = Some d' ∧ doc_ok d d'.

Lemma kept_refl e : kept e e.
Proof. by intros k v H _. Qed.

Lemma kept_trans e1 e2 e3 : kept e1 e2 → kept e2 e3 → kept e1 e3.
Proof. intros H1 H2 k v Hk Hv. apply H2; [|done]. by apply H1. Qed.

Lemma kept_set e k x :
  truthy (default VNone (dict_get e k)) = false → kept e (dict_set e k x).
Proof.
  intros Hf k' v Hk' Hv. destruct (decide (k = k')) as [->|Hne].
  - rewrite Hk' in Hf. simpl in Hf. congruence.
  - by rewrite dict_get_set_ne.
Qed.

Lemma col_ok_refl c : col_ok c c.
Proof. destruct c; try done. apply kept_refl. Qed.

Lemma col_ok_trans c1 c2 c3 : col_ok c1 c2 → col_ok c2 c3 → col_ok c1 c3.
Proof.
  destruct c1, c2; simpl; intros H1; try discriminate H1; try (injection H1 as <-);
    destruct c3; simpl; intros H2; try discriminate H2; try done.
  by eapply kept_trans.
Qed.

Lemma Forall2_refl_all {A} (R : A → A → Prop) l :
  (∀ x, R x x) → Forall2 R l l.
Proof. intros HR. induction l; by constructor. Qed.

Lemma Forall2_trans_all {A} (R : A → A → Prop) l1 l2 l3 :
  (∀ x y z, R x y → R y z → R x z) →
  Forall2 R l1 l2 → Forall2 R l2 l3 → Forall2 R l1 l3.
Proof.
  intros HR H12. revert l3. induction H12 as [|x y l1 l2 Hxy H12 IH];
    intros l3 H23; inversion H23; subst; constructor; eauto.
Qed.

Lemma node_ok_refl n : node_ok n n.
Proof.
  destruct n; try done. split; [done|].
  apply Forall2_refl_all, col_ok_refl.
Qed.

Lemma node_ok_trans n1 n2 n3 : node_ok n1 n2 → node_ok n2 n3 → node_ok n1 n3.
Proof.
  destruct n1, n2; simpl; intros H1; try discriminate H1; try (injection H1 as <-);
    destruct n3; simpl; intros H2; try discriminate H2; try done.
  destruct H1 as [Hd1 Hc1], H2 as [Hd2 Hc2]. split.
  - intros v Hv Ht. apply Hd2; [|done]. by apply Hd1.
  - eapply Forall2_trans_all; [apply col_ok_trans|done..].
Qed.

Lemma doc_ok_refl d : doc_ok d d.
Proof.
  destruct d; try done. split; [done|].
  exists (models_of entries), []. split; [by rewrite app_nil_r|].
  apply Forall2_refl_all, node_ok_refl.
Qed.

Lemma doc_ok_trans d1 d2 d3 : doc_ok d1 d2 → doc_ok d2 d3 → doc_ok d1 d3.
Proof.
  destruct d1, d2; simpl; intros H1; try discriminate H1; try (injection H1 as <-);
    destruct d3; simpl; intros H2; try discriminate H2; try done.
  destruct H1 as [Hk1 (l1 & x1 & Hm1 & Hf1)], H2 as [Hk2 (l2 & x2 & Hm2 & Hf2)].
  split.
  - intros k Hk. by rewrite Hk2, Hk1.
  - rewrite Hm1 in Hf2. apply Forall2_app_inv_l in Hf2 as (l2a & l2b & Ha & Hb & ->).
    exists l2a, (l2b ++ x2). split; [by rewrite Hm2, (assoc_L (++))|].
    eapply Forall2_trans_all; [apply node_ok_trans|done..].
Qed.

Lemma files_ok_refl f : files_ok f f.
Proof. intros p d H. exists d. split; [done|apply doc_ok_refl]. Qed.

Lemma files_ok_trans f1 f2 f3 : files_ok f1 f2 → files_ok f2 f3 → files_ok f1 f3.
Proof.
  intros H1 H2 p d Hp. destruct (H1 p d Hp) as (d' & Hp' & Hd).
  destruct (H2 p d' Hp') as (d'' & Hp'' & Hd'). exists d''.
  split; [done|]. by eapply doc_ok_trans.
Qed.

Lemma files_ok_insert f p d d' :
  f !! p = Some d → doc_ok d d' → files_ok f (<[p := d']> f).
Proof.
  intros Hp Hd q x Hq. destruct (decide (p = q)) as [->|Hne].
  - rewrite lookup_insert_eq. exists d'. split; [done|]. congruence.
  - rewrite lookup_insert_ne by done. exists x. split; [done|apply doc_ok_refl].
Qed.

Lemma files_ok_insert_new f p d' :
  f !! p = None → files_ok f (<[p := d']> f).
Proof.
  intros Hp q x Hq. destruct (decide (p = q)) as [->|Hne]; [congruence|].
  rewrite lookup_insert_ne by done. exists x. split; [done|apply doc_ok_refl].
Qed.

(** Closes the side conditions of a step that changed nothing. *)
Ltac unchanged :=
  first [ apply frame_refl | apply kept_refl | done | intros _ _ -> [=] ].

(** Closes the specification of a method at a return that left the
    documents as they were. *)
Ltac early_return :=
  split_and!; try done;
  let data := fresh "data" in let Hd := fresh "Hd" in
  intros data Hd;
  first [ discriminate Hd
        | try (injection Hd as <-); eexists;
          split_and!; [eassumption|apply doc_ok_refl|done|done] ].

(** *** The methods, one by one *)

Section Specs.

Variable py_str : value → string.
Variable set_iter : gset string → list string.

(** The modes in which a file is marked only when a value is written, with
    what the interactive mode needs of [str]: the text of a truthy value is
    not empty. *)
Definition strict_mode (w : writer) : Prop :=
  mode w = Update ∨
  (mode w = Interactive ∧ ∀ v, truthy v = true → py_str v ≠ "").

Lemma strict_mode_frame w w' : frame w w' → strict_mode w → strict_mode w'.
Proof. intros (_&_&_&Hm&_). unfold strict_mode. by rewrite Hm. Qed.

Lemma prompt_spec target key text w r w' :
  _prompt_user_for_change target key text w = Ok (r, w') →
  frame w w' ∧
  ∀ final, r = Some final → final = "" → text = "".
Proof.
  unfold _prompt_user_for_change. destruct (replies w) as [|line rest]; [done|].
  case_decide as Hs; intros [= <- <-]; (split; [apply frame_set_replies|]);
    intros final [= <-]; [].
  by case_decide.
Qed.

Lemma process_update_spec e key v target w b e' w' :
  _process_update py_str e key v target w = Ok ((b, e'), w') →
  frame w w' ∧
  ((b = false ∧ e' = e) ∨
   (b = true ∧ e' = e ∧ mode w = Check) ∨
   (b = true ∧ mode w ≠ Check ∧
    ∃ x, e' = dict_set e key x ∧
         (mode w ≠ Interactive → x = v) ∧
         (strict_mode w → truthy v = true → truthy x = true))).
Proof.
  unfold _process_update. intros H. monad_inv.
  destruct (mode w) eqn:Hmode; monad_inv.
  - split; [apply frame_refl|]. right; right. split_and!; try done.
    by exists v.
  - split; [apply frame_set_log|]. right; left. done.
  - match goal with
    | H : _prompt_user_for_change _ _ _ _ = Ok _ |- _ =>
        apply prompt_spec in H as [Hfr Hfinal]
    end.
    match goal with
    | H : match ?o with Some _ => _ | None => _ end _ = Ok _ |- _ =>
        destruct o as [final|]; monad_inv
    end.
    + split; [done|]. right; right. split_and!; try done.
      exists (VStr final). split_and!; try done.
      intros [Hm|[_ Hstr]] Hv; [congruence|]. simpl.
      apply negb_true_iff, bool_decide_eq_false. intros Hf.
      by apply (Hstr v Hv), (Hfinal final).
    + split; [done|]. by left.
  - split; [apply frame_refl|]. right; right. split_and!; try done.
    by exists v.
Qed.

Lemma strict_mode_not_check w : strict_mode w → mode w ≠ Check.
Proof. intros [H|[H _]]; congruence. Qed.

Lemma update_fields_spec target items e c w b e' w' :
  update_fields py_str target items e c w = Ok ((b, e'), w') →
  frame w w' ∧ kept e e' ∧ esize e ≤ esize e' ∧
  (b = false → e' = e ∧ c = false) ∧
  (strict_mode w → Forall (fun kv => truthy kv.2 = true) items →
   b = true → c = false → esize e < esize e').
Proof.
  revert e c w. induction items as [|[key v] items IH]; intros e c w H; simpl in H.
  - monad_inv. split_and!; [apply frame_refl|apply kept_refl|done|done|].
    intros _ _ -> [=].
  - destruct (truthy (default VNone (dict_get e key))) eqn:Hslot; simpl in H.
    + destruct (IH _ _ _ H) as (Hfr & Hk & Hle & Hb & Hstrict).
      split_and!; try done.
      intros Hs Hall. apply Hstrict; [done|]. by inversion Hall.
    + monad_inv.
      match goal with
      | H : _process_update _ _ _ _ _ _ = Ok (?r, _) |- _ =>
          destruct r as [b1 e1];
          apply process_update_spec in H as (Hfr1 & Hcase)
      end.
      simpl in H.
      destruct (IH _ _ _ H) as (Hfr & Hk & Hle & Hb & Hstrict).
      assert (kept e e1 ∧ esize e ≤ esize e1 ∧
              (strict_mode w → truthy v = true → b1 = true → esize e < esize e1) ∧
              (b1 = false → e1 = e))
        as (Hk1 & Hle1 & Hst1 & Hsame).
      { destruct Hcase as [[-> ->]|[(-> & -> & Hm)|(-> & Hnc & x & -> & _ & Hx)]].
        - split_and!; [apply kept_refl|done|done|done].
        - split_and!; [apply kept_refl|done| |done].
          intros Hs%strict_mode_not_check. done.
        - destruct (esize_set_falsy e key x Hslot) as [Hle1 Hlt1].
          split_and!; [by apply kept_set|done| |done].
          intros Hs Hv _. apply Hlt1. by apply Hx. }
      split_and!.
      * by eapply frame_trans.
      * by eapply kept_trans.
      * lia.
      * intros ->. destruct (Hb eq_refl) as [-> Hc].
        destruct b1; [done|]. split; [by apply Hsame|done].
      * intros Hs Hall -> ->. inversion Hall as [|? ? Hv Hall']; subst.
        simpl in Hv. destruct b1.
        -- specialize (Hst1 Hs Hv eq_refl). lia.
        -- assert (esize e1 < esize e'); [|lia].
           apply Hstrict; try done. by eapply strict_mode_frame.
Qed.

(** The values the catalog suggests for the columns of a model. *)
Definition column_values (c : value) : list value :=
  match c with
  | VDict e =>
      match default (VDict []) (dict_get e "ai_generated") with
      | VDict kvs => kvs.*2
      | _ => []
      end
  | _ => []
  end.

Definition candidate_values (ai_model_data : value) : list value :=
  match ai_model_data with
  | VDict e =>
      match default (VList []) (dict_get e "columns") with
      | VList cols => cols ≫= column_values
      | _ => []
      end
  | _ => []
  end.

Definition candidates_ok (ai_model_data : value) : Prop :=
  Forall (fun v => truthy v = true) (candidate_values ai_model_data).

Lemma find_ai_column_Some candidates col_name c :
  find_ai_column candidates col_name = Ok (Some c) →
  c ∈ candidates ∧ ∃ e, c = VDict e.
Proof.
  induction candidates as [|c0 cl IH]; simpl; [done|].
  destruct (py_getitem c0 "name") as [n|] eqn:Hn; [|done].
  destruct (py_eq n col_name).
  - intros [= <-]. split; [apply list_elem_of_here|].
    destruct c0; try done. by eexists.
  - intros Hrest. destruct (IH Hrest) as [Hin He]. split; [|done].
    by apply list_elem_of_further.
Qed.

Lemma elem_of_chars s x : x ∈ chars s → ∃ t, x = VStr t.
Proof.
  induction s as [|c s IH]; simpl; [by intros ?%elem_of_nil|].
  intros [->|H]%elem_of_cons; [by eexists|by apply IH].
Qed.

(** A dict met in an iteration is an item of a list. *)
Lemma py_iter_dict_elem v l e : py_iter v = Ok l → VDict e ∈ l → v = VList l.
Proof.
  destruct v; simpl; try done.
  - intros [= <-] H. by apply elem_of_chars in H as [t Ht].
  - by intros [= <-].
  - intros [= <-] H. apply list_elem_of_fmap in H as (k & Hk & _). done.
Qed.

Lemma update_column_spec model_name ai c col w b col' w' :
  update_column py_str model_name ai c col w = Ok ((b, col'), w') →
  frame w w' ∧ col_ok col col' ∧ vsize col ≤ vsize col' ∧
  (b = false → col' = col ∧ c = false) ∧
  (strict_mode w → candidates_ok ai → b = true → c = false →
   vsize col < vsize col').
Proof.
  unfold update_column. destruct col as [| | | | |e]; try (intros; monad_inv; fail).
  intros H. monad_inv.
  match goal with
  | H : match ?o with Some _ => _ | None => _ end _ = Ok _ |- _ =>
      destruct o as [aic|] eqn:Hfound
  end.
  2:{ monad_inv. split_and!; unchanged. }
  destruct (truthy aic) eqn:Haic; simpl in H.
  2:{ monad_inv. split_and!; unchanged. }
  monad_inv.
  match goal with
  | H : (if _ && _ then _ else ret false) _ = Ok (?d, ?wd) |- _ =>
      rename H into Hdrift; rename wd into w0; destruct d
  end.
  - (* a drift is flagged: the mode is drift, nothing is written *)
    assert (mode w = Drift ∧ frame w w0) as [Hm Hfr0].
    { revert Hdrift. case_bool_decide as Hm; simpl.
      - case_match; intros Hd; monad_inv; split; try done; apply frame_refl.
      - intros Hd. monad_inv. }
    monad_inv. split_and!.
    + eapply frame_trans; [done|apply frame_set_log].
    + apply kept_refl.
    + done.
    + done.
    + intros [Hs|[Hs _]]; congruence.
  - assert (frame w w0) as Hfr0.
    { revert Hdrift. case_match; intros Hd; monad_inv; apply frame_refl. }
    monad_inv.
    match goal with
    | H : update_fields _ _ _ _ _ _ = Ok (?r, _) |- _ =>
        destruct r as [b1 e1];
        apply update_fields_spec in H as (Hfr & Hk & Hle & Hb & Hstrict)
    end.
    cbn [fst snd]. split_and!.
    + by eapply frame_trans.
    + exact Hk.
    + rewrite !vsize_VDict. lia.
    + intros ->. destruct (Hb eq_refl) as [-> ->]. done.
    + intros Hs Hok -> ->. rewrite !vsize_VDict.
      assert (esize e < esize e1); [|lia].
      apply Hstrict; try done; [by eapply strict_mode_frame|].
      (* the values written come from the catalog *)
      match goal with
      | H : find_ai_column _ _ = Ok (Some _) |- _ =>
          apply find_ai_column_Some in H as [Hin [ce ->]]
      end.
      match goal with
      | H1 : py_get ai "columns" _ = Ok ?cols, H2 : py_iter ?cols = Ok ?l |- _ =>
          pose proof (py_iter_dict_elem _ _ _ H2 Hin) as ->;
          destruct ai as [| | | | |aie]; try discriminate H1;
          simpl in H1; injection H1 as H1
      end.
      unfold candidates_ok, candidate_values in Hok. rewrite H1 in Hok.
      rewrite Forall_forall in Hok. apply Forall_forall. intros [k v] Hkv.
      apply Hok. apply list_elem_of_bind. exists (VDict ce). split; [|done].
      simpl.
      match goal with
      | H1 : py_get (VDict ce) "ai_generated" _ = Ok ?g, H2 : py_items ?g = Ok _ |- _ =>
          simpl in H1; injection H1 as H1; rewrite H1;
          destruct g; try discriminate H2; simpl in H2; injection H2 as ->
      end.
      apply list_elem_of_fmap. by exists (k, v).
Qed.

Lemma update_column_dict model_name ai c col w r :
  update_column py_str model_name ai c col w = Ok r → ∃ e, col = VDict e.
Proof.
  unfold update_column. destruct col; try (intros; monad_inv; fail).
  intros _. by eexists.
Qed.

Lemma update_columns_spec model_name ai cols c w b cols' w' :
  update_columns py_str model_name ai cols c w = Ok ((b, cols'), w') →
  frame w w' ∧ Forall2 col_ok cols cols' ∧ lsize cols ≤ lsize cols' ∧
  (b = false → cols' = cols ∧ c = false) ∧
  (strict_mode w → candidates_ok ai → b = true → c = false →
   lsize cols < lsize cols') ∧
  Forall (fun col => ∃ e, col = VDict e) cols.
Proof.
  revert c w b cols'. induction cols as [|col cols IH]; intros c w b cols' H;
    simpl in H; monad_inv.
  - split_and!; try unchanged; constructor.
  - match goal with
    | H : update_column _ _ _ _ _ _ = Ok _ |- _ =>
        pose proof (update_column_dict _ _ _ _ _ _ H) as Hdict;
        apply update_column_spec in H as (Hfr1 & Hok1 & Hle1 & Hb1 & Hst1)
    end.
    match goal with
    | H : update_columns _ _ _ _ _ _ = Ok _ |- _ =>
        apply IH in H as (Hfr & Hok & Hle & Hb & Hst & Hd)
    end.
    cbn [fst snd] in *. unfold lsize in *. cbn [sum_list_with].
    split_and!.
    + by eapply frame_trans.
    + by constructor.
    + lia.
    + intros ->. destruct (Hb eq_refl) as [-> ->].
      by destruct (Hb1 eq_refl) as [-> ->].
    + intros Hs Hc -> ->.
      match goal with
      | H : ?b1 = false → _ ∧ false = false |- _ => destruct b1
      end.
      * specialize (Hst1 Hs Hc eq_refl eq_refl). lia.
      * apply (strict_mode_frame _ _ Hfr1) in Hs.
        specialize (Hst Hs Hc eq_refl eq_refl). lia.
    + by constructor.
Qed.

Lemma update_description_spec model_name ai e w b e' w' :
  update_description py_str model_name ai e w = Ok ((b, e'), w') →
  frame w w' ∧ kept e e' ∧ esize e ≤ esize e' ∧
  (b = false → e' = e) ∧
  (strict_mode w → b = true → esize e < esize e') ∧
  (∀ k, k ≠ "description" → dict_get e' k = dict_get e k).
Proof.
  unfold update_description.
  destruct (truthy (default VNone (dict_get e "description"))) eqn:Hslot;
    simpl; intros H; monad_inv.
  { split_and!; unchanged. }
  match goal with
  | H : (if truthy ?d then _ else _) _ = Ok _ |- _ =>
      destruct (truthy d) eqn:Hd; monad_inv
  end.
  2:{ split_and!; unchanged. }
  match goal with
  | H : _process_update _ _ _ _ _ _ = Ok _ |- _ =>
      apply process_update_spec in H as (Hfr & Hcase)
  end.
  split; [done|].
  destruct Hcase as [[-> ->]|[(-> & -> & Hm)|(-> & Hnc & x & -> & _ & Hx)]].
  - split_and!; unchanged.
  - split_and!; try unchanged. by intros Hs%strict_mode_not_check.
  - destruct (esize_set_falsy e "description" x Hslot) as [Hle Hlt].
    split_and!; try done.
    + by apply kept_set.
    + intros Hs _. apply Hlt. by apply Hx.
    + intros k Hk. by rewrite dict_get_set_ne.
Qed.

Lemma find_node_Some items model_name k i e :
  find_node items model_name k = Ok (Some (i, e)) →
  ∃ j, i = k + j ∧ items !! j = Some (VDict e).
Proof.
  revert k. induction items as [|n items IH]; intros k; simpl; [done|].
  destruct n as [| | | | |entries]; try done.
  case_match.
  - intros [= <- <-]. exists 0. split; [lia|done].
  - intros Hrest. destruct (IH _ Hrest) as (j & -> & Hj). exists (S j).
    split; [lia|done].
Qed.

Lemma py_iter_lookup_dict v l j e :
  py_iter v = Ok l → l !! j = Some (VDict e) → v = VList l.
Proof.
  intros Hv Hj. eapply py_iter_dict_elem; [done|].
  apply list_elem_of_lookup. by exists j.
Qed.

Lemma py_iter_all_dict v l :
  py_iter v = Ok l → Forall (fun x => ∃ e, x = VDict e) l →
  v = VList l ∨ l = [].
Proof.
  intros Hv Hall. destruct l as [|x l]; [by right|]. left.
  apply Forall_cons in Hall as [[e ->] _].
  by apply (py_iter_lookup_dict v _ 0 e).
Qed.

Lemma Forall2_insert_same {A} (R : A → A → Prop) l i x y :
  (∀ z, R z z) → l !! i = Some x → R x y → Forall2 R l (<[i := y]> l).
Proof.
  intros HR. revert i. induction l as [|z l IH]; intros [|i] Hi Hxy;
    simpl in *; try done.
  - injection Hi as ->. constructor; [done|]. by apply Forall2_refl_all.
  - constructor; [done|]. by apply IH.
Qed.

Lemma update_existing_spec file_path model_name ai w b w' :
  _update_existing_model_in_memory py_str file_path model_name ai w
    = Ok (b, w') →
  model_to_file_map w' = model_to_file_map w ∧
  mode w' = mode w ∧
  dbt_project_dir w' = dbt_project_dir w ∧
  files_to_write w' =
    (if b then {[file_path]} ∪ files_to_write w else files_to_write w) ∧
  (b = false → yaml_files w' = yaml_files w) ∧
  (∀ q, q ≠ file_path → yaml_files w' !! q = yaml_files w !! q) ∧
  (yaml_files w !! file_path = None → b = false) ∧
  (∀ data, yaml_files w !! file_path = Some data →
     ∃ data', yaml_files w' !! file_path = Some data' ∧
              doc_ok data data' ∧ vsize data ≤ vsize data' ∧
              (strict_mode w → candidates_ok ai → b = true →
               vsize data < vsize data')).
Proof.
  unfold _update_existing_model_in_memory. intros H. monad_inv.
  destruct (yaml_files w !! file_path) as [data|] eqn:Hdata; monad_inv;
    [|early_return].
  destruct (truthy data) eqn:Htruthy; cbn [negb] in *; monad_inv;
    [|early_return].
  match goal with
  | H : match ?o with Some _ => _ | None => _ end _ = Ok _ |- _ =>
      destruct o as [[i node]|]; monad_inv; [|early_return]
  end.
  destruct (truthy (VDict node)) eqn:Hnode; cbn [negb] in *; monad_inv;
    [|early_return].
  (* the node was found in the list of models *)
  match goal with
  | H : find_node _ _ _ = Ok _ |- _ =>
      apply find_node_Some in H as (j & -> & Hj); simpl in Hj
  end.
  match goal with
  | H1 : py_get data "models" _ = Ok ?m, H2 : py_iter ?m = Ok ?l |- _ =>
      pose proof (py_iter_lookup_dict _ _ _ _ H2 Hj) as ->;
      rename l into nodes; rename H1 into Hmodels
  end.
  destruct data as [| | | | |entries]; try discriminate Hmodels.
  simpl in Hmodels. injection Hmodels as Hmodels.
  assert (dict_get entries "models" = Some (VList nodes)) as Hget.
  { destruct (dict_get entries "models"); simpl in Hmodels; [congruence|].
    injection Hmodels as <-. done. }
  clear Hmodels. rewrite Hget in *.
  match goal with
  | H : update_description _ _ _ _ _ = Ok _ |- _ =>
      apply update_description_spec in H
        as (Hfr1 & Hk1 & Hle1 & Hb1 & Hst1 & Hkeys1)
  end.
  match goal with
  | H : update_columns _ _ _ _ _ _ = Ok _ |- _ =>
      pose proof H as Hrun;
      apply update_columns_spec in H as (Hfr2 & Hok2 & Hle2 & Hb2 & Hst2 & Hd2)
  end.
  cbn [fst snd] in *.
  match goal with
  | H : py_iter _ = Ok ?c |- _ => rename H into Hcols; rename c into cols
  end.
  match goal with Hk : kept node ?x |- _ => rename x into node1 end.
  match goal with Hb : ?x = false → node1 = node |- _ => rename x into b1 end.
  match goal with Hok : Forall2 col_ok cols ?x |- _ => rename x into cols' end.
  change (0 + j) with j in *.
  set (node' := match dict_get node1 "columns" with
                | Some (VList _) => dict_set node1 "columns" (VList cols')
                | _ => node1
                end) in *.
  (* the node before and after *)
  assert (node_ok (VDict node) (VDict node') ∧
          esize node ≤ esize node' ∧
          (b = false → node' = node) ∧
          (strict_mode w → candidates_ok ai → b = true →
           esize node < esize node')) as (Hnok & Hnle & Hnsame & Hnst).
  { apply py_iter_all_dict in Hcols as Hshape; [|done].
    assert (columns_of node1 = columns_of node) as Hcn.
    { unfold columns_of. by rewrite Hkeys1. }
    subst node'. destruct (dict_get node1 "columns") as [cv|] eqn:Hcv;
      simpl in Hshape, Hcols.
    - destruct Hshape as [->| ->].
      + assert (columns_of node = cols) as Hc0.
        { rewrite <- Hcn. unfold columns_of. by rewrite Hcv. }
        pose proof (esize_set_some node1 "columns" _ (VList cols') Hcv) as Hsz.
        rewrite !vsize_VList in Hsz. split_and!.
        * split.
          -- intros v Hv Ht. rewrite dict_get_set_ne by done. by apply Hk1.
          -- unfold columns_of at 2. rewrite dict_get_set_eq. by rewrite Hc0.
        * lia.
        * intros ->. destruct (Hb2 eq_refl) as [-> ->].
          rewrite (Hb1 eq_refl) in *. by apply dict_set_id.
        * intros Hs Hc ->. destruct b1.
          -- specialize (Hst1 Hs eq_refl). lia.
          -- apply (strict_mode_frame _ _ Hfr1) in Hs.
             specialize (Hst2 Hs Hc eq_refl eq_refl). lia.
      + simpl in Hrun. apply ret_Ok in Hrun as [[= -> ->] _].
        assert (node_ok (VDict node) (VDict node1)) as Hn1.
        { split; [intros v Hv Ht; by apply Hk1|].
          rewrite Hcn. apply Forall2_refl_all, col_ok_refl. }
        destruct cv;
          try (split_and!; [done|done|done|intros Hs _ Hb; by apply Hst1]).
        pose proof (esize_set_some node1 "columns" _ (VList []) Hcv) as Hsz.
        rewrite !vsize_VList in Hsz. simpl in Hcols. injection Hcols as ->.
        split_and!.
        * split; [intros v Hv Ht; rewrite dict_get_set_ne by done; by apply Hk1|].
          unfold columns_of at 2. rewrite dict_get_set_eq.
          rewrite <- Hcn. unfold columns_of. rewrite Hcv. constructor.
        * lia.
        * intros ->. rewrite (Hb1 eq_refl) in *. by apply dict_set_id.
        * intros Hs _ Hb. specialize (Hst1 Hs Hb). lia.
    - simpl in Hcols. injection Hcols as <-.
      simpl in Hrun. apply ret_Ok in Hrun as [[= -> ->] _].
      split_and!; try done.
      + split; [intros v Hv Ht; by apply Hk1|].
        rewrite Hcn. apply Forall2_refl_all, col_ok_refl.
      + intros Hs _ Hb. by apply Hst1. }
  clearbody node'.
  set (data' := VDict (dict_set entries "models"
                         (VList (<[j := VDict node']> nodes)))) in *.
  assert (doc_ok (VDict entries) data' ∧
          vsize (VDict entries) ≤ vsize data' ∧
          (b = false → data' = VDict entries) ∧
          (strict_mode w → candidates_ok ai → b = true →
           vsize (VDict entries) < vsize data')) as (Hdok & Hdle & Hdsame & Hdst).
  { pose proof (esize_set_some entries "models" _
                  (VList (<[j := VDict node']> nodes)) Hget) as Hsz.
    pose proof (lsize_insert nodes j _ (VDict node') Hj) as Hlz.
    rewrite !vsize_VList in Hsz. rewrite !vsize_VDict in Hlz.
    subst data'. rewrite !vsize_VDict. split_and!.
    - split.
      + intros k Hk. by rewrite dict_get_set_ne.
      + exists (<[j := VDict node']> nodes), []. split.
        * unfold models_of. by rewrite dict_get_set_eq, app_nil_r.
        * unfold models_of. rewrite Hget.
          eapply Forall2_insert_same; [apply node_ok_refl|done|done].
    - lia.
    - intros Hb. rewrite (Hnsame Hb), list_insert_id by done.
      by rewrite dict_set_id.
    - intros Hs Hc Hb. specialize (Hnst Hs Hc Hb). lia. }
  clearbody data'.
  destruct Hfr1 as (Hy1 & Hf1 & Hm1 & Hmo1 & Hdir1).
  destruct Hfr2 as (Hy2 & Hf2 & Hm2 & Hmo2 & Hdir2).
  match goal with
  | H : (if b then _ else _) _ = Ok (_, ?wf) |- _ => rename wf into w'
  end.
  assert (yaml_files w' = <[file_path := data']> (yaml_files w) ∧
          files_to_write w' =
            (if b then {[file_path]} ∪ files_to_write w else files_to_write w) ∧
          model_to_file_map w' = model_to_file_map w ∧
          mode w' = mode w ∧ dbt_project_dir w' = dbt_project_dir w)
    as (Hy & Hf & Hm & Hmo & Hdir).
  { destruct b; monad_inv; simpl; split_and!; congruence. }
  split_and!; try done.
  - intros Hb. rewrite Hy, (Hdsame Hb). by apply insert_id.
  - intros q Hq. rewrite Hy. by apply lookup_insert_ne.
  - intros data [= <-]. exists data'. split; [|done].
    rewrite Hy. apply lookup_insert_eq.
Qed.

(** **** New models *)

Lemma process_update_frame e key v target w r w' :
  _process_update py_str e key v target w = Ok (r, w') → frame w w'.
Proof. destruct r. by intros [? _]%process_update_spec. Qed.

Lemma stub_fields_frame target items e w e' w' :
  stub_fields py_str target items e w = Ok (e', w') → frame w w'.
Proof.
  revert e w. induction items as [|[k v] items IH]; intros e w H; simpl in H;
    monad_inv; [apply frame_refl|].
  match goal with
  | H : _process_update _ _ _ _ _ _ = Ok _ |- _ => apply process_update_frame in H
  end.
  eapply frame_trans; [done|]. by eapply IH.
Qed.

Lemma stub_columns_frame model_name cols w cols' w' :
  stub_columns py_str model_name cols w = Ok (cols', w') → frame w w'.
Proof.
  revert w cols'. induction cols as [|col cols IH]; intros w cols' H; simpl in H;
    monad_inv; [apply frame_refl|].
  match goal with
  | H : stub_fields _ _ _ _ _ = Ok _ |- _ => apply stub_fields_frame in H
  end.
  eapply frame_trans; [done|]. by eapply IH.
Qed.

Lemma build_stub_frame model_name ai w stub w' :
  build_stub py_str model_name ai w = Ok (stub, w') → frame w w'.
Proof.
  unfold build_stub. intros H. monad_inv.
  match goal with
  | H : _process_update _ _ _ _ _ _ = Ok _ |- _ => apply process_update_frame in H
  end.
  match goal with
  | H : stub_columns _ _ _ _ = Ok _ |- _ => apply stub_columns_frame in H
  end.
  by eapply frame_trans.
Qed.

(** Appending a stub keeps the document and makes it grow. *)
Lemma append_stub_spec data stub data' :
  append_stub data stub = Ok data' →
  doc_ok data data' ∧ vsize data < vsize data'.
Proof.
  unfold append_stub. destruct data as [| | | | |entries]; try done.
  destruct (dict_get entries "models") as [m|] eqn:Hm.
  - destruct m as [| | | | |]; try done. intros [= <-].
    pose proof (esize_set_some entries "models" _ (VList (items ++ [stub])) Hm)
      as Hsz.
    rewrite !vsize_VList, lsize_app in Hsz. rewrite !vsize_VDict.
    pose proof (vsize_pos stub). unfold lsize in Hsz. simpl in Hsz.
    split; [|lia]. split.
    + intros k Hk. by rewrite dict_get_set_ne.
    + exists items, [stub]. unfold models_of. rewrite dict_get_set_eq, Hm.
      split; [done|]. apply Forall2_refl_all, node_ok_refl.
  - intros [= <-]. rewrite !vsize_VDict, (esize_set_none _ _ _ Hm).
    pose proof (vsize_pos (VList [stub])). split; [|lia]. split.
    + intros k Hk. by rewrite dict_get_set_ne.
    + exists [], [stub]. unfold models_of. rewrite dict_get_set_eq, Hm.
      split; [done|constructor].
Qed.

Lemma place_stub_spec model_name ai stub w b w' :
  place_stub model_name ai stub w = Ok (b, w') →
  model_to_file_map w' = model_to_file_map w ∧
  mode w' = mode w ∧
  dbt_project_dir w' = dbt_project_dir w ∧
  replies w' = replies w ∧
  ((b = false ∧ yaml_files w' = yaml_files w ∧
    files_to_write w' = files_to_write w ∧
    log w' = log w ++ [Error_no_path model_name] ∧
    ∃ sql_path, py_get ai "original_file_path" VNone = Ok sql_path ∧
                truthy sql_path = false) ∨
   (b = true ∧ log w' = log w ∧
    ∃ sql_path data',
      py_get ai "original_file_path" VNone = Ok (VStr sql_path) ∧
      sql_path ≠ "" ∧
      yaml_files w' = <[stub_path sql_path := data']> (yaml_files w) ∧
      files_to_write w' = {[stub_path sql_path]} ∪ files_to_write w ∧
      match yaml_files w !! stub_path sql_path with
      | Some data => append_stub data (VDict stub) = Ok data'
      | None => data' = new_document (VDict stub)
      end)).
Proof.
  unfold place_stub. intros H. monad_inv.
  match goal with
  | H : (if negb (truthy ?p) then _ else _) _ = Ok _ |- _ =>
      destruct (truthy p) eqn:Hp; cbn [negb] in H; monad_inv
  end.
  - match goal with
    | H : match ?p with VStr _ => _ | _ => _ end _ = Ok _ |- _ =>
        destruct p as [| | |sql_path| |]; monad_inv
    end.
    simpl. split_and!; try done. right. split_and!; try done.
    eexists sql_path, _. split_and!; try done.
    + intros ->. done.
    + destruct (yaml_files w !! stub_path sql_path); [done|].
      match goal with H : Ok _ = Ok _ |- _ => by injection H end.
  - simpl. split_and!; try done. left. split_and!; try done. by eexists.
Qed.

(** **** The effect of reconciling models

    [step strict w w']: what holds between the writer before and after any
    number of models were reconciled.  The index, the mode and the project
    directory stay; the dirty set grows; the documents are kept in the
    sense of [files_ok]; a file outside the dirty set holds the document it
    held; no document shrinks; and, in a strict mode and when [strict]
    holds, the document of a file that entered the dirty set has grown. *)
Definition step (strict : Prop) (w w' : writer) : Prop :=
  model_to_file_map w' = model_to_file_map w ∧
  mode w' = mode w ∧
  dbt_project_dir w' = dbt_project_dir w ∧
  files_to_write w ⊆ files_to_write w' ∧
  files_ok (yaml_files w) (yaml_files w') ∧
  (∀ p, p ∉ files_to_write w' → yaml_files w' !! p = yaml_files w !! p) ∧
  (∀ p, fsize (yaml_files w !! p) ≤ fsize (yaml_files w' !! p)) ∧
  (strict → strict_mode w → ∀ p,
     p ∈ files_to_write w' → p ∉ files_to_write w →
     fsize (yaml_files w !! p) < fsize (yaml_files w' !! p)).

Lemma step_refl strict w : step strict w w.
Proof. unfold step. split_and!; try done. apply files_ok_refl. Qed.

Lemma step_trans strict w1 w2 w3 :
  step strict w1 w2 → step strict w2 w3 → step strict w1 w3.
Proof.
  intros (Hm1 & Hmo1 & Hd1 & Hf1 & Hok1 & Hsame1 & Hle1 & Hst1)
         (Hm2 & Hmo2 & Hd2 & Hf2 & Hok2 & Hsame2 & Hle2 & Hst2).
  unfold step. split_and!; try congruence.
  - set_solver.
  - by eapply files_ok_trans.
  - intros p Hp. rewrite Hsame2 by done. apply Hsame1. set_solver.
  - intros p. specialize (Hle1 p). specialize (Hle2 p). lia.
  - intros Hs Hsm p Hp Hn.
    assert (strict_mode w2) as Hsm2.
    { unfold strict_mode in *. by rewrite Hmo1. }
    specialize (Hle1 p). specialize (Hle2 p).
    destruct (decide (p ∈ files_to_write w2)) as [Hin|Hout].
    + specialize (Hst1 Hs Hsm p Hin Hn). lia.
    + specialize (Hst2 Hs Hsm2 p Hp Hout). lia.
Qed.

Lemma step_weaken (P Q : Prop) w w' : (Q → P) → step P w w' → step Q w w'.
Proof.
  intros HQP (?&?&?&?&?&?&?&Hst). unfold step. split_and!; try done.
  intros HQ. by apply Hst, HQP.
Qed.

Lemma step_frame strict w w' : frame w w' → step strict w w'.
Proof.
  intros (Hy & Hf & Hm & Hmo & Hd). unfold step. rewrite Hy, Hf.
  split_and!; try done. apply files_ok_refl.
Qed.

Lemma update_existing_step file_path model_name ai w b w' :
  _update_existing_model_in_memory py_str file_path model_name ai w
    = Ok (b, w') →
  step (candidates_ok ai) w w'.
Proof.
  intros (Hm & Hmo & Hd & Hf & Hsame & Hother & Hnone & Hdata)%update_existing_spec.
  unfold step. split_and!; try done.
  - rewrite Hf. destruct b; set_solver.
  - intros p d Hp. destruct (decide (p = file_path)) as [->|Hne].
    + destruct (Hdata d Hp) as (d' & Hd' & Hok & _). by exists d'.
    + rewrite Hother by done. exists d. split; [done|apply doc_ok_refl].
  - intros p Hp. destruct (decide (p = file_path)) as [->|Hne];
      [|by apply Hother].
    destruct b; [rewrite Hf in Hp; set_solver|]. by rewrite Hsame.
  - intros p. destruct (decide (p = file_path)) as [->|Hne];
      [|by rewrite Hother].
    destruct (yaml_files w !! file_path) as [d|] eqn:Hp; simpl; [|lia].
    destruct (Hdata d eq_refl) as (d' & -> & _ & Hle & _). done.
  - intros Hc Hs p Hp Hn. rewrite Hf in Hp.
    destruct b; [|done]. assert (p = file_path) as -> by set_solver.
    destruct (yaml_files w !! file_path) as [d|] eqn:Hp'; simpl.
    + destruct (Hdata d eq_refl) as (d' & -> & _ & _ & Hlt). by apply Hlt.
    + (* a file that is not loaded is never marked by an update *)
      by specialize (Hnone eq_refl).
Qed.

Lemma create_stub_step model_name ai w b w' :
  _create_new_model_stub_in_memory py_str model_name ai w = Ok (b, w') →
  step True w w'.
Proof.
  unfold _create_new_model_stub_in_memory. intros H. monad_inv.
  case_bool_decide as Hcheck; monad_inv.
  { apply step_frame, frame_set_log. }
  match goal with
  | H : build_stub _ _ _ _ = Ok _ |- _ => apply build_stub_frame in H as Hfr
  end.
  eapply step_trans; [by apply step_frame|].
  match goal with
  | H : place_stub _ _ _ _ = Ok _ |- _ =>
      apply place_stub_spec in H as (Hm & Hmo & Hd & _ & Hcase)
  end.
  destruct Hcase as [(-> & Hy & Hf & _)|(-> & _ & sql & data' & _ & _ & Hy & Hf & Hdata)].
  { unfold step. rewrite Hy, Hf. split_and!; try done. apply files_ok_refl. }
  set (t := stub_path sql) in *.
  assert (doc_growth :
    files_ok (yaml_files w0) (<[t := data']> (yaml_files w0)) ∧
    fsize (yaml_files w0 !! t) < vsize data').
  { destruct (yaml_files w0 !! t) as [data|] eqn:Ht.
    - apply append_stub_spec in Hdata as [Hok Hlt]. split; [|done].
      by eapply files_ok_insert.
    - split; [by apply files_ok_insert_new|]. simpl.
      pose proof (vsize_pos data'). lia. }
  destruct doc_growth as [Hok Hlt].
  unfold step. rewrite Hy, Hf. split_and!; try done.
  - set_solver.
  - intros p Hp. apply lookup_insert_ne. set_solver.
  - intros p. destruct (decide (t = p)) as [<-|Hne].
    + rewrite lookup_insert_eq. simpl. lia.
    + by rewrite lookup_insert_ne.
  - intros _ _ p Hp Hn. assert (p = t) as -> by set_solver.
    by rewrite lookup_insert_eq.
Qed.

(** The suggestions of every model of the catalog are truthy. *)
Definition catalog_ok (catalog_data : gmap string value) : Prop :=
  ∀ name ai, catalog_data !! name = Some ai → candidates_ok ai.

Lemma lookup_or_KeyError_Ok {A} (o : option A) a :
  lookup_or_KeyError o = Ok a → o = Some a.
Proof. destruct o; [|done]. by intros [= ->]. Qed.

Lemma update_loop_step catalog_data names acc w b w' :
  update_loop py_str catalog_data names acc w = Ok (b, w') →
  step (catalog_ok catalog_data) w w'.
Proof.
  revert acc w. induction names as [|name names IH]; intros acc w H;
    simpl in H; monad_inv; [apply step_refl|].
  match goal with
  | H : _update_existing_model_in_memory _ _ _ _ _ = Ok _ |- _ =>
      apply update_existing_step in H
  end.
  match goal with
  | H : lookup_or_KeyError (catalog_data !! _) = Ok _ |- _ =>
      apply lookup_or_KeyError_Ok in H as Hai
  end.
  eapply step_trans; [|by eapply IH].
  eapply step_weaken; [|done]. intros Hc. by eapply Hc.
Qed.

Lemma create_loop_step catalog_data names acc w b w' :
  create_loop py_str catalog_data names acc w = Ok (b, w') →
  step (catalog_ok catalog_data) w w'.
Proof.
  revert acc w. induction names as [|name names IH]; intros acc w H;
    simpl in H; monad_inv; [apply step_refl|].
  match goal with
  | H : _create_new_model_stub_in_memory _ _ _ _ = Ok _ |- _ =>
      apply create_stub_step in H
  end.
  eapply step_trans; [|by eapply IH].
  eapply step_weaken; [|done]. done.
Qed.

Lemma reconcile_models_step catalog_data w b w' :
  reconcile_models py_str set_iter catalog_data w = Ok (b, w') →
  step (catalog_ok catalog_data) w w'.
Proof.
  unfold reconcile_models. intros H. monad_inv.
  match goal with
  | H : update_loop _ _ _ _ _ = Ok _ |- _ => apply update_loop_step in H
  end.
  eapply step_trans; [done|].
  case_bool_decide; monad_inv; [|apply step_refl].
  by eapply create_loop_step.
Qed.

(** *** The claims about reconciliation *)

Lemma Forall2_lookup_dict (R : value → value → Prop) l l' i x :
  Forall2 R l l' → l !! i = Some x → ∃ y, l' !! i = Some y ∧ R x y.
Proof. intros H Hi. by eapply Forall2_lookup_l. Qed.

(** No overwrite of existing descriptions in memory: when the models of a
    catalog are reconciled, in any mode, every document that was loaded is
    still there under its path, every node of its [models] list is still at
    its position, a description of such a node that was truthy (non-empty)
    has the value it had, and so has every truthy field of every column of
    the node.  (What [write] then leaves on disk is another matter, see
    [descriptions_are_lost_on_disk].) *)
Lemma no_overwrite_of_descriptions
    (catalog_data : gmap string value) (w : writer) (b : bool) (w' : writer)
    (p : string) (doc : list (string * value)) :
  reconcile_models py_str set_iter catalog_data w = Ok (b, w') →
  yaml_files w !! p = Some (VDict doc) →
  ∃ doc', yaml_files w' !! p = Some (VDict doc') ∧
    ∀ i node, models_of doc !! i = Some (VDict node) →
      ∃ node', models_of doc' !! i = Some (VDict node') ∧
        (∀ v, dict_get node "description" = Some v → truthy v = true →
              dict_get node' "description" = Some v) ∧
        ∀ j col, columns_of node !! j = Some (VDict col) →
          ∃ col', columns_of node' !! j = Some (VDict col') ∧
            ∀ k v, dict_get col k = Some v → truthy v = true →
                   dict_get col' k = Some v.
Proof.
  intros (_&_&_&_&Hok&_)%reconcile_models_step Hp.
  destruct (Hok p _ Hp) as (d' & Hp' & Hdoc).
  destruct d' as [| | | | |doc']; try done. exists doc'. split; [done|].
  destruct Hdoc as [_ (l1 & extra & Hm & Hnodes)].
  intros i node Hi.
  destruct (Forall2_lookup_dict _ _ _ _ _ Hnodes Hi) as (n' & Hi' & Hn).
  destruct n' as [| | | | |node']; try done. exists node'.
  split; [rewrite Hm; by apply lookup_app_l_Some|].
  destruct Hn as [Hdesc Hcols]. split; [done|].
  intros j col Hj.
  destruct (Forall2_lookup_dict _ _ _ _ _ Hcols Hj) as (c' & Hj' & Hc).
  destruct c' as [| | | | |col']; try done. by exists col'.
Qed.


(** The [models] list of a document has no node named [name]: there is no
    list, or each of its items is a mapping with another name. *)
Definition models_without (name : string) (doc : list (string * value)) : Prop :=
  match dict_get doc "models" with
  | None => True
  | Some (VList nodes) =>
      Forall (fun n => ∃ e, n = VDict e ∧
                dict_get e "name" ≠ Some (VStr name)) nodes
  | Some _ => False
  end.

Lemma py_eq_VStr v s : py_eq v (VStr s) = true → v = VStr s.
Proof.
  destruct v; simpl; try done. by intros ->%bool_decide_eq_true.
Qed.

Lemma find_node_None nodes name k :
  Forall (fun n => ∃ e, n = VDict e ∧ dict_get e "name" ≠ Some (VStr name))
    nodes →
  find_node nodes name k = Ok None.
Proof.
  revert k. induction nodes as [|n nodes IH]; intros k Hall; [done|].
  apply Forall_cons in Hall as [(e & -> & Hname) Hall]. simpl.
  destruct (py_eq _ _) eqn:Heq; [|by apply IH].
  apply py_eq_VStr in Heq. destruct (dict_get e "name"); simpl in Heq;
    [congruence|done].
Qed.

(** C10. A model of the catalog that the index maps to a file whose [models]
    list has no node of its name (it was indexed from [sources], [seeds] or
    [snapshots]): (a) updating it returns false and leaves the writer as it
    was, so that (b) the loop of [write] goes on as if the model were not
    there; and (c) whatever models are reconciled, in a document that was
    loaded every key other than [models] ([sources], [seeds] and
    [snapshots] among them) keeps its value. *)
Theorem nodes_outside_models_untouched
    (catalog_data : gmap string value) (w : writer) :
  (∀ file_path name ai doc,
     yaml_files w !! file_path = Some (VDict doc) →
     models_without name doc →
     _update_existing_model_in_memory py_str file_path name ai w
       = Ok (false, w)) ∧
  (∀ file_path name ai doc rest is_outdated,
     model_to_file_map w !! name = Some file_path →
     catalog_data !! name = Some ai →
     yaml_files w !! file_path = Some (VDict doc) →
     models_without name doc →
     update_loop py_str catalog_data (name :: rest) is_outdated w
       = update_loop py_str catalog_data rest is_outdated w) ∧
  (∀ b w' p doc,
     reconcile_models py_str set_iter catalog_data w = Ok (b, w') →
     yaml_files w !! p = Some (VDict doc) →
     ∃ doc', yaml_files w' !! p = Some (VDict doc') ∧
             ∀ k, k ≠ "models" → dict_get doc' k = dict_get doc k).
Proof.
  assert (∀ file_path name ai doc,
     yaml_files w !! file_path = Some (VDict doc) →
     models_without name doc →
     _update_existing_model_in_memory py_str file_path name ai w
       = Ok (false, w)) as Hupd.
  { intros file_path name ai doc Hdoc Hno.
    unfold _update_existing_model_in_memory, bind, get_self. rewrite Hdoc.
    destruct (truthy (VDict doc)); [|done]. simpl.
    unfold models_without in Hno.
    destruct (dict_get doc "models") as [[| | | |nodes|]|]; try done; simpl.
    by rewrite find_node_None. }
  split; [done|]. split.
  - intros file_path name ai doc rest acc Hmap Hcat Hdoc Hno. simpl.
    unfold bind at 1, get_self. unfold bind at 1. rewrite Hmap. simpl.
    unfold bind at 1. rewrite Hcat. simpl.
    unfold bind at 1. by rewrite (Hupd _ _ _ _ Hdoc Hno).
  - intros b w' p doc (_&_&_&_&Hok&_)%reconcile_models_step Hp.
    destruct (Hok p _ Hp) as (d' & Hp' & Hdoc).
    destruct d' as [| | | | |doc']; try done. exists doc'. split; [done|].
    by destruct Hdoc as [Hkeys _].
Qed.

(** *** Loading *)

Lemma load_file_malformed d file_path w :
  open_read d file_path = Ok NotYaml →
  load_file d file_path w = Raise WriterError.
Proof. intros H. unfold load_file, bind, lift. by rewrite H. Qed.

Lemma load_files_app d pre post w :
  load_files d (pre ++ post) w =
  match load_files d pre w with
  | Ok (_, w1) => load_files d post w1
  | Raise e => Raise e
  end.
Proof.
  revert w. induction pre as [|p pre IH]; intros w; simpl; [done|].
  unfold bind. destruct (load_file d p w) as [[[] w1]|e]; [apply IH|done].
Qed.

Lemma load_files_malformed d schema_files file_path w :
  file_path ∈ schema_files → open_read d file_path = Ok NotYaml →
  ∃ e, load_files d schema_files w = Raise e.
Proof.
  intros (pre & post & ->)%list_elem_of_split Hbad.
  rewrite load_files_app. destruct (load_files d pre w) as [[[] w1]|e];
    [|by eexists].
  simpl. unfold bind. rewrite load_file_malformed by done. by eexists.
Qed.

(** C7. Errors: (a) when a discovered file does not parse, [write] raises
    and leaves the disk as it was, whatever the mode and the catalog; the
    exception is [WriterError] when the files discovered before it were
    loaded; (b) a model without a source path, in a mode other than check,
    gets no stub: once its stub is built, an error is logged, the documents
    and the dirty set are as they were, the result for the model is false,
    and the loop of [write] goes on with the next model. *)
Theorem parse_error_is_fatal
    (catalog_data : gmap string value) (w : writer) (d : disk) :
  (∀ file_path,
     file_path ∈ _find_schema_files (dbt_project_dir w) d →
     open_read d file_path = Ok NotYaml →
     (∃ e, write py_str set_iter catalog_data w d = (Raise e, d)) ∧
     ∀ pre post w1,
       _find_schema_files (dbt_project_dir w) d = pre ++ file_path :: post →
       load_files d pre w = Ok (tt, w1) →
       write py_str set_iter catalog_data w d = (Raise WriterError, d)) ∧
  (∀ model_name ai stub w1 sql_path,
     mode w ≠ Check →
     build_stub py_str model_name ai w = Ok (stub, w1) →
     py_get ai "original_file_path" VNone = Ok sql_path →
     truthy sql_path = false →
     yaml_files w1 = yaml_files w ∧
     files_to_write w1 = files_to_write w ∧
     _create_new_model_stub_in_memory py_str model_name ai w
       = Ok (false, set_log (log w1 ++ [Error_no_path model_name]) w1) ∧
     ∀ rest is_outdated,
       catalog_data !! model_name = Some ai →
       create_loop py_str catalog_data (model_name :: rest) is_outdated w
       = create_loop py_str catalog_data rest is_outdated
           (set_log (log w1 ++ [Error_no_path model_name]) w1)).
Proof.
  split.
  - intros file_path Hin Hbad. split.
    + destruct (load_files_malformed d _ _ w Hin Hbad) as [e He].
      exists e. unfold write, reconcile, _load_and_map_existing_yamls, bind,
        get_self. by rewrite He.
    + intros pre post w1 Hfiles Hpre.
      unfold write, reconcile, _load_and_map_existing_yamls, bind, get_self.
      rewrite Hfiles, load_files_app, Hpre. simpl. unfold bind.
      by rewrite load_file_malformed.
  - intros model_name ai stub w1 sql_path Hmode Hstub Hpath Hfalsy.
    pose proof (build_stub_frame _ _ _ _ _ Hstub) as (Hy & Hf & _).
    assert (_create_new_model_stub_in_memory py_str model_name ai w
            = Ok (false, set_log (log w1 ++ [Error_no_path model_name]) w1))
      as Hcreate.
    { unfold _create_new_model_stub_in_memory, bind at 1, get_self.
      rewrite bool_decide_eq_false_2 by done.
      unfold bind at 1. rewrite Hstub.
      unfold place_stub, bind at 1, lift. rewrite Hpath, Hfalsy. done. }
    split_and!; try done.
    intros rest acc Hcat. simpl. unfold bind at 1, lift. rewrite Hcat. simpl.
    unfold bind at 1. by rewrite Hcreate.
Qed.

(** *** Persistence *)

Lemma index_frame file_path d w w' :
  load_file d file_path w = Ok (tt, w') →
  mode w' = mode w ∧ dbt_project_dir w' = dbt_project_dir w ∧
  files_to_write w' = files_to_write w.
Proof.
  unfold load_file. intros H. monad_inv.
  match goal with
  | H : match ?c with NotYaml => _ | Yaml _ => _ end _ = Ok _ |- _ =>
      destruct c as [|data]; monad_inv
  end.
  destruct (truthy data); cbn [negb] in *; monad_inv; done.
Qed.

Lemma load_files_frame d schema_files w w' :
  load_files d schema_files w = Ok (tt, w') →
  mode w' = mode w ∧ dbt_project_dir w' = dbt_project_dir w ∧
  files_to_write w' = files_to_write w.
Proof.
  revert w. induction schema_files as [|p ps IH]; intros w H; simpl in H;
    monad_inv; [done|].
  match goal with
  | H : load_file _ _ _ = Ok (?u, _) |- _ =>
      destruct u; apply index_frame in H as (Hm & Hd & Hf)
  end.
  match goal with
  | H : load_files _ _ _ = Ok (?u, _) |- _ =>
      destruct u; apply IH in H as (Hm' & Hd' & Hf')
  end.
  split_and!; congruence.
Qed.

Lemma reconcile_inv catalog_data d w b w' :
  reconcile py_str set_iter catalog_data d w = Ok (b, w') →
  ∃ w0, _load_and_map_existing_yamls d w = Ok (tt, w0) ∧
        reconcile_models py_str set_iter catalog_data w0 = Ok (b, w') ∧
        mode w0 = mode w ∧ files_to_write w0 = files_to_write w.
Proof.
  unfold reconcile. intros H. monad_inv.
  match goal with
  | H : _load_and_map_existing_yamls _ _ = Ok (?u, ?w0) |- _ =>
      destruct u; exists w0; pose proof H as Hload;
      unfold _load_and_map_existing_yamls in H
  end.
  monad_inv.
  match goal with
  | H : load_files _ _ _ = Ok _ |- _ => apply load_files_frame in H as (?&?&?)
  end.
  done.
Qed.

Lemma reconcile_mode catalog_data d w b w' :
  reconcile py_str set_iter catalog_data d w = Ok (b, w') → mode w' = mode w.
Proof.
  intros (w0 & _ & (_&Hm&_)%reconcile_models_step & Hm0 & _)%reconcile_inv.
  congruence.
Qed.

Lemma write_files_cwd self paths d r d' :
  write_files self paths d = (r, d') → cwd d' = cwd d.
Proof.
  revert d. induction paths as [|p paths IH]; intros d; simpl.
  - by intros [= _ <-].
  - destruct (yaml_files self !! p) as [data|].
    + destruct (open_write d p (Yaml data)) as [d1|] eqn:Hw.
      * intros H. rewrite (IH _ H). by eapply open_write_cwd.
      * by intros [= _ <-].
    + destruct (open_write d p (Yaml VNone)) as [d1|] eqn:Hw.
      * intros [= _ <-]. by eapply open_write_cwd.
      * by intros [= _ <-].
Qed.

(** A file that differs after the loop of [_write_modified_files_to_disk]
    lies where one of the paths of the loop leads. *)
Lemma write_files_changed self paths d r d' comps :
  write_files self paths d = (r, d') →
  file_at (root d') comps ≠ file_at (root d) comps →
  ∃ p, p ∈ paths ∧ locate d p = comps.
Proof.
  revert d. induction paths as [|p paths IH]; intros d; simpl.
  - intros [= _ <-] Hne. done.
  - destruct (decide (locate d p = comps)) as [Heq|Hother].
    { intros _ _. exists p. split; [apply list_elem_of_here|done]. }
    assert (∀ c d1, open_write d p c = Some d1 →
              file_at (root d1) comps = file_at (root d) comps) as Hframe.
    { intros c d1 Hw. by eapply open_write_other. }
    destruct (yaml_files self !! p) as [data|].
    + destruct (open_write d p (Yaml data)) as [d1|] eqn:Hw.
      * intros H Hne. rewrite <- (Hframe _ _ Hw) in Hne.
        destruct (IH _ H Hne) as (q & Hq & Hloc). exists q.
        split; [by apply list_elem_of_further|].
        rewrite <- Hloc. symmetry. apply locate_cwd. by eapply open_write_cwd.
      * intros [= _ <-] Hne. done.
    + destruct (open_write d p (Yaml VNone)) as [d1|] eqn:Hw.
      * intros [= _ <-] Hne. by destruct Hne; eapply Hframe.
      * intros [= _ <-] Hne. done.
Qed.

(** In the check mode every model without documentation counts as
    outdated, and nothing but the log changes. *)
Lemma create_loop_check catalog_data names acc w :
  mode w = Check →
  Forall (fun name => is_Some (catalog_data !! name)) names →
  ∃ w', create_loop py_str catalog_data names acc w
          = Ok (if decide (names = []) then acc else true, w') ∧
        frame w w'.
Proof.
  intros Hmode. revert acc w Hmode.
  induction names as [|name names IH]; intros acc w Hmode Hall.
  - exists w. split; [done|apply frame_refl].
  - apply Forall_cons in Hall as [[ai Hai] Hall]. simpl.
    unfold bind at 1, lift. rewrite Hai. simpl.
    unfold bind at 1, _create_new_model_stub_in_memory, bind at 1, get_self.
    rewrite bool_decide_eq_true_2 by done. simpl.
    set (w1 := set_log (log w ++ [Warn_missing_model name]) w).
    destruct (IH true w1 Hmode Hall) as (w' & -> & Hfr).
    exists w'. split; [by case_decide|].
    eapply frame_trans; [apply frame_set_log|done].
Qed.

Lemma set_iter_elem (s : gset string) x :
  (∀ s, set_iter s ≡ₚ elements s) → x ∈ set_iter s ↔ x ∈ s.
Proof. intros Hperm. by rewrite Hperm, elem_of_elements. Qed.

(** C3. Persistence: (a) in the check and drift modes [write] leaves the
    disk as it was, whatever happens; (b) in any mode, a file that [write]
    created, modified or removed lies where a path of the dirty set leads,
    and the mode is update or interactive; the working directory is never
    changed; (c) in the check mode, on a project without documentation
    files and with a fresh writer, [write] returns true for a catalog that
    is not empty and leaves the disk as it was. *)
Theorem persistence_only_when_dirty
    (catalog_data : gmap string value) (w : writer) (d : disk) :
  (∀ s, set_iter s ≡ₚ elements s) →
  (mode w = Check ∨ mode w = Drift →
   (write py_str set_iter catalog_data w d).2 = d) ∧
  (∀ comps,
     file_at (root (write py_str set_iter catalog_data w d).2) comps
       ≠ file_at (root d) comps →
     (mode w = Update ∨ mode w = Interactive) ∧
     ∃ b w' p, reconcile py_str set_iter catalog_data d w = Ok (b, w') ∧
               p ∈ files_to_write w' ∧ locate d p = comps) ∧
  cwd (write py_str set_iter catalog_data w d).2 = cwd d ∧
  (mode w = Check → model_to_file_map w = ∅ →
   _find_schema_files (dbt_project_dir w) d = [] →
   catalog_data ≠ ∅ →
   write py_str set_iter catalog_data w d = (Ok true, d)).
Proof.
  intros Hperm. split_and!.
  - intros Hmode. unfold write.
    destruct (reconcile _ _ _ _ _) as [[b w']|e] eqn:Hrec; [|done].
    apply reconcile_mode in Hrec. unfold persists. rewrite Hrec.
    destruct Hmode as [-> | ->]; done.
  - intros comps. unfold write.
    destruct (reconcile _ _ _ _ _) as [[b w']|e] eqn:Hrec; [|done].
    pose proof (reconcile_mode _ _ _ _ _ Hrec) as Hmode.
    destruct (persists w') eqn:Hpers; [|done].
    destruct (_write_modified_files_to_disk _ w' d) as [r d'] eqn:Hwrite.
    intros Hne. assert (file_at (root d') comps ≠ file_at (root d) comps) as Hne'.
    { by destruct r. }
    split.
    + unfold persists in Hpers. rewrite Hmode in Hpers.
      destruct (mode w); simpl in Hpers; try done; auto.
    + destruct (write_files_changed _ _ _ _ _ _ Hwrite Hne') as (p & Hp & Hloc).
      exists b, w', p. split_and!; try done. by apply set_iter_elem in Hp.
  - unfold write.
    destruct (reconcile _ _ _ _ _) as [[b w']|e]; [|done].
    destruct (persists w'); [|done].
    destruct (_write_modified_files_to_disk _ w' d) as [r d'] eqn:Hwrite.
    apply write_files_cwd in Hwrite. by destruct r.
  - intros Hmode Hmap Hnone Hcat.
    assert (set_iter ∅ = []) as Hempty.
    { apply Permutation_nil_r. by rewrite Hperm, elements_empty. }
    assert (dom catalog_data ≠ ∅) as Hdom.
    { intros Hd. by apply dom_empty_iff_L in Hd. }
    destruct (create_loop_check catalog_data (set_iter (dom catalog_data))
                false w Hmode) as (w' & Hloop & Hfr).
    { apply Forall_forall. intros name Hin.
      apply (set_iter_elem _ _ Hperm) in Hin. by apply elem_of_dom. }
    assert (set_iter (dom catalog_data) ≠ []) as Hnames.
    { intros Hnil. apply Hdom. apply set_eq. intros x.
      rewrite <- (set_iter_elem _ _ Hperm), Hnil. set_solver. }
    assert (reconcile py_str set_iter catalog_data d w = Ok (true, w'))
      as Hrec.
    { unfold reconcile, _load_and_map_existing_yamls, bind at 1, bind at 1,
        get_self. rewrite Hnone. simpl.
      unfold reconcile_models, bind at 1, get_self. rewrite Hmap.
      rewrite dom_empty_L.
      replace (dom catalog_data ∩ ∅) with (∅ : gset string) by set_solver.
      replace (dom catalog_data ∖ ∅) with (dom catalog_data) by set_solver.
      rewrite Hempty.
      simpl. unfold bind at 1, ret.
      rewrite bool_decide_eq_true_2 by done. rewrite Hloop.
      by rewrite decide_False. }
    unfold write. rewrite Hrec. destruct Hfr as (_&_&_&Hm&_).
    unfold persists. by rewrite Hm, Hmode.
Qed.

(** *** New stubs *)

(** The stub of a column, as the specification describes it: its name and
    its AI fields. *)
Definition spec_column_stub (col : value) : option value :=
  match col with
  | VDict ce =>
      match dict_get ce "name", default (VDict []) (dict_get ce "ai_generated") with
      | Some col_name, VDict fields =>
          Some (VDict (foldl (fun e kv => dict_set e kv.1 kv.2)
                         [("name", col_name)] fields))
      | _, _ => None
      end
  | _ => None
  end.

Fixpoint spec_column_stubs (cols : list value) : option (list value) :=
  match cols with
  | [] => Some []
  | col :: rest =>
      match spec_column_stub col, spec_column_stubs rest with
      | Some c, Some cs => Some (c :: cs)
      | _, _ => None
      end
  end.

(** The stub of a model, as the specification describes it: name,
    description, each column with its AI fields. *)
Definition spec_stub (model_name : string) (ai_model_data : value)
  : option (list (string * value)) :=
  match ai_model_data with
  | VDict e =>
      match dict_get e "model_description", default (VList []) (dict_get e "columns") with
      | Some description, VList cols =>
          match spec_column_stubs cols with
          | Some stubs =>
              Some [("name", VStr model_name); ("description", description);
                    ("columns", VList stubs)]
          | None => None
          end
      | _, _ => None
      end
  | _ => None
  end.

Lemma process_update_applies e key v target w :
  mode w = Update →
  _process_update py_str e key v target w = Ok ((true, dict_set e key v), w).
Proof. intros Hm. unfold _process_update, bind, get_self. by rewrite Hm. Qed.

Lemma stub_fields_update target fields e w :
  mode w = Update →
  stub_fields py_str target fields e w
    = Ok (foldl (fun e kv => dict_set e kv.1 kv.2) e fields, w).
Proof.
  intros Hm. revert e. induction fields as [|[k v] fields IH]; intros e; [done|].
  simpl. unfold bind. rewrite process_update_applies by done. apply IH.
Qed.

Lemma stub_columns_update model_name cols stubs w :
  mode w = Update → spec_column_stubs cols = Some stubs →
  stub_columns py_str model_name cols w = Ok (stubs, w).
Proof.
  intros Hm. revert stubs. induction cols as [|col cols IH]; intros stubs; simpl.
  - by intros [= <-].
  - destruct (spec_column_stub col) as [c|] eqn:Hc; [|done].
    destruct (spec_column_stubs cols) as [cs|]; [|done]. intros [= <-].
    unfold spec_column_stub in Hc. destruct col as [| | | | |ce]; try done.
    destruct (dict_get ce "name") as [col_name|] eqn:Hname; [|done].
    destruct (default (VDict []) (dict_get ce "ai_generated"))
      as [| | | | |fields] eqn:Hgen; try done.
    injection Hc as <-.
    unfold bind at 1, lift. simpl. rewrite Hname.
    unfold bind at 1. simpl. rewrite Hgen. simpl.
    unfold bind at 1. simpl.
    unfold bind at 1. rewrite stub_fields_update by done.
    unfold bind at 1. by rewrite (IH cs).
Qed.

Lemma build_stub_update model_name ai stub w :
  mode w = Update → spec_stub model_name ai = Some stub →
  build_stub py_str model_name ai w = Ok (stub, w).
Proof.
  intros Hm. unfold spec_stub. destruct ai as [| | | | |e]; try done.
  destruct (dict_get e "model_description") as [description|] eqn:Hd; [|done].
  destruct (default (VList []) (dict_get e "columns")) as [| | | |cols|] eqn:Hc;
    try done.
  destruct (spec_column_stubs cols) as [stubs|] eqn:Hs; [|done]. intros [= <-].
  unfold build_stub, bind at 1, lift. simpl. rewrite Hd.
  unfold bind at 1. rewrite process_update_applies by done.
  unfold bind at 1. simpl. rewrite Hc.
  unfold bind at 1. simpl.
  unfold bind at 1. by rewrite (stub_columns_update _ _ stubs).
Qed.

(** Where [_create_new_model_stub_in_memory] puts a stub that it can build. *)
Lemma create_stub_placed model_name ai stub sql_path w data' :
  mode w = Update →
  spec_stub model_name ai = Some stub →
  py_get ai "original_file_path" VNone = Ok (VStr sql_path) →
  sql_path ≠ "" →
  match yaml_files w !! stub_path sql_path with
  | Some data => append_stub data (VDict stub) = Ok data'
  | None => new_document (VDict stub) = data'
  end →
  _create_new_model_stub_in_memory py_str model_name ai w
  = Ok (true, set_files_to_write ({[stub_path sql_path]} ∪ files_to_write w)
                (set_yaml_files (<[stub_path sql_path := data']> (yaml_files w)) w)).
Proof.
  intros Hm Hstub Hpath Hne Hdata.
  unfold _create_new_model_stub_in_memory, bind at 1, get_self.
  rewrite Hm. simpl.
  unfold bind at 1. rewrite (build_stub_update _ _ stub) by done.
  unfold place_stub, bind at 1, lift. rewrite Hpath. simpl.
  rewrite bool_decide_eq_false_2 by done. simpl.
  unfold bind at 1, get_self. unfold bind at 1, lift.
  destruct (yaml_files w !! stub_path sql_path) as [data|]; rewrite Hdata; done.
Qed.

(** The document of the scenario of the specification. *)
Definition orders_catalog : gmap string value :=
  {[ "orders" :=
       VDict [("model_description", VStr "Order facts");
              ("original_file_path", VStr "models/orders.sql");
              ("columns",
               VList [VDict [("name", VStr "id");
                             ("ai_generated",
                              VDict [("description", VStr "PK")])]])] ]}.

Definition orders_stub : list (string * value) :=
  [("name", VStr "orders"); ("description", VStr "Order facts");
   ("columns", VList [VDict [("name", VStr "id"); ("description", VStr "PK")]])].

Definition orders_document : value :=
  VDict [("version", VInt 2); ("models", VList [VDict orders_stub])].

(** Where the code puts a stub, by the path as the code spells it: in the
    update mode, a model whose stub can be built and whose
    [original_file_path] is a non-empty string is placed under the path
    [schema.yml] of the directory of that path; when no document is loaded
    under this very path, a new document [{version: 2, models: [stub]}] is
    registered there; when one is, the stub is appended to its [models]
    list (a list that is created if the document has none).  The path
    enters the dirty set and the model counts as outdated.  On a project in
    which discovery finds no file, the catalog of the scenario makes [write]
    create the file at the path [models/schema.yml]. *)
Lemma stub_placed_under_path
    (model_name : string) (ai : value) (stub : list (string * value))
    (sql_path : string) (w : writer) :
  mode w = Update →
  spec_stub model_name ai = Some stub →
  py_get ai "original_file_path" VNone = Ok (VStr sql_path) →
  sql_path ≠ "" →
  let target := os_path_join (os_path_dirname sql_path) "schema.yml" in
  let placed data' :=
    _create_new_model_stub_in_memory py_str model_name ai w
    = Ok (true, set_files_to_write ({[target]} ∪ files_to_write w)
                  (set_yaml_files (<[target := data']> (yaml_files w)) w)) in
  (yaml_files w !! target = None →
   placed (VDict [("version", VInt 2); ("models", VList [VDict stub])])) ∧
  (∀ doc nodes, yaml_files w !! target = Some (VDict doc) →
     dict_get doc "models" = Some (VList nodes) →
     placed (VDict (dict_set doc "models" (VList (nodes ++ [VDict stub]))))) ∧
  (∀ doc, yaml_files w !! target = Some (VDict doc) →
     dict_get doc "models" = None →
     placed (VDict (dict_set doc "models" (VList [VDict stub])))) ∧
  ((∀ s, set_iter s ≡ₚ elements s) →
   ∀ dir input d d',
     _find_schema_files dir d = [] →
     open_write d "models/schema.yml" (Yaml orders_document) = Some d' →
     write py_str set_iter orders_catalog (new_writer dir Update input) d
     = (Ok true, d')).
Proof.
  intros Hm Hstub Hpath Hne target placed.
  assert (∀ data',
    match yaml_files w !! target with
    | Some data => append_stub data (VDict stub) = Ok data'
    | None => new_document (VDict stub) = data'
    end → placed data') as Hplace.
  { intros data' Hdata. by apply (create_stub_placed _ _ stub). }
  split_and!.
  - intros Hnone. apply Hplace. by rewrite Hnone.
  - intros doc nodes Hdoc Hmodels. apply Hplace. rewrite Hdoc. simpl.
    by rewrite Hmodels.
  - intros doc Hdoc Hmodels. apply Hplace. rewrite Hdoc. simpl.
    by rewrite Hmodels.
  - clear. intros Hperm dir input d d' Hnone Hwrite.
    assert (∀ x : string, set_iter {[x]} = [x]) as Hsingle.
    { intros x. apply Permutation_singleton_r.
      by rewrite Hperm, elements_singleton. }
    assert (set_iter ∅ = []) as Hempty.
    { apply Permutation_nil_r. by rewrite Hperm, elements_empty. }
    set (w0 := new_writer dir Update input).
    set (ai := VDict [("model_description", VStr "Order facts");
                      ("original_file_path", VStr "models/orders.sql");
                      ("columns",
                       VList [VDict [("name", VStr "id");
                                     ("ai_generated",
                                      VDict [("description", VStr "PK")])]])]).
    set (w1 := set_files_to_write ({["models/schema.yml"]} ∪ files_to_write w0)
                 (set_yaml_files
                    (<["models/schema.yml" := orders_document]> (yaml_files w0))
                    w0)).
    assert (_create_new_model_stub_in_memory py_str "orders" ai w0
            = Ok (true, w1)) as Hcreate.
    { by apply (create_stub_placed "orders" ai orders_stub "models/orders.sql"). }
    assert (reconcile py_str set_iter orders_catalog d w0 = Ok (true, w1))
      as Hrec.
    { unfold reconcile, bind at 1, _load_and_map_existing_yamls, bind at 1,
        get_self.
      change (dbt_project_dir w0) with dir. rewrite Hnone.
      change (load_files d [] w0) with (Ok (tt, w0) : result (unit * writer)).
      unfold reconcile_models, bind at 1, get_self.
      change (model_to_file_map w0) with (∅ : gmap string string).
      rewrite dom_empty_L.
      replace (dom orders_catalog ∩ ∅) with (∅ : gset string) by set_solver.
      replace (dom orders_catalog ∖ ∅) with (dom orders_catalog) by set_solver.
      unfold orders_catalog. rewrite dom_singleton_L, Hempty, Hsingle.
      fold ai. rewrite bool_decide_eq_true_2 by set_solver.
      cbn [update_loop create_loop]. unfold bind, ret, lift.
      rewrite lookup_singleton_eq. cbn [lookup_or_KeyError].
      by rewrite Hcreate. }
    unfold write. rewrite Hrec.
    assert (files_to_write w1 = {["models/schema.yml"]}) as Hdirty.
    { change (files_to_write w1) with ({["models/schema.yml"]} ∪ ∅ : gset string).
      set_solver. }
    assert (persists w1 = true) as ->.
    { unfold persists. rewrite Hdirty.
      change (mode w1) with Update.
      rewrite !bool_decide_eq_false_2; [done|set_solver|done|done]. }
    unfold _write_modified_files_to_disk. rewrite Hdirty, Hsingle.
    cbn [write_files].
    change (yaml_files w1)
      with (<["models/schema.yml" := orders_document]> (∅ : gmap string value)).
    rewrite lookup_insert_eq. by rewrite Hwrite.
Qed.

End Specs.

(** *** Where a stub goes *)

(** The paths of a run are spelled alike: the stub path, which the code
    builds from [original_file_path] alone, and the same path below the
    project directory lead to one place, and a document that is loaded for
    this place is loaded under the stub path. *)
Definition stub_aligned (d : disk) (w : writer) (sql_path : string) : Prop :=
  locate d (os_path_join (dbt_project_dir w) (stub_path sql_path))
    = locate d (stub_path sql_path) ∧
  set_Forall (fun p => locate d p = locate d (stub_path sql_path) →
                       p = stub_path sql_path)
    (dom (yaml_files w)).

Section Placement.

Variable py_str : value → string.
Variable set_iter : gset string → list string.

(** C8 (amended). In the update mode, a model that is not in the index, whose
    stub can be built (the stub has the name of the model, the description
    of the catalog and one column per column of the catalog, with its name
    and its AI fields) and whose [original_file_path] is a non-empty string,
    is placed in the file [schema.yml] of the directory of the model's
    source file, in the project: when no loaded document lives there (a
    document of a file of another name in that directory does not count), a
    new document [{version: 2, models: [stub]}] is registered for this
    file; when one does, the stub is appended to its [models] list (a list
    that is created if the document has none).  The path of the file
    enters the dirty set and the model counts as outdated.  This is stated
    for runs whose paths are spelled alike ([stub_aligned]).  In
    particular, on a project in which discovery finds no file, the catalog
    of the scenario makes [write] create [models/schema.yml] in the project
    (when the project has a directory [models]) with the document of the
    scenario, and return true. *)
Theorem stub_placement
    (model_name : string) (ai : value) (stub : list (string * value))
    (sql_path : string) (w : writer) (d : disk) :
  mode w = Update →
  spec_stub model_name ai = Some stub →
  py_get ai "original_file_path" VNone = Ok (VStr sql_path) →
  sql_path ≠ "" →
  stub_aligned d w sql_path →
  let home :=
    locate d (os_path_join (dbt_project_dir w)
                (os_path_join (os_path_dirname sql_path) "schema.yml")) in
  let placed p data' :=
    locate d p = home ∧
    _create_new_model_stub_in_memory py_str model_name ai w
    = Ok (true, set_files_to_write ({[p]} ∪ files_to_write w)
                  (set_yaml_files (<[p := data']> (yaml_files w)) w)) in
  ((∀ p, is_Some (yaml_files w !! p) → locate d p ≠ home) →
   ∃ p, placed p (VDict [("version", VInt 2); ("models", VList [VDict stub])])) ∧
  (∀ p doc nodes, yaml_files w !! p = Some (VDict doc) → locate d p = home →
     dict_get doc "models" = Some (VList nodes) →
     placed p (VDict (dict_set doc "models" (VList (nodes ++ [VDict stub]))))) ∧
  (∀ p doc, yaml_files w !! p = Some (VDict doc) → locate d p = home →
     dict_get doc "models" = None →
     placed p (VDict (dict_set doc "models" (VList [VDict stub])))) ∧
  ((∀ s, set_iter s ≡ₚ elements s) →
   ∀ dir input d0 d',
     locate d0 (os_path_join dir "models/schema.yml")
       = locate d0 "models/schema.yml" →
     _find_schema_files dir d0 = [] →
     open_write d0 (os_path_join dir "models/schema.yml")
       (Yaml orders_document) = Some d' →
     write py_str set_iter orders_catalog (new_writer dir Update input) d0
     = (Ok true, d')).
Proof.
  intros Hm Hstub Hpath Hne [Hhome Hkeys] home placed.
  destruct (stub_placed_under_path py_str set_iter model_name ai stub sql_path w
              Hm Hstub Hpath Hne) as (Hnew & Happ & Hfirst & Hscen).
  fold (stub_path sql_path) in *.
  assert (∀ p, is_Some (yaml_files w !! p) → locate d p = home →
               p = stub_path sql_path) as Hsame.
  { intros p Hp Hloc. apply Hkeys; [by apply elem_of_dom|].
    by rewrite Hloc. }
  split_and!.
  - intros Hnone. exists (stub_path sql_path). split; [done|].
    apply Hnew. destruct (yaml_files w !! stub_path sql_path) eqn:Hl; [|done].
    exfalso. by apply (Hnone (stub_path sql_path)).
  - intros p doc nodes Hp Hloc Hmodels.
    assert (p = stub_path sql_path) as -> by (apply Hsame; [by rewrite Hp|done]).
    split; [done|]. by eapply Happ.
  - intros p doc Hp Hloc Hmodels.
    assert (p = stub_path sql_path) as -> by (apply Hsame; [by rewrite Hp|done]).
    split; [done|]. by eapply Hfirst.
  - intros Hperm dir input d0 d' Hloc Hnone Hwrite.
    apply (Hscen Hperm dir input d0 d' Hnone).
    unfold open_write in *. by rewrite <- Hloc.
Qed.

End Placement.


(** *** Scenarios

    [str] is needed by the interactive mode only; the scenarios use it on
    strings, where it is the identity.  The sets of the scenarios are gone
    through in the order of [elements]. *)

Definition str_of (v : value) : string :=
  match v with
  | VStr s => s
  | _ => "?"
  end.

Lemma elements_order (s : gset string) : elements s ≡ₚ elements s.
Proof. reflexivity. Defined.

Lemma str_of_truthy v : truthy v = true → str_of v ≠ "".
Proof.
  destruct v; simpl; try done.
  by intros ?%negb_true_iff%bool_decide_eq_false.
Qed.

(** The writer once the documentation files of a disk are loaded. *)
Definition loaded (dir : string) (m : writer_mode) (input : list string)
    (d : disk) : writer :=
  match _load_and_map_existing_yamls d (new_writer dir m input) with
  | Ok (_, w) => w
  | Raise _ => new_writer dir m input
  end.

(** The writer once the models of a catalog are reconciled. *)
Definition reconciled (catalog_data : gmap string value) (w : writer) : writer :=
  match reconcile_models str_of elements catalog_data w with
  | Ok (_, w') => w'
  | Raise _ => w
  end.

(** A project with one documentation file, [models/schema.yml]: the model
    [orders] has a description, its column [id] has an empty one and its
    column [status] a written one; [raw] is a source. *)
Definition shop_orders : list (string * value) :=
  [("name", VStr "orders");
   ("description", VStr "One row per order");
   ("columns",
    VList [VDict [("name", VStr "id"); ("description", VStr "")];
           VDict [("name", VStr "status");
                  ("description", VStr "Open, paid or sent")]])].

Definition shop_document : list (string * value) :=
  [("version", VInt 2);
   ("models", VList [VDict shop_orders]);
   ("sources", VList [VDict [("name", VStr "raw")]])].

Definition shop_disk : disk :=
  Disk (Dir [("dbt_project.yml", File (Yaml (VDict [("name", VStr "shop")])));
             ("models",
              Dir [("orders.sql", File NotYaml);
                   ("schema.yml", File (Yaml (VDict shop_document)))])])
       [].

(** A catalog for it: suggestions for [orders] and for its two columns, and
    an entry for [raw]. *)
Definition shop_catalog : gmap string value :=
  <[ "orders" :=
       VDict [("model_description", VStr "Order facts");
              ("original_file_path", VStr "models/orders.sql");
              ("columns",
               VList [VDict [("name", VStr "id");
                             ("ai_generated",
                              VDict [("description", VStr "PK")])];
                      VDict [("name", VStr "status");
                             ("ai_generated",
                              VDict [("description", VStr "State of the order")])]])] ]>
  {[ "raw" :=
       VDict [("model_description", VStr "Raw orders");
              ("columns", VList [])] ]}.

Example shop_discovery :
  _find_schema_files "" shop_disk = ["models/schema.yml"].
Proof. vm_compute. reflexivity. Qed.

Example shop_loaded :
  yaml_files (loaded "" Update [] shop_disk) !! "models/schema.yml"
    = Some (VDict shop_document) ∧
  model_to_file_map (loaded "" Update [] shop_disk) !! "orders"
    = Some "models/schema.yml" ∧
  model_to_file_map (loaded "" Update [] shop_disk) !! "raw"
    = Some "models/schema.yml".
Proof. split_and!; vm_compute; reflexivity. Qed.

(** What the update mode makes of [orders]: the empty description of [id]
    is filled, the two written descriptions stay. *)
Example shop_update :
  reconcile_models str_of elements shop_catalog (loaded "" Update [] shop_disk)
    = Ok (true, reconciled shop_catalog (loaded "" Update [] shop_disk)) ∧
  yaml_files (reconciled shop_catalog (loaded "" Update [] shop_disk))
    !! "models/schema.yml"
  = Some (VDict
      [("version", VInt 2);
       ("models",
        VList [VDict
          [("name", VStr "orders");
           ("description", VStr "One row per order");
           ("columns",
            VList [VDict [("name", VStr "id"); ("description", VStr "PK")];
                   VDict [("name", VStr "status");
                          ("description", VStr "Open, paid or sent")]])]]);
       ("sources", VList [VDict [("name", VStr "raw")]])]).
Proof. split; vm_compute; reflexivity. Qed.

(** Witness of [no_overwrite_of_descriptions]: the description of [orders]
    in the shop project, under the update mode. *)
Lemma no_overwrite_of_descriptions_witness :
  ∃ doc', yaml_files (reconciled shop_catalog (loaded "" Update [] shop_disk))
            !! "models/schema.yml" = Some (VDict doc') ∧
    ∀ i node, models_of shop_document !! i = Some (VDict node) →
      ∃ node', models_of doc' !! i = Some (VDict node') ∧
        (∀ v, dict_get node "description" = Some v → truthy v = true →
              dict_get node' "description" = Some v) ∧
        ∀ j col, columns_of node !! j = Some (VDict col) →
          ∃ col', columns_of node' !! j = Some (VDict col') ∧
            ∀ k v, dict_get col k = Some v → truthy v = true →
                   dict_get col' k = Some v.
Proof.
  apply (no_overwrite_of_descriptions str_of elements shop_catalog
           (loaded "" Update [] shop_disk) true).
  - vm_compute. reflexivity.
  - vm_compute. reflexivity.
Defined.

(** A project with a directory [models] and no documentation file. *)
Definition bare_disk : disk :=
  Disk (Dir [("dbt_project.yml", File (Yaml (VDict [("name", VStr "shop")])));
             ("models", Dir [("orders.sql", File NotYaml)])])
       [].

Lemma orders_catalog_nonempty : orders_catalog ≠ ∅.
Proof. apply insert_non_empty. Defined.

(** Witness of [persistence_only_when_dirty]: the check mode on a project
    without documentation. *)
Lemma persistence_only_when_dirty_witness :
  write str_of elements orders_catalog (new_writer "" Check []) bare_disk
  = (Ok true, bare_disk).
Proof.
  refine (proj2 (proj2 (proj2
    (persistence_only_when_dirty str_of elements orders_catalog
       (new_writer "" Check []) bare_disk elements_order))) _ _ _ _).
  - reflexivity.
  - reflexivity.
  - vm_compute. reflexivity.
  - exact orders_catalog_nonempty.
Defined.

(** The same catalog in the update mode: the scenario of the specification. *)
Definition bare_disk_documented : disk :=
  Disk (Dir [("dbt_project.yml", File (Yaml (VDict [("name", VStr "shop")])));
             ("models", Dir [("orders.sql", File NotYaml);
                             ("schema.yml", File (Yaml orders_document))])])
       [].

Definition customers_entry : value :=
  VDict [("model_description", VStr "Customer facts");
         ("original_file_path", VStr "models/customers.sql");
         ("columns", VList [])].

Definition customers_stub : list (string * value) :=
  [("name", VStr "customers"); ("description", VStr "Customer facts");
   ("columns", VList [])].

(** Witness of [stub_placement]: the scenario of the specification, and the
    stub of [customers] appended to the loaded [models/schema.yml] of the
    shop project. *)
Lemma stub_placement_witness :
  write str_of elements orders_catalog (new_writer "" Update []) bare_disk
    = (Ok true, bare_disk_documented) ∧
  _create_new_model_stub_in_memory str_of "customers" customers_entry
    (loaded "" Update [] shop_disk)
  = Ok (true,
        set_files_to_write
          ({["models/schema.yml"]} ∪ files_to_write (loaded "" Update [] shop_disk))
          (set_yaml_files
             (<["models/schema.yml" :=
                  VDict (dict_set shop_document "models"
                           (VList ([VDict shop_orders] ++ [VDict customers_stub])))]>
                (yaml_files (loaded "" Update [] shop_disk)))
             (loaded "" Update [] shop_disk))).
Proof.
  split.
  - refine (proj2 (proj2 (proj2
      (stub_placement str_of elements "orders"
         (VDict [("model_description", VStr "Order facts");
                 ("original_file_path", VStr "models/orders.sql");
                 ("columns",
                  VList [VDict [("name", VStr "id");
                                ("ai_generated",
                                 VDict [("description", VStr "PK")])]])])
         orders_stub "models/orders.sql" (new_writer "" Update []) bare_disk
         _ _ _ _ _)))
      elements_order "" [] bare_disk bare_disk_documented _ _ _).
    + reflexivity.
    + reflexivity.
    + reflexivity.
    + discriminate.
    + split; [reflexivity|]. apply (bool_decide_unpack _). vm_compute. exact I.
    + reflexivity.
    + vm_compute. reflexivity.
    + vm_compute. reflexivity.
  - refine (proj2 (proj1 (proj2
      (stub_placement str_of elements "customers" customers_entry
         customers_stub "models/customers.sql" (loaded "" Update [] shop_disk)
         shop_disk _ _ _ _ _))
      "models/schema.yml" shop_document [VDict shop_orders] _ _ _)).
    + vm_compute. reflexivity.
    + reflexivity.
    + reflexivity.
    + discriminate.
    + split; [vm_compute; reflexivity|].
      apply (bool_decide_unpack _). vm_compute. exact I.
    + vm_compute. reflexivity.
    + vm_compute. reflexivity.
    + reflexivity.
Defined.

(** C8, counterexample: [models/customers.yml] is loaded, it lies in the
    directory of [models/orders.sql], and yet the stub of [orders] is not
    appended to its document: a new document is registered under
    [models/schema.yml]. *)
Definition customers_document : value :=
  VDict [("version", VInt 2);
         ("models", VList [VDict [("name", VStr "customers");
                                  ("description", VStr "One row per customer")]])].

Definition customers_disk : disk :=
  Disk (Dir [("models", Dir [("orders.sql", File NotYaml);
                             ("customers.yml", File (Yaml customers_document))])])
       [].

Lemma stub_placement_counterexample :
  _find_schema_files "" customers_disk = ["models/customers.yml"] ∧
  os_path_dirname "models/customers.yml" = os_path_dirname "models/orders.sql" ∧
  yaml_files (loaded "" Update [] customers_disk) !! "models/customers.yml"
    = Some customers_document ∧
  reconcile_models str_of elements orders_catalog
    (loaded "" Update [] customers_disk)
    = Ok (true, reconciled orders_catalog (loaded "" Update [] customers_disk)) ∧
  yaml_files (reconciled orders_catalog (loaded "" Update [] customers_disk))
    !! "models/customers.yml" = Some customers_document ∧
  yaml_files (reconciled orders_catalog (loaded "" Update [] customers_disk))
    !! "models/schema.yml" = Some orders_document ∧
  files_to_write (reconciled orders_catalog (loaded "" Update [] customers_disk))
    = {["models/schema.yml"]}.
Proof. split_and!; vm_compute; reflexivity. Qed.

Lemma catalog_ok_empty : catalog_ok ∅.
Proof. intros name ai H. by rewrite lookup_empty in H. Qed.

Lemma catalog_ok_insert name ai catalog_data :
  candidates_ok ai → catalog_ok catalog_data →
  catalog_ok (<[name := ai]> catalog_data).
Proof.
  intros Hai Hrest name' ai' H. apply lookup_insert_Some in H as [[_ <-]|[_ H]];
    [done|by eapply Hrest].
Qed.

Lemma shop_catalog_ok : catalog_ok shop_catalog.
Proof.
  apply catalog_ok_insert; [|apply catalog_ok_insert; [|apply catalog_ok_empty]].
  - repeat constructor.
  - constructor.
Qed.

(** A catalog with a drift verdict for the column [status] of [orders]. *)
Definition drift_catalog : gmap string value :=
  {[ "orders" :=
       VDict [("columns",
               VList [VDict [("name", VStr "status");
                             ("drift_status", VStr "DRIFT");
                             ("ai_generated",
                              VDict [("description", VStr "State of the order")])]])] ]}.


(** A catalog that suggests a description and an empty list of tags for the
    column [id] of [orders]. *)
Definition tags_catalog : gmap string value :=
  {[ "orders" :=
       VDict [("model_description", VStr "Order facts");
              ("original_file_path", VStr "models/orders.sql");
              ("columns",
               VList [VDict [("name", VStr "id");
                             ("ai_generated",
                              VDict [("description", VStr "PK");
                                     ("tags", VList [])])]])] ]}.

Definition shop_disk_tagged : disk :=
  Disk (Dir [("dbt_project.yml", File (Yaml (VDict [("name", VStr "shop")])));
             ("models",
              Dir [("orders.sql", File NotYaml);
                   ("schema.yml",
                    File (Yaml (VDict
                      [("version", VInt 2);
                       ("models",
                        VList [VDict
                          [("name", VStr "orders");
                           ("description", VStr "One row per order");
                           ("columns",
                            VList [VDict [("name", VStr "id");
                                          ("description", VStr "PK");
                                          ("tags", VList [])];
                                   VDict [("name", VStr "status");
                                          ("description",
                                           VStr "Open, paid or sent")]])]]);
                       ("sources", VList [VDict [("name", VStr "raw")]])])))])])
       [].

(** C1, the failing input: two runs in the update mode with the same
    catalog.  The first run fills the description and the tags of [id] and
    writes the file.  The second run finds the tags empty, writes them
    again, marks the file dirty, writes it to disk once more (with the
    content it has) and returns true. *)
Theorem second_run_is_not_silent :
  write str_of elements tags_catalog (new_writer "" Update []) shop_disk
    = (Ok true, shop_disk_tagged) ∧
  write str_of elements tags_catalog (new_writer "" Update []) shop_disk_tagged
    = (Ok true, shop_disk_tagged) ∧
  reconcile str_of elements tags_catalog shop_disk_tagged
    (new_writer "" Update [])
    = Ok (true, reconciled tags_catalog (loaded "" Update [] shop_disk_tagged)) ∧
  files_to_write (reconciled tags_catalog (loaded "" Update [] shop_disk_tagged))
    = {["models/schema.yml"]}.
Proof. split_and!; vm_compute; reflexivity. Qed.

(** The project at [/shop], which is also the working directory, with a
    documentation file for [customers]; the catalog has [customers], which
    is documented, and [orders], which is not. *)
Definition abs_disk (doc : value) : disk :=
  Disk (Dir [("shop",
              Dir [("models", Dir [("orders.sql", File NotYaml);
                                   ("customers.sql", File NotYaml);
                                   ("schema.yml", File (Yaml doc))])])])
       ["shop"].

Definition two_models_catalog : gmap string value :=
  <[ "customers" :=
       VDict [("model_description", VStr "Customer facts");
              ("original_file_path", VStr "models/customers.sql");
              ("columns", VList [])] ]>
  {[ "orders" :=
       VDict [("model_description", VStr "Order facts");
              ("original_file_path", VStr "models/orders.sql");
              ("columns", VList [])] ]}.

Definition only_orders : value :=
  VDict [("version", VInt 2);
         ("models", VList [VDict [("name", VStr "orders");
                                  ("description", VStr "Order facts");
                                  ("columns", VList [])]])].

Definition only_customers : value :=
  VDict [("version", VInt 2);
         ("models", VList [VDict [("name", VStr "customers");
                                  ("description", VStr "Customer facts");
                                  ("columns", VList [])]])].

(** With an absolute project directory the paths of the loaded files start
    with it, the path of a stub does not: the stub of [orders] is not
    appended to the loaded document, and the new document is written over
    the loaded file, whose content is lost; the next run does the same to
    [orders], and the runs never settle. *)
Example runs_never_settle :
  write str_of elements two_models_catalog (new_writer "/shop" Update [])
    (abs_disk customers_document) = (Ok true, abs_disk only_orders) ∧
  write str_of elements two_models_catalog (new_writer "/shop" Update [])
    (abs_disk only_orders) = (Ok true, abs_disk only_customers) ∧
  write str_of elements two_models_catalog (new_writer "/shop" Update [])
    (abs_disk only_customers) = (Ok true, abs_disk only_orders).
Proof. split_and!; vm_compute; reflexivity. Qed.

(** The catalog knows one model, [customers], which the shop project does
    not document. *)
Definition customers_catalog : gmap string value :=
  {[ "customers" :=
       VDict [("model_description", VStr "Customer facts");
              ("original_file_path", VStr "models/customers.sql");
              ("columns", VList [])] ]}.

Definition shop_disk_overwritten : disk :=
  Disk (Dir [("dbt_project.yml", File (Yaml (VDict [("name", VStr "shop")])));
             ("models",
              Dir [("orders.sql", File NotYaml);
                   ("schema.yml", File (Yaml only_customers))])])
       [].

(** C2, the failing input: the shop project with the project directory
    [.], in the update mode (and in the interactive mode, the suggestion
    accepted).  The documentation file is loaded under the path
    [./models/schema.yml]; the model [orders] in it has the description
    [One row per order].  The path of the stub of [customers] is built
    without the project directory, [models/schema.yml]: no document is
    loaded under this path, a document that holds the stub only is
    registered there, and [write] puts it into the file that documents
    [orders].  The document in memory still has the description; the file
    on disk has lost it, with everything else it held. *)
Theorem descriptions_are_lost_on_disk :
  _find_schema_files "." shop_disk = ["./models/schema.yml"] ∧
  open_read shop_disk "./models/schema.yml" = Ok (Yaml (VDict shop_document)) ∧
  dict_get shop_orders "description" = Some (VStr "One row per order") ∧
  reconcile str_of elements customers_catalog shop_disk (new_writer "." Update [])
    = Ok (true, reconciled customers_catalog (loaded "." Update [] shop_disk)) ∧
  yaml_files (reconciled customers_catalog (loaded "." Update [] shop_disk))
    !! "./models/schema.yml" = Some (VDict shop_document) ∧
  yaml_files (reconciled customers_catalog (loaded "." Update [] shop_disk))
    !! "models/schema.yml" = Some only_customers ∧
  files_to_write (reconciled customers_catalog (loaded "." Update [] shop_disk))
    = {["models/schema.yml"]} ∧
  write str_of elements customers_catalog (new_writer "." Update []) shop_disk
    = (Ok true, shop_disk_overwritten) ∧
  open_read shop_disk_overwritten "./models/schema.yml"
    = Ok (Yaml only_customers) ∧
  write str_of elements customers_catalog (new_writer "." Interactive [""])
    shop_disk
    = (Ok true, shop_disk_overwritten).
Proof. split_and!; vm_compute; reflexivity. Qed.

(** [raw] is indexed from [sources]: it is neither updated nor counted. *)
Example raw_source_is_skipped :
  write str_of elements
    {[ "raw" := VDict [("model_description", VStr "Raw orders");
                       ("columns", VList [])] ]}
    (new_writer "" Update []) shop_disk = (Ok false, shop_disk) ∧
  models_without "raw" shop_document.
Proof.
  split; [vm_compute; reflexivity|].
  unfold models_without. simpl. repeat constructor.
  eexists. split; [reflexivity|]. simpl. discriminate.
Qed.

(** A file that does not parse stops the run; a model without a source path
    does not. *)
Definition broken_disk : disk :=
  Disk (Dir [("models",
              Dir [("orders.sql", File NotYaml);
                   ("schema.yml", File NotYaml)])])
       [].

Definition pathless_catalog : gmap string value :=
  <[ "customers" :=
       VDict [("model_description", VStr "Customer facts");
              ("columns", VList [])] ]>
  orders_catalog.

Example errors_scenario :
  write str_of elements orders_catalog (new_writer "" Update []) broken_disk
    = (Raise WriterError, broken_disk) ∧
  write str_of elements pathless_catalog (new_writer "" Update []) bare_disk
    = (Ok true, bare_disk_documented) ∧
  log (reconciled pathless_catalog (loaded "" Update [] bare_disk))
    = [Error_no_path "customers"].
Proof. split_and!; vm_compute; reflexivity. Qed.

End WriterFacts.

(** * The graph that [generate_graph] builds *)

Module GraphFacts.
Import Lineage LineageFacts.

#[local] Open Scope list_scope.

(** The [_add_node] and [_add_edge] calls of steps 1 and 2 of
    [generate_graph], in the order in which they are made on each
    container. *)
Definition fk_nodes (k : fk) : list (string * string) :=
  [(source_table k, "db"); (target_table k, "db")].

Definition dep_style (dep : string) : string :=
  if str_contains "." dep then "source" else "box".

Definition model_nodes (m : dbt_model) : list (string * string) :=
  (name m, "box") :: ((fun dep => (dep, dep_style dep)) <$> dependencies m).

Definition node_calls (db_fks : list fk) (dbt_models : list dbt_model)
  : list (string * string) :=
  (db_fks ≫= fk_nodes) ++ (dbt_models ≫= model_nodes).

Definition fk_edge (k : fk) : string * string * string :=
  (source_table k, target_table k, "FK").

Definition model_edges (m : dbt_model) : list (string * string * string) :=
  (fun dep => (dep, name m, "")) <$> dependencies m.

Definition edge_calls (db_fks : list fk) (dbt_models : list dbt_model)
  : list (string * string * string) :=
  (fk_edge <$> db_fks) ++ (dbt_models ≫= model_edges).

(** What a name is in the inputs. *)
Definition is_model (dbt_models : list dbt_model) (n : string) : Prop :=
  ∃ m, m ∈ dbt_models ∧
       (name m = n ∨ (n ∈ dependencies m ∧ str_contains "." n = false)).

Definition is_source (dbt_models : list dbt_model) (n : string) : Prop :=
  ∃ m, m ∈ dbt_models ∧ n ∈ dependencies m ∧ str_contains "." n = true.

Definition is_table (db_fks : list fk) (n : string) : Prop :=
  ∃ k, k ∈ db_fks ∧ (source_table k = n ∨ target_table k = n).

Lemma nodes_add_edge f t l g : nodes (_add_edge f t l g) = nodes g.
Proof. done. Qed.

Lemma edges_add_node n s g : edges (_add_node n s g) = edges g.
Proof. unfold _add_node. by case_decide. Qed.

Lemma nodes_add_node_congr n s g1 g2 :
  nodes g1 = nodes g2 → nodes (_add_node n s g1) = nodes (_add_node n s g2).
Proof. intros H. unfold _add_node. rewrite H. by case_decide; simpl; rewrite ?H. Qed.

Lemma edges_add_edge_congr f t l g1 g2 :
  edges g1 = edges g2 → edges (_add_edge f t l g1) = edges (_add_edge f t l g2).
Proof. intros H. unfold _add_edge. simpl. by rewrite H. Qed.

Lemma add_nodes_congr calls g1 g2 :
  nodes g1 = nodes g2 → nodes (add_nodes calls g1) = nodes (add_nodes calls g2).
Proof.
  revert g1 g2. induction calls as [|c calls IH]; intros g1 g2 H; [done|].
  simpl. apply IH. by apply nodes_add_node_congr.
Qed.

Lemma add_edges_congr calls g1 g2 :
  edges g1 = edges g2 → edges (add_edges calls g1) = edges (add_edges calls g2).
Proof.
  revert g1 g2. induction calls as [|c calls IH]; intros g1 g2 H; [done|].
  simpl. apply IH. by apply edges_add_edge_congr.
Qed.

Lemma add_nodes_app c1 c2 g : add_nodes (c1 ++ c2) g = add_nodes c2 (add_nodes c1 g).
Proof. unfold add_nodes. by rewrite foldl_app. Qed.

Lemma add_edges_app c1 c2 g : add_edges (c1 ++ c2) g = add_edges c2 (add_edges c1 g).
Proof. unfold add_edges. by rewrite foldl_app. Qed.

Lemma edges_add_nodes calls g : edges (add_nodes calls g) = edges g.
Proof.
  revert g. induction calls as [|c calls IH]; intros g; [done|].
  simpl. by rewrite IH, edges_add_node.
Qed.

Lemma nodes_add_edges calls g : nodes (add_edges calls g) = nodes g.
Proof.
  revert g. induction calls as [|c calls IH]; intros g; [done|].
  simpl. by rewrite IH.
Qed.

(** One dependency, one model, one foreign key. *)
Lemma process_dep_calls model_name g dep :
  process_dep model_name g dep
  = _add_edge dep model_name "" (_add_node dep (dep_style dep) g).
Proof. unfold process_dep, dep_style. by destruct (str_contains "." dep). Qed.

Lemma process_deps_nodes model_name deps g :
  nodes (foldl (process_dep model_name) g deps)
  = nodes (add_nodes ((fun dep => (dep, dep_style dep)) <$> deps) g).
Proof.
  revert g. induction deps as [|dep deps IH]; intros g; [done|].
  simpl. rewrite IH, process_dep_calls. by apply add_nodes_congr.
Qed.

Lemma process_deps_edges model_name deps g :
  edges (foldl (process_dep model_name) g deps)
  = edges (add_edges ((fun dep => (dep, model_name, "")) <$> deps) g).
Proof.
  revert g. induction deps as [|dep deps IH]; intros g; [done|].
  simpl. rewrite IH, process_dep_calls. apply add_edges_congr.
  unfold _add_edge. simpl. by rewrite edges_add_node.
Qed.

Lemma process_models_nodes dbt_models g :
  nodes (foldl process_model g dbt_models)
  = nodes (add_nodes (dbt_models ≫= model_nodes) g).
Proof.
  revert g. induction dbt_models as [|m ms IH]; intros g; [done|].
  simpl. rewrite IH, add_nodes_app. apply add_nodes_congr.
  unfold process_model. by rewrite process_deps_nodes.
Qed.

Lemma process_models_edges dbt_models g :
  edges (foldl process_model g dbt_models)
  = edges (add_edges (dbt_models ≫= model_edges) g).
Proof.
  revert g. induction dbt_models as [|m ms IH]; intros g; [done|].
  simpl. rewrite IH, add_edges_app. apply add_edges_congr.
  unfold process_model, model_edges. rewrite process_deps_edges.
  apply add_edges_congr, edges_add_node.
Qed.

Lemma process_fks_nodes db_fks g :
  nodes (foldl process_fk g db_fks) = nodes (add_nodes (db_fks ≫= fk_nodes) g).
Proof.
  revert g. induction db_fks as [|k ks IH]; intros g; [done|].
  simpl. rewrite IH. by apply add_nodes_congr.
Qed.

Lemma process_fks_edges db_fks g :
  edges (foldl process_fk g db_fks) = edges (add_edges (fk_edge <$> db_fks) g).
Proof.
  revert g. induction db_fks as [|k ks IH]; intros g; [done|].
  simpl. rewrite IH. apply add_edges_congr.
  unfold process_fk, _add_edge. simpl. by rewrite !edges_add_node.
Qed.

Lemma build_graph_nodes db_fks dbt_models :
  nodes (build_graph db_fks dbt_models)
  = nodes (add_nodes (node_calls db_fks dbt_models) new_graph).
Proof.
  unfold build_graph, node_calls.
  rewrite process_models_nodes, add_nodes_app.
  apply add_nodes_congr, process_fks_nodes.
Qed.

Lemma build_graph_edges db_fks dbt_models :
  edges (build_graph db_fks dbt_models)
  = edges (add_edges (edge_calls db_fks dbt_models) new_graph).
Proof.
  unfold build_graph, edge_calls.
  rewrite process_models_edges, add_edges_app.
  apply add_edges_congr, process_fks_edges.
Qed.

Lemma dep_style_tag dep : is_tag (dep_style dep).
Proof. unfold dep_style, is_tag. destruct (str_contains "." dep); auto. Qed.

Lemma node_calls_tags db_fks dbt_models :
  Forall (fun c => is_tag c.2) (node_calls db_fks dbt_models).
Proof.
  apply Forall_forall. intros [n s] Hin. simpl.
  apply elem_of_app in Hin as [Hin|Hin];
    apply list_elem_of_bind in Hin as (x & Hin & _).
  - unfold fk_nodes in Hin. apply elem_of_cons in Hin as [[= _ ->]|Hin];
      [unfold is_tag; auto|].
    apply list_elem_of_singleton in Hin as [= _ ->]. unfold is_tag; auto.
  - unfold model_nodes in Hin. apply elem_of_cons in Hin as [[= _ ->]|Hin];
      [unfold is_tag; auto|].
    apply list_elem_of_fmap in Hin as (dep & [= _ ->] & _). apply dep_style_tag.
Qed.

(** The calls by what the name is in the inputs. *)
Lemma node_calls_box db_fks dbt_models n :
  (n, "box") ∈ node_calls db_fks dbt_models ↔ is_model dbt_models n.
Proof.
  unfold node_calls, is_model. rewrite elem_of_app, !list_elem_of_bind. split.
  - intros [(k & Hin & _)|(m & Hin & Hm)].
    + unfold fk_nodes in Hin. apply elem_of_cons in Hin as [[=]|Hin].
      by apply list_elem_of_singleton in Hin as [=].
    + exists m. split; [done|]. unfold model_nodes in Hin.
      apply elem_of_cons in Hin as [[= ->]|Hin]; [by left|].
      apply list_elem_of_fmap in Hin as (dep & [= -> Hs] & Hdep). right.
      split; [done|]. unfold dep_style in Hs.
      by destruct (str_contains "." dep).
  - intros (m & Hm & [<-|[Hdep Hdot]]); right; exists m; (split; [|done]);
      unfold model_nodes.
    + apply list_elem_of_here.
    + apply list_elem_of_further, list_elem_of_fmap. exists n.
      split; [|done]. unfold dep_style. by rewrite Hdot.
Qed.

Lemma node_calls_source db_fks dbt_models n :
  (n, "source") ∈ node_calls db_fks dbt_models ↔ is_source dbt_models n.
Proof.
  unfold node_calls, is_source. rewrite elem_of_app, !list_elem_of_bind. split.
  - intros [(k & Hin & _)|(m & Hin & Hm)].
    + unfold fk_nodes in Hin. apply elem_of_cons in Hin as [[=]|Hin].
      by apply list_elem_of_singleton in Hin as [=].
    + exists m. split; [done|]. unfold model_nodes in Hin.
      apply elem_of_cons in Hin as [[=]|Hin].
      apply list_elem_of_fmap in Hin as (dep & [= -> Hs] & Hdep).
      split; [done|]. unfold dep_style in Hs.
      by destruct (str_contains "." dep).
  - intros (m & Hm & Hdep & Hdot). right. exists m. split; [|done].
    unfold model_nodes. apply list_elem_of_further, list_elem_of_fmap. exists n.
    split; [|done]. unfold dep_style. by rewrite Hdot.
Qed.

Lemma node_calls_db db_fks dbt_models n :
  (n, "db") ∈ node_calls db_fks dbt_models ↔ is_table db_fks n.
Proof.
  unfold node_calls, is_table. rewrite elem_of_app, !list_elem_of_bind. split.
  - intros [(k & Hin & Hk)|(m & Hin & Hm)].
    + exists k. split; [done|]. unfold fk_nodes in Hin.
      apply elem_of_cons in Hin as [[= ->]|Hin]; [by left|].
      apply list_elem_of_singleton in Hin as [= ->]. by right.
    + unfold model_nodes in Hin. apply elem_of_cons in Hin as [[=]|Hin].
      apply list_elem_of_fmap in Hin as (dep & [= -> Hs] & Hdep).
      unfold dep_style in Hs. by destruct (str_contains "." dep).
  - intros (k & Hk & [<-|<-]); left; exists k; (split; [|done]);
      unfold fk_nodes.
    + apply list_elem_of_here.
    + apply list_elem_of_further, list_elem_of_here.
Qed.

(** The style recorded for a name, in terms of the calls. *)
Lemma build_graph_lookup db_fks dbt_models n :
  match nodes (build_graph db_fks dbt_models) !! n with
  | None => ∀ s, (n, s) ∉ node_calls db_fks dbt_models
  | Some s =>
      (n, s) ∈ node_calls db_fks dbt_models ∧ is_tag s ∧
      ∀ s', (n, s') ∈ node_calls db_fks dbt_models →
            _get_style_priority s' ≤ _get_style_priority s
  end.
Proof.
  rewrite build_graph_nodes.
  pose proof (add_nodes_lookup _ n (node_calls_tags db_fks dbt_models)) as H.
  destruct (nodes (add_nodes (node_calls db_fks dbt_models) new_graph) !! n)
    as [s|]; [|done].
  destruct H as [Hin Hmax]. split_and!; [done| |done].
  pose proof (node_calls_tags db_fks dbt_models) as Hall.
  rewrite Forall_forall in Hall. apply (Hall _ Hin).
Qed.

Lemma build_graph_is_Some db_fks dbt_models n :
  is_table db_fks n ∨ is_source dbt_models n ∨ is_model dbt_models n →
  is_Some (nodes (build_graph db_fks dbt_models) !! n).
Proof.
  intros Hrole. pose proof (build_graph_lookup db_fks dbt_models n) as H.
  destruct (nodes (build_graph db_fks dbt_models) !! n); [by eexists|].
  destruct Hrole as [Hr|[Hr|Hr]].
  - apply (node_calls_db db_fks dbt_models) in Hr. by destruct (H "db").
  - apply (node_calls_source db_fks) in Hr. by destruct (H "source").
  - apply (node_calls_box db_fks) in Hr. by destruct (H "box").
Qed.

Lemma build_graph_tag db_fks dbt_models n s :
  nodes (build_graph db_fks dbt_models) !! n = Some s → is_tag s.
Proof.
  intros Hs. pose proof (build_graph_lookup db_fks dbt_models n) as H.
  rewrite Hs in H. tauto.
Qed.

(** Every name is recorded with the style of the most significant role it
    has in the inputs: a model (the name of a model, or a dependency without
    a dot) is a box; otherwise a dotted dependency is a source; otherwise an
    end of a foreign key is a table; and a name with none of these roles is
    not a node. *)
Theorem node_styles (db_fks : list fk) (dbt_models : list dbt_model) (n : string) :
  let style := nodes (build_graph db_fks dbt_models) !! n in
  (style = Some "box" ↔ is_model dbt_models n) ∧
  (style = Some "source" ↔ is_source dbt_models n ∧ ¬ is_model dbt_models n) ∧
  (style = Some "db" ↔
     is_table db_fks n ∧ ¬ is_source dbt_models n ∧ ¬ is_model dbt_models n) ∧
  (style = None ↔
     ¬ is_table db_fks n ∧ ¬ is_source dbt_models n ∧ ¬ is_model dbt_models n) ∧
  (∀ s, style = Some s → is_tag s).
Proof.
  intros style. subst style.
  pose proof (build_graph_lookup db_fks dbt_models n) as H.
  pose proof (node_calls_box db_fks dbt_models n) as Hbox.
  pose proof (node_calls_source db_fks dbt_models n) as Hsrc.
  pose proof (node_calls_db db_fks dbt_models n) as Hdb.
  destruct (nodes (build_graph db_fks dbt_models) !! n) as [s|].
  - destruct H as (Hin & Htag & Hmax').
    assert (∀ s', s' ≠ s → _get_style_priority s < _get_style_priority s' →
              (n, s') ∉ node_calls db_fks dbt_models) as Hlow.
    { intros s' _ Hlt Hs'%Hmax'. lia. }
    destruct Htag as [-> | [-> | ->]].
    + assert (¬ is_source dbt_models n) as Hns.
      { rewrite <- Hsrc. by apply Hlow. }
      assert (¬ is_model dbt_models n) as Hnm.
      { rewrite <- Hbox. by apply Hlow. }
      apply Hdb in Hin.
      split_and!;
        try (split; [first [intros Heq; discriminate Heq | tauto]
                    | first [by intros | tauto]]).
      intros s [= <-]. unfold is_tag. auto.
    + assert (¬ is_model dbt_models n) as Hnm.
      { rewrite <- Hbox. by apply Hlow. }
      apply Hsrc in Hin.
      split_and!;
        try (split; [first [intros Heq; discriminate Heq | tauto]
                    | first [by intros | tauto]]).
      intros s [= <-]. unfold is_tag. auto.
    + apply Hbox in Hin.
      split_and!;
        try (split; [first [intros Heq; discriminate Heq | tauto]
                    | first [by intros | tauto]]).
      intros s [= <-]. unfold is_tag. auto.
  - assert (¬ is_table db_fks n) by (rewrite <- Hdb; apply H).
    assert (¬ is_source dbt_models n) by (rewrite <- Hsrc; apply H).
    assert (¬ is_model dbt_models n) by (rewrite <- Hbox; apply H).
    split_and!;
      try (split; [first [intros Heq; discriminate Heq | tauto]
                  | first [by intros | tauto]]).
    intros s [=].
Qed.

(** The edge lines of the diagram are the lines of the foreign keys and of
    the dependencies, and nothing else. *)
Theorem edges_of_the_inputs (db_fks : list fk) (dbt_models : list dbt_model)
    (line : string) :
  line ∈ edge_lines (build_graph db_fks dbt_models) ↔
  (∃ k, k ∈ db_fks ∧
        line = edge_line (source_table k) (target_table k) "FK") ∨
  (∃ m dep, m ∈ dbt_models ∧ dep ∈ dependencies m ∧
            line = edge_line dep (name m) "").
Proof.
  rewrite edge_lines_elem, build_graph_edges, add_edges_elem.
  unfold edge_calls. split.
  - intros [H|(f & t & l & Hin & ->)]; [by apply elem_of_empty in H|].
    apply elem_of_app in Hin as [Hin|Hin].
    + apply list_elem_of_fmap in Hin as (k & [= -> -> ->] & Hk). left. by exists k.
    + apply list_elem_of_bind in Hin as (m & Hin & Hm).
      apply list_elem_of_fmap in Hin as (dep & [= -> -> ->] & Hdep).
      right. by exists m, dep.
  - intros [(k & Hk & ->)|(m & dep & Hm & Hdep & ->)]; right.
    + exists (source_table k), (target_table k), "FK". split; [|done].
      apply elem_of_app. left. apply list_elem_of_fmap. by exists k.
    + exists dep, (name m), "". split; [|done].
      apply elem_of_app. right. apply list_elem_of_bind. exists m.
      split; [|done]. apply list_elem_of_fmap. by exists dep.
Qed.

Lemma node_definition_tag n s :
  is_tag s → ∃ line, node_definition (n, s) = [line].
Proof. intros [-> | [-> | ->]]; by eexists. Qed.

Lemma node_lines_elem g line :
  line ∈ node_lines g ↔
  ∃ n s, nodes g !! n = Some s ∧ line ∈ node_definition (n, s).
Proof.
  unfold node_lines. rewrite sorted_Permutation, list_elem_of_bind. split.
  - intros ([n s] & Hl & Hin%elem_of_map_to_list). by exists n, s.
  - intros (n & s & Hin & Hl). exists (n, s). by rewrite elem_of_map_to_list.
Qed.

Lemma bind_singletons_length {A B} (f : A → list B) (l : list A) :
  Forall (fun x => length (f x) = 1%nat) l → length (l ≫= f) = length l.
Proof.
  induction 1 as [|x l Hx _ IH]; [done|].
  rewrite bind_cons, length_app, Hx, IH. done.
Qed.

(** No edge dangles, and no node is lost: the two ends of every emitted
    edge are nodes, every node has a definition line in the diagram, and
    there are as many definition lines as nodes. *)
Theorem edges_join_defined_nodes (db_fks : list fk) (dbt_models : list dbt_model) :
  let g := build_graph db_fks dbt_models in
  (∀ k, k ∈ db_fks →
        is_Some (nodes g !! source_table k) ∧
        is_Some (nodes g !! target_table k)) ∧
  (∀ m dep, m ∈ dbt_models → dep ∈ dependencies m →
        is_Some (nodes g !! dep) ∧ is_Some (nodes g !! name m)) ∧
  (∀ n s, nodes g !! n = Some s →
        ∃ line, node_definition (n, s) = [line] ∧ line ∈ node_lines g) ∧
  length (node_lines g) = size (nodes g).
Proof.
  intros g.
  assert (∀ n, is_table db_fks n ∨ is_source dbt_models n ∨ is_model dbt_models n →
               is_Some (nodes g !! n)) as Hsome
    by apply build_graph_is_Some.
  assert (∀ n s, nodes g !! n = Some s → is_tag s) as Htag
    by apply build_graph_tag.
  split_and!.
  - intros k Hk. split; apply Hsome; left; exists k; auto.
  - intros m dep Hm Hdep. split; apply Hsome; right.
    + destruct (str_contains "." dep) eqn:Hdot; [left|right]; exists m; auto.
    + right. exists m. auto.
  - intros n s Hs. destruct (node_definition_tag n s (Htag n s Hs)) as [line Hl].
    exists line. split; [done|]. apply node_lines_elem. exists n, s.
    split; [done|]. rewrite Hl. apply list_elem_of_here.
  - unfold node_lines, sorted. rewrite merge_sort_Permutation.
    rewrite bind_singletons_length; [by rewrite length_map_to_list|].
    apply Forall_forall. intros [n s] Hin%elem_of_map_to_list.
    destruct (node_definition_tag n s (Htag n s Hin)) as [line ->]. done.
Qed.

Lemma node_calls_elem_equiv fks fks' models models' c :
  (∀ k, k ∈ fks ↔ k ∈ fks') → (∀ m, m ∈ models ↔ m ∈ models') →
  c ∈ node_calls fks models → c ∈ node_calls fks' models'.
Proof.
  intros Hk Hm. unfold node_calls. rewrite !elem_of_app, !list_elem_of_bind.
  intros [(k & ? & ?%Hk)|(m & ? & ?%Hm)]; [left|right]; eauto.
Qed.

Lemma edge_calls_elem_equiv fks fks' models models' c :
  (∀ k, k ∈ fks ↔ k ∈ fks') → (∀ m, m ∈ models ↔ m ∈ models') →
  c ∈ edge_calls fks models → c ∈ edge_calls fks' models'.
Proof.
  intros Hk Hm. unfold edge_calls.
  rewrite !elem_of_app, !list_elem_of_fmap, !list_elem_of_bind.
  intros [(k & ? & ?%Hk)|(m & ? & ?%Hm)]; [left|right]; eauto.
Qed.

Lemma build_graph_sub fks fks' models models' n s :
  (∀ k, k ∈ fks ↔ k ∈ fks') → (∀ m, m ∈ models ↔ m ∈ models') →
  nodes (build_graph fks models) !! n = Some s →
  nodes (build_graph fks' models') !! n = Some s.
Proof.
  intros Hk Hm. rewrite !build_graph_nodes.
  pose proof (add_nodes_lookup _ n (node_calls_tags fks models)) as H.
  pose proof (add_nodes_lookup _ n (node_calls_tags fks' models')) as H'.
  intros Hs. rewrite Hs in H. destruct H as [Hin Hmax].
  destruct (nodes (add_nodes (node_calls fks' models') new_graph) !! n)
    as [s'|].
  - destruct H' as [Hin' Hmax']. f_equal.
    pose proof (node_calls_tags fks models) as Hall.
    rewrite Forall_forall in Hall.
    apply priority_tag_inj.
    + apply (Hall (n, s')). eapply node_calls_elem_equiv; [..|done];
        intros; symmetry; auto.
    + apply (Hall _ Hin).
    + apply Z.le_antisymm.
      * apply Hmax. eapply node_calls_elem_equiv; [..|done];
          intros; symmetry; auto.
      * apply Hmax'. by eapply node_calls_elem_equiv.
  - destruct (H' s). by eapply node_calls_elem_equiv.
Qed.

(** The diagram depends on which foreign keys and which models are given,
    not on their order nor on how often each is listed. *)
Theorem diagram_ignores_order_and_repetition
    (db_fks db_fks' : list fk) (dbt_models dbt_models' : list dbt_model) :
  (∀ k, k ∈ db_fks ↔ k ∈ db_fks') →
  (∀ m, m ∈ dbt_models ↔ m ∈ dbt_models') →
  generate_graph db_fks dbt_models = generate_graph db_fks' dbt_models'.
Proof.
  intros Hk Hm. unfold generate_graph. f_equal.
  assert (nodes (build_graph db_fks dbt_models)
          = nodes (build_graph db_fks' dbt_models')) as Hn.
  { apply map_eq. intros n. apply option_eq. intros s. split.
    - by apply build_graph_sub.
    - apply build_graph_sub; intros; symmetry; auto. }
  assert (edges (build_graph db_fks dbt_models)
          = edges (build_graph db_fks' dbt_models')) as He.
  { apply set_eq. intros line. rewrite !build_graph_edges, !add_edges_elem.
    split; (intros [H|(f & t & l & Hin & ->)]; [by left|right]);
      exists f, t, l; (split; [|done]).
    - by eapply edge_calls_elem_equiv.
    - eapply edge_calls_elem_equiv; [..|done]; intros; symmetry; auto. }
  destruct (build_graph db_fks dbt_models), (build_graph db_fks' dbt_models').
  simpl in *. by subst.
Qed.

(** A foreign key listed twice and two models in either order. *)
Lemma diagram_ignores_order_and_repetition_witness :
  generate_graph [Fk "orders" "users"; Fk "orders" "users"]
    [DbtModel "orders" ["raw.orders"]; DbtModel "users" []]
  = generate_graph [Fk "orders" "users"]
      [DbtModel "users" []; DbtModel "orders" ["raw.orders"]].
Proof.
  apply diagram_ignores_order_and_repetition.
  - intros k. rewrite !elem_of_cons, !elem_of_nil. tauto.
  - intros m. rewrite !elem_of_cons, !elem_of_nil. tauto.
Defined.

(** *** The edge lines of the diagram text *)

#[local] Set Warnings "-clear-no-such-hyp".

(** The lines of a text, [text.split("\n")]. *)
Fixpoint text_lines (text : string) : list string :=
  match text with
  | "" => [""]
  | String c rest =>
      if bool_decide (c = ascii_of_nat 10) then "" :: text_lines rest
      else match text_lines rest with
           | [] => [String c ""]
           | x :: xs => String c x :: xs
           end
  end.

(** What follows the first empty line. *)
Fixpoint after_blank (lines : list string) : list string :=
  match lines with
  | [] => []
  | l :: rest => if decide (l = "") then rest else after_blank rest
  end.

(** The edge lines of a diagram: the lines of the text after the empty line
    that [generate_graph] puts between the node definitions and the
    edges. *)
Definition diagram_edges (text : string) : list string :=
  after_blank (text_lines text).

(** A string without a line break. *)
Fixpoint one_line (s : string) : bool :=
  match s with
  | "" => true
  | String c s' => negb (bool_decide (c = ascii_of_nat 10)) && one_line s'
  end.

Lemma one_line_app a b : one_line (a +:+ b) = one_line a && one_line b.
Proof.
  induction a as [|c a IH]; [done|].
  change (one_line (String c (a +:+ b)) = one_line (String c a) && one_line b).
  simpl. rewrite IH. by rewrite andb_assoc.
Qed.

Lemma text_lines_one s : one_line s = true → text_lines s = [s].
Proof.
  induction s as [|c s IH]; [done|]. simpl.
  intros [Hc Hs]%andb_true_iff. apply negb_true_iff in Hc. rewrite Hc.
  by rewrite IH.
Qed.

Lemma text_lines_app s rest :
  one_line s = true → text_lines (s +:+ nl +:+ rest) = s :: text_lines rest.
Proof.
  induction s as [|c s IH]; [done|].
  change (String c s +:+ nl +:+ rest) with (String c (s +:+ nl +:+ rest)).
  simpl. intros [Hc Hs]%andb_true_iff. apply negb_true_iff in Hc. rewrite Hc.
  by rewrite IH.
Qed.

Lemma text_lines_join ls :
  ls ≠ [] → Forall (fun l => one_line l = true) ls →
  text_lines (str_join nl ls) = ls.
Proof.
  induction ls as [|l ls IH]; [done|]. intros _ Hall.
  apply Forall_cons in Hall as [Hl Hall].
  destruct ls as [|l' ls]; [by apply text_lines_one|].
  change (str_join nl (l :: l' :: ls)) with (l +:+ nl +:+ str_join nl (l' :: ls)).
  rewrite text_lines_app by done. by rewrite IH.
Qed.

Lemma after_blank_app pre rest :
  "" ∉ pre → after_blank (pre ++ "" :: rest) = rest.
Proof.
  induction pre as [|l pre IH]; intros Hpre.
  - done.
  - change (after_blank ((l :: pre) ++ "" :: rest))
      with (if decide (l = "") then pre ++ "" :: rest
            else after_blank (pre ++ "" :: rest)).
    rewrite decide_False by set_solver. apply IH. set_solver.
Qed.

Lemma edge_line_one f t l :
  one_line f = true → one_line t = true → one_line l = true →
  one_line (edge_line f t l) = true.
Proof.
  intros Hf Ht Hl. unfold edge_line. case_decide.
  - by rewrite !one_line_app, Hf, Ht.
  - by rewrite !one_line_app, Hf, Ht, Hl.
Qed.

Lemma node_definition_one n s line :
  one_line n = true → line ∈ node_definition (n, s) →
  one_line line = true ∧ line ≠ "".
Proof.
  intros Hn. unfold node_definition.
  repeat case_decide; intros Hin; try by apply elem_of_nil in Hin.
  all: apply list_elem_of_singleton in Hin as ->.
  all: split; [by rewrite !one_line_app, Hn|done].
Qed.

Lemma add_nodes_key calls g n s :
  nodes (add_nodes calls g) !! n = Some s →
  nodes g !! n = Some s ∨ (n, s) ∈ calls.
Proof.
  induction calls as [|c calls IH] using rev_ind; [by left|].
  rewrite add_nodes_snoc. destruct c as [n' s']. simpl.
  destruct (decide (n = n')) as [->|Hne].
  - rewrite add_node_same. case_decide.
    + intros [= ->]. right. set_solver.
    + intros H'. destruct (IH H'); [by left|right; set_solver].
  - rewrite add_node_other by done.
    intros H'. destruct (IH H'); [by left|right; set_solver].
Qed.

Lemma render_congr g1 g2 :
  nodes g1 = nodes g2 → edges g1 = edges g2 → render g1 = render g2.
Proof.
  intros Hn He. unfold render, graph_lines, node_lines, edge_lines.
  by rewrite Hn, He.
Qed.

(** The lines of the text are the lines that were joined, and the edge
    lines of the text are the sorted edges. *)
Lemma diagram_edges_render ncalls calls :
  Forall (fun c => one_line c.1 = true) ncalls →
  Forall (fun c => one_line c.1.1 = true ∧ one_line c.1.2 = true ∧
                   one_line c.2 = true) calls →
  let g := add_edges calls (add_nodes ncalls new_graph) in
  text_lines (render g) = graph_lines g ∧
  diagram_edges (render g) = edge_lines g.
Proof.
  intros Hn He g.
  assert (∀ line, line ∈ node_lines g → one_line line = true ∧ line ≠ "")
    as Hnodes.
  { intros line (n & s & Hns & Hline)%node_lines_elem.
    apply (node_definition_one n s); [|done].
    subst g. rewrite nodes_add_edges in Hns.
    apply add_nodes_key in Hns as [Hns|Hns]; [done|].
    rewrite Forall_forall in Hn. by apply (Hn (n, s)). }
  assert (∀ line, line ∈ edge_lines g → one_line line = true) as Hedges.
  { intros line Hline%edge_lines_elem. subst g.
    apply add_edges_elem in Hline as [Hline|(f & t & l & Hc & ->)].
    - rewrite edges_add_nodes in Hline. set_solver.
    - rewrite Forall_forall in He. destruct (He _ Hc) as (? & ? & ?).
      by apply edge_line_one. }
  assert (text_lines (render g) = graph_lines g) as Hlines.
  { unfold render. apply text_lines_join; [done|].
    unfold graph_lines. rewrite !Forall_app. split_and!.
    - by repeat constructor.
    - apply Forall_forall. intros line Hl. by apply Hnodes.
    - by repeat constructor.
    - apply Forall_forall. intros line Hl. by apply Hedges. }
  split; [done|]. unfold diagram_edges. rewrite Hlines. unfold graph_lines.
  simpl. apply after_blank_app. intros Hin. by destruct (Hnodes _ Hin).
Qed.

(** C6. Edge deduplication, on the diagram text.  After any sequence of
    [_add_node] and [_add_edge] calls on a fresh generator, with names and
    labels that have no line break: the line of every added (from, to,
    label) triple occurs exactly once among the edge lines of the text that
    is generated, however often the triple was added; the edge lines of the
    text are the lines of the added triples and nothing else; adding a
    triple once more leaves the text as it is; two edges between the same
    pair of nodes whose labels differ (a labelled FK edge and an unlabelled
    dependency edge) are two lines of the text, at two places.  The text of
    [generate_graph] is the text after the calls that it makes for its
    foreign keys and models. *)
Theorem edge_deduplication
    (ncalls : list (string * string)) (calls : list (string * string * string)) :
  Forall (fun c => one_line c.1 = true) ncalls →
  Forall (fun c => one_line c.1.1 = true ∧ one_line c.1.2 = true ∧
                   one_line c.2 = true) calls →
  let g := add_edges calls (add_nodes ncalls new_graph) in
  let text := render g in
  (∀ f t l, (f, t, l) ∈ calls →
     length (filter (eq (edge_line f t l)) (diagram_edges text)) = 1%nat) ∧
  (∀ line, line ∈ diagram_edges text →
     ∃ f t l, (f, t, l) ∈ calls ∧ line = edge_line f t l) ∧
  (∀ f t l, (f, t, l) ∈ calls → render (_add_edge f t l g) = text) ∧
  (∀ f t l1 l2, l1 ≠ l2 → (f, t, l1) ∈ calls → (f, t, l2) ∈ calls →
     ∃ i j, i ≠ j ∧ diagram_edges text !! i = Some (edge_line f t l1) ∧
            diagram_edges text !! j = Some (edge_line f t l2)) ∧
  (∀ db_fks dbt_models,
     ncalls = node_calls db_fks dbt_models →
     calls = edge_calls db_fks dbt_models →
     generate_graph db_fks dbt_models = text).
Proof.
  intros Hn He g text.
  destruct (diagram_edges_render ncalls calls Hn He) as [_ Hd].
  fold g in Hd. fold text in Hd. rewrite Hd.
  assert (∀ f t l, (f, t, l) ∈ calls → edge_line f t l ∈ edge_lines g) as Hin.
  { intros f t l H. apply edge_lines_elem, add_edges_elem. right.
    by exists f, t, l. }
  split_and!.
  - intros f t l H. apply NoDup_filter_eq_length; [apply edge_lines_NoDup|].
    by apply Hin.
  - intros line Hline%edge_lines_elem. subst g.
    apply add_edges_elem in Hline as [Hline|Hline]; [|done].
    rewrite edges_add_nodes in Hline. set_solver.
  - intros f t l H. apply render_congr; [apply nodes_add_edge|].
    simpl. apply Hin, edge_lines_elem in H. set_solver.
  - intros f t l1 l2 Hne H1 H2.
    apply Hin, list_elem_of_lookup in H1 as [i Hi].
    apply Hin, list_elem_of_lookup in H2 as [j Hj].
    exists i, j. split; [|done]. intros ->.
    rewrite Hi in Hj. injection Hj as Hj. by apply edge_line_label_inj in Hj.
  - intros db_fks dbt_models -> ->. unfold generate_graph.
    apply render_congr.
    + subst g. by rewrite nodes_add_edges, build_graph_nodes.
    + subst g. rewrite build_graph_edges. apply add_edges_congr.
      by rewrite edges_add_nodes.
Qed.

Lemma edge_deduplication_witness :
  length (filter (eq (edge_line "orders" "users" "FK"))
            (diagram_edges
               (render
                  (add_edges
                     [("orders", "users", "FK"); ("orders", "users", "");
                      ("orders", "users", "FK")]
                     (add_nodes [("orders", "db"); ("users", "db")]
                        new_graph))))) = 1%nat.
Proof.
  refine (proj1
    (edge_deduplication [("orders", "db"); ("users", "db")]
       [("orders", "users", "FK"); ("orders", "users", "");
        ("orders", "users", "FK")] _ _) "orders" "users" "FK" _).
  - repeat constructor.
  - repeat constructor.
  - apply (bool_decide_unpack _). vm_compute. exact I.
Defined.

End GraphFacts.

(** * More on the runs of the writer *)

Module WriterRuns.
Import Py Fs Writer FsFacts WriterFacts.

#[local] Open Scope nat_scope.
#[local] Open Scope list_scope.
#[local] Set Warnings "-clear-no-such-hyp".

(** *** Files and directories *)

(** A location that holds a directory. *)
Definition is_dir (n : node) (comps : list string) : Prop :=
  ∃ entries, lookup_node n comps = Some (Dir entries).

Lemma lookup_node_cons entries name comps :
  lookup_node (Dir entries) (name :: comps) =
  match entry_get entries name with
  | Some child => lookup_node child comps
  | None => None
  end.
Proof. done. Qed.

Lemma lookup_node_File c comps :
  lookup_node (File c) comps = match comps with [] => Some (File c) | _ => None end.
Proof. by destruct comps. Qed.

Lemma put_file_Dir n comps c n' :
  put_file n comps c = Some n' → ∃ es es', n = Dir es ∧ n' = Dir es'.
Proof.
  destruct comps as [|name cs]; [done|]. destruct n as [c0|es]; [by destruct cs|].
  destruct cs as [|name2 cs].
  - simpl. destruct (entry_get es name) as [[?|?]|]; intros [= <-]; eauto.
  - rewrite put_file_below. destruct (entry_get es name); [|done].
    destruct (put_file _ _ _); intros [= <-]; eauto.
Qed.

(** What is read back where a file was put. *)
Lemma put_file_same n comps c n' :
  put_file n comps c = Some n' → file_at n' comps = Some c.
Proof.
  revert n n'. induction comps as [|name cs IH]; intros n n' H; [done|].
  destruct n as [c0|entries]; [by destruct cs|].
  destruct cs as [|name2 cs].
  - simpl in H.
    assert (n' = Dir (entry_set entries name (File c))) as ->.
    { destruct (entry_get entries name) as [[?|?]|]; try done; by injection H as <-. }
    by rewrite file_at_cons, entry_get_set_eq.
  - rewrite put_file_below in H.
    destruct (entry_get entries name) as [child|]; [|done].
    destruct (put_file child (name2 :: cs) c) as [child'|] eqn:Hput; [|done].
    injection H as <-. rewrite file_at_cons, entry_get_set_eq. by eapply IH.
Qed.

(** Putting a file creates and removes no directory, and removes no file. *)
Lemma put_file_kinds n comps c n' comps' :
  put_file n comps c = Some n' →
  (is_dir n' comps' ↔ is_dir n comps') ∧
  (is_Some (file_at n comps') → is_Some (file_at n' comps')).
Proof.
  revert n n' comps'. induction comps as [|name cs IH]; intros n n' comps' H;
    [done|].
  destruct n as [c0|entries]; [by destruct cs|].
  destruct comps' as [|name' rest].
  { apply put_file_Dir in H as (es & es' & _ & ->). split.
    - split; intros _; by eexists.
    - by intros [x [=]]. }
  destruct cs as [|name2 cs].
  - simpl in H.
    assert (n' = Dir (entry_set entries name (File c)) ∧
            ∀ es, entry_get entries name ≠ Some (Dir es)) as [-> Hnd].
    { destruct (entry_get entries name) as [[c1|es1]|]; [|done|];
        injection H as <-; split; done. }
    unfold is_dir. rewrite !file_at_cons, !lookup_node_cons.
    destruct (decide (name = name')) as [<-|Hn].
    + rewrite entry_get_set_eq. rewrite lookup_node_File.
      destruct (entry_get entries name) as [[c1|es1]|]; [| by destruct (Hnd es1) |].
      * rewrite lookup_node_File. destruct rest; [|split; [done|by intros [? [=]]]].
        split; [|by eexists]. split; by intros [? [=]].
      * destruct rest; (split; [split; by intros [? [=]]|by intros [? [=]]]).
    + by rewrite entry_get_set_ne.
  - rewrite put_file_below in H.
    destruct (entry_get entries name) as [child|] eqn:Hchild; [|done].
    destruct (put_file child (name2 :: cs) c) as [child'|] eqn:Hput; [|done].
    injection H as <-.
    unfold is_dir. rewrite !file_at_cons, !lookup_node_cons.
    destruct (decide (name = name')) as [<-|Hn].
    + rewrite entry_get_set_eq, Hchild. apply (IH _ _ rest Hput).
    + by rewrite entry_get_set_ne.
Qed.

Lemma open_write_read d p c d' :
  open_write d p c = Some d' → open_read d' p = Ok c.
Proof.
  unfold open_write.
  destruct (put_file (root d) (locate d p) c) as [r|] eqn:Hput; [|done].
  intros [= <-]. apply put_file_same in Hput.
  unfold open_read, resolve, locate. simpl. fold (locate d p).
  unfold file_at in Hput.
  destruct (lookup_node r (locate d p)) as [[c'|]|]; congruence.
Qed.

Lemma open_read_file_at d p c :
  open_read d p = Ok c ↔ file_at (root d) (locate d p) = Some c.
Proof.
  unfold open_read, resolve, file_at.
  destruct (lookup_node (root d) (locate d p)) as [[c'|]|]; split; congruence.
Qed.

Lemma write_files_other self paths d r d' comps :
  write_files self paths d = (r, d') →
  (∀ p, p ∈ paths → locate d p ≠ comps) →
  file_at (root d') comps = file_at (root d) comps.
Proof.
  revert d. induction paths as [|p paths IH]; intros d; simpl.
  - by intros [= _ <-].
  - intros H Hall.
    assert (locate d p ≠ comps) as Hp by (apply Hall, list_elem_of_here).
    assert (∀ c d1, open_write d p c = Some d1 →
              file_at (root d1) comps = file_at (root d) comps ∧
              ∀ q, locate d1 q = locate d q) as Hframe.
    { intros c d1 Hw. split; [by eapply open_write_other|].
      intros q. apply locate_cwd. by eapply open_write_cwd. }
    destruct (yaml_files self !! p) as [data|].
    + destruct (open_write d p (Yaml data)) as [d1|] eqn:Hw.
      * destruct (Hframe _ _ Hw) as [<- Hloc]. apply (IH _ H).
        intros q Hq. rewrite Hloc. by apply Hall, list_elem_of_further.
      * by injection H as _ <-.
    + destruct (open_write d p (Yaml VNone)) as [d1|] eqn:Hw.
      * injection H as _ <-. by apply (Hframe _ _ Hw).
      * by injection H as _ <-.
Qed.

(** When the loop of [_write_modified_files_to_disk] ends without an
    exception, every path of the loop has a document, and its file holds
    it, provided that no two paths of the loop lead to the same place. *)
Lemma write_files_read self paths d d' :
  write_files self paths d = (Ok tt, d') →
  NoDup (locate d <$> paths) →
  ∀ p, p ∈ paths →
       ∃ data, yaml_files self !! p = Some data ∧ open_read d' p = Ok (Yaml data).
Proof.
  revert d. induction paths as [|p paths IH]; intros d; simpl.
  - intros _ _ q Hq. by apply elem_of_nil in Hq.
  - intros H Hnd q Hq. apply NoDup_cons in Hnd as [Hp Hnd].
    destruct (yaml_files self !! p) as [data|] eqn:Hdata.
    2:{ destruct (open_write d p (Yaml VNone)); by injection H. }
    destruct (open_write d p (Yaml data)) as [d1|] eqn:Hw; [|by injection H].
    assert (∀ x, locate d1 x = locate d x) as Hloc.
    { intros x. apply locate_cwd. by eapply open_write_cwd. }
    apply elem_of_cons in Hq as [->|Hq].
    + exists data. split; [done|]. apply open_read_file_at.
      assert (cwd d' = cwd d1) as Hcwd by (by eapply write_files_cwd).
      rewrite (locate_cwd _ _ _ Hcwd).
      rewrite (write_files_other _ _ _ _ _ (locate d1 p) H).
      * apply open_read_file_at. by eapply open_write_read.
      * intros x Hx Heq. apply Hp. rewrite <- (Hloc p), <- Heq, Hloc.
        apply list_elem_of_fmap. by exists x.
    + apply (IH _ H); [|done].
      erewrite list_fmap_ext; [exact Hnd|]. by intros ???.
Qed.

Lemma write_files_kinds self paths d r d' comps :
  write_files self paths d = (r, d') →
  (is_dir (root d') comps ↔ is_dir (root d) comps) ∧
  (is_Some (file_at (root d) comps) → is_Some (file_at (root d') comps)).
Proof.
  revert d. induction paths as [|p paths IH]; intros d; simpl.
  - by intros [= _ <-].
  - assert (∀ c d1, open_write d p c = Some d1 →
              (is_dir (root d1) comps ↔ is_dir (root d) comps) ∧
              (is_Some (file_at (root d) comps) →
               is_Some (file_at (root d1) comps))) as Hone.
    { intros c d1. unfold open_write.
      destruct (put_file (root d) (locate d p) c) as [r1|] eqn:Hput; [|done].
      intros [= <-]. simpl. by eapply put_file_kinds. }
    destruct (yaml_files self !! p) as [data|].
    + destruct (open_write d p (Yaml data)) as [d1|] eqn:Hw.
      * intros H. destruct (IH _ H) as [Hd Hf], (Hone _ _ Hw) as [Hd1 Hf1].
        split; [by rewrite Hd|auto].
      * by intros [= _ <-].
    + destruct (open_write d p (Yaml VNone)) as [d1|] eqn:Hw.
      * intros [= _ <-]. by apply (Hone _ _ Hw).
      * by intros [= _ <-].
Qed.

Lemma lookup_node_app n a b :
  lookup_node n (a ++ b) =
  match lookup_node n a with
  | Some m => lookup_node m b
  | None => None
  end.
Proof.
  revert n. induction a as [|x a IH]; intros n; [done|].
  destruct n as [c|entries]; [done|]. simpl.
  destruct (entry_get entries x); [apply IH|done].
Qed.

Lemma file_in_dir n parent name :
  is_Some (file_at n (parent ++ [name])) → is_dir n parent.
Proof.
  unfold file_at, is_dir. rewrite lookup_node_app.
  destruct (lookup_node n parent) as [[c|entries]|]; [by intros [? [=]]| |by intros [? [=]]].
  intros _. by eexists.
Qed.

(** *** Loading and the index *)

(** A list of nodes has a node of this name: a mapping whose [name] is
    this string, which is not empty. *)
Definition named_in (items : list value) (name : string) : Prop :=
  ∃ entries, VDict entries ∈ items ∧
             dict_get entries "name" = Some (VStr name) ∧ name ≠ "".

(** A document has a node of this name in one of the given lists. *)
Definition names_in (types : list string) (data : value) (name : string) : Prop :=
  ∃ node_type items,
    node_type ∈ types ∧
    py_get data node_type (VList []) = Ok (VList items) ∧
    named_in items name.

Definition names_node (data : value) (name : string) : Prop :=
  names_in node_types data name.

Lemma named_in_cons x items name :
  named_in (x :: items) name ↔
  (∃ entries, x = VDict entries ∧
              dict_get entries "name" = Some (VStr name) ∧ name ≠ "") ∨
  named_in items name.
Proof.
  unfold named_in. split.
  - intros (entries & [<-|Hin]%elem_of_cons & Hn).
    + left. by exists entries.
    + right. by exists entries.
  - intros [(entries & -> & Hn)|(entries & Hin & Hn)]; exists entries.
    + split; [apply list_elem_of_here|done].
    + split; [by apply list_elem_of_further|done].
Qed.

Lemma index_nodes_spec file_path items m m' :
  index_nodes file_path items m = Ok m' →
  ∀ name, (named_in items name ∧ m' !! name = Some file_path) ∨
          (¬ named_in items name ∧ m' !! name = m !! name).
Proof.
  revert m. induction items as [|x items IH]; intros m H name; simpl in H.
  - injection H as <-. right. split; [|done].
    intros (entries & Hin & _). by apply elem_of_nil in Hin.
  - assert ((¬ (∃ entries, x = VDict entries ∧
                  dict_get entries "name" = Some (VStr name) ∧ name ≠ "")) →
            index_nodes file_path items m = Ok m' →
            (named_in (x :: items) name ∧ m' !! name = Some file_path) ∨
            (¬ named_in (x :: items) name ∧ m' !! name = m !! name)) as Hskip.
    { intros Hx Hrest. rewrite named_in_cons.
      destruct (IH _ Hrest name) as [[? ?]|[? ?]]; [left|right]; tauto. }
    destruct x as [| | | | |entries];
      try (apply Hskip; [by intros (? & [=] & _)|done]).
    destruct (truthy (default VNone (dict_get entries "name"))) eqn:Htruthy.
    2:{ apply Hskip; [|done]. intros (? & [= <-] & Hn & Hne).
        rewrite Hn in Htruthy. simpl in Htruthy.
        by rewrite bool_decide_eq_false_2 in Htruthy. }
    destruct (default VNone (dict_get entries "name")) as [| | |name0| |] eqn:Hname;
      try done;
      try (apply Hskip; [|done]; intros (? & [= <-] & Hn & Hne);
           by rewrite Hn in Hname).
    rewrite named_in_cons.
    destruct (IH _ H name) as [[Hin Hm]|[Hnot Hm]]; [left; tauto|].
    destruct (decide (name0 = name)) as [->|Hne].
    + left. rewrite Hm, lookup_insert_eq. split; [|done]. left.
      exists entries. split_and!; try done.
      * destruct (dict_get entries "name"); simpl in Hname; congruence.
      * intros ->. simpl in Htruthy. done.
    + right. rewrite Hm, lookup_insert_ne by done. split; [|done].
      intros [(e & [= <-] & Hn & _)|?]; [|done].
      rewrite Hn in Hname. simpl in Hname. congruence.
Qed.

Lemma py_iter_named v items name :
  py_iter v = Ok items → named_in items name → v = VList items.
Proof.
  intros Hv (entries & Hin & _). by eapply py_iter_dict_elem.
Qed.

Lemma index_node_types_spec file_path data types m m' :
  index_node_types file_path data types m = Ok m' →
  ∀ name, (names_in types data name ∧ m' !! name = Some file_path) ∨
          (¬ names_in types data name ∧ m' !! name = m !! name).
Proof.
  revert m. induction types as [|t types IH]; intros m H name; simpl in H.
  - injection H as <-. right. split; [|done].
    intros (t & items & Hin & _). by apply elem_of_nil in Hin.
  - monad_inv.
    match goal with
    | H1 : py_get data t _ = Ok ?v, H2 : py_iter ?v = Ok ?items,
      H3 : index_nodes _ _ _ = Ok ?m1 |- _ =>
        rename H1 into Hget; rename H2 into Hiter;
        pose proof (index_nodes_spec _ _ _ _ H3 name) as Hone;
        rename v into nodes; rename items into its
    end.
    assert (names_in (t :: types) data name ↔
            named_in its name ∨ names_in types data name) as Hiff.
    { unfold names_in. split.
      - intros (t' & items & [->|Hin]%elem_of_cons & Hg & Hn).
        + left. rewrite Hget in Hg. injection Hg as ->.
          simpl in Hiter. by injection Hiter as <-.
        + right. by exists t', items.
      - intros [Hn|(t' & items & Hin & Hg & Hn)].
        + exists t, its. split_and!; [apply list_elem_of_here| |done].
          by rewrite Hget, (py_iter_named _ _ _ Hiter Hn).
        + exists t', items. split_and!; [by apply list_elem_of_further|done..]. }
    rewrite Hiff.
    destruct (IH _ H name) as [[Hin Hm]|[Hnot Hm]]; [left; tauto|].
    destruct Hone as [[Hin1 Hm1]|[Hnot1 Hm1]].
    + left. split; [tauto|congruence].
    + right. split; [tauto|congruence].
Qed.

(** What [_load_and_map_existing_yamls] keeps true of the writer: every
    loaded document is the non-empty document of its file; every entry of
    the index leads to a loaded document that has a node of that name; and
    every node that a loaded document names is indexed. *)
Definition index_sound (d : disk) (w : writer) : Prop :=
  (∀ p data, yaml_files w !! p = Some data →
             open_read d p = Ok (Yaml data) ∧ truthy data = true) ∧
  (∀ name p, model_to_file_map w !! name = Some p →
             ∃ data, yaml_files w !! p = Some data ∧ names_node data name) ∧
  (∀ p data name, yaml_files w !! p = Some data → names_node data name →
                  is_Some (model_to_file_map w !! name)).

Lemma load_file_spec d file_path w w' :
  load_file d file_path w = Ok (tt, w') →
  ∃ data, open_read d file_path = Ok (Yaml data) ∧
    if truthy data
    then yaml_files w' = <[file_path := data]> (yaml_files w) ∧
         ∀ name,
           (names_node data name ∧
            model_to_file_map w' !! name = Some file_path) ∨
           (¬ names_node data name ∧
            model_to_file_map w' !! name = model_to_file_map w !! name)
    else w' = w.
Proof.
  unfold load_file. intros H. monad_inv.
  match goal with
  | H : open_read _ _ = Ok ?c |- _ => destruct c as [|data]; monad_inv
  end.
  exists data. split; [done|].
  destruct (truthy data); cbn [negb] in H; monad_inv; [|done].
  split; [done|]. cbn [model_to_file_map set_model_to_file_map].
  match goal with
  | H : index_node_types _ _ _ _ = Ok _ |- _ =>
      exact (index_node_types_spec _ _ _ _ _ H)
  end.
Qed.

Lemma load_file_sound d file_path w w' :
  load_file d file_path w = Ok (tt, w') → index_sound d w → index_sound d w'.
Proof.
  intros (data & Hread & H)%load_file_spec (Hfiles & Hsound & Hcomplete).
  destruct (truthy data) eqn:Htruthy; [|by subst].
  destruct H as [Hy Hindex].
  assert (∀ p x, yaml_files w' !! p = Some x →
                 (p = file_path ∧ x = data) ∨
                 (p ≠ file_path ∧ yaml_files w !! p = Some x)) as Hcases.
  { intros p x. rewrite Hy. intros Hp.
    apply lookup_insert_Some in Hp as [[<- <-]|[? ?]]; [by left|by right]. }
  split_and!.
  - intros p x [[-> ->]|[_ Hp]]%Hcases; [done|by apply Hfiles].
  - intros name p Hp. destruct (Hindex name) as [[Hn Hi]|[Hn Hi]].
    + rewrite Hi in Hp. injection Hp as <-. exists data.
      by rewrite Hy, lookup_insert_eq.
    + rewrite Hi in Hp. destruct (Hsound _ _ Hp) as (x & Hx & Hnx).
      destruct (decide (p = file_path)) as [->|Hne].
      * destruct (Hfiles _ _ Hx) as [Hread' _]. rewrite Hread in Hread'.
        injection Hread' as <-. done.
      * exists x. by rewrite Hy, lookup_insert_ne.
  - intros p x name [[-> ->]|[_ Hp]]%Hcases Hnx.
    + destruct (Hindex name) as [[_ ->]|[Hn _]]; [by eexists|done].
    + destruct (Hindex name) as [[_ ->]|[_ ->]]; [by eexists|].
      by eapply Hcomplete.
Qed.

Lemma load_files_spec d schema_files w w' :
  load_files d schema_files w = Ok (tt, w') →
  index_sound d w →
  index_sound d w' ∧
  ∀ p data,
    yaml_files w' !! p = Some data ↔
    yaml_files w !! p = Some data ∨
    (p ∈ schema_files ∧ open_read d p = Ok (Yaml data) ∧ truthy data = true).
Proof.
  revert w. induction schema_files as [|file_path rest IH]; intros w H Hinv;
    simpl in H; monad_inv.
  - split; [done|]. intros p data. split; [by left|].
    intros [?|[Hin _]]; [done|by apply elem_of_nil in Hin].
  - match goal with
    | H : load_file _ _ _ = Ok (?u, ?w1) |- _ =>
        destruct u; pose proof (load_file_sound _ _ _ _ H Hinv) as Hinv1;
        apply load_file_spec in H as (data0 & Hread & Hone)
    end.
    destruct (IH _ H Hinv1) as [Hinv' Hiff]. split; [done|].
    intros p data. rewrite Hiff, elem_of_cons.
    destruct (truthy data0) eqn:Htruthy.
    + destruct Hone as [Hy _]. rewrite Hy. split.
      * intros [[[<- <-]|[Hne Hp]]%lookup_insert_Some|(?&?&?)]; auto 10.
      * intros [Hp|([->|Hin] & Hr & Ht)]; [| |by auto].
        -- left. destruct (decide (file_path = p)) as [->|Hne].
           ++ destruct Hinv as (Hfiles & _). destruct (Hfiles _ _ Hp) as [Hr _].
              rewrite Hread in Hr. injection Hr as ->. apply lookup_insert_eq.
           ++ by rewrite lookup_insert_ne.
        -- left. rewrite Hread in Hr. injection Hr as ->. apply lookup_insert_eq.
    + subst. split; [tauto|].
      intros [Hp|([->|Hin] & Hr & Ht)]; [by left| |by auto].
      rewrite Hread in Hr. injection Hr as ->. congruence.
Qed.

(** On a writer that has loaded nothing yet, [_load_and_map_existing_yamls]
    loads exactly the non-empty documents of the files that the discovery
    finds, and builds an index that is sound and complete for them. *)
Theorem loading_builds_a_sound_index (d : disk) (w w' : writer) :
  yaml_files w = ∅ → model_to_file_map w = ∅ →
  _load_and_map_existing_yamls d w = Ok (tt, w') →
  (∀ p data,
     yaml_files w' !! p = Some data ↔
     p ∈ _find_schema_files (dbt_project_dir w) d ∧
     open_read d p = Ok (Yaml data) ∧ truthy data = true) ∧
  (∀ name p, model_to_file_map w' !! name = Some p →
             ∃ data, yaml_files w' !! p = Some data ∧ names_node data name) ∧
  (∀ p data name, yaml_files w' !! p = Some data → names_node data name →
                  is_Some (model_to_file_map w' !! name)).
Proof.
  intros Hy Hm H. unfold _load_and_map_existing_yamls in H. monad_inv.
  apply load_files_spec in H as [(_ & Hsound & Hcomplete) Hiff].
  - split_and!; [|done..]. intros p data. rewrite Hiff, Hy, lookup_empty.
    split; [by intros [?|?]|by right].
  - split_and!.
    + intros p data. by rewrite Hy, lookup_empty.
    + intros name p. by rewrite Hm, lookup_empty.
    + intros p data name. by rewrite Hy, lookup_empty.
Qed.

Section Runs.

Variable py_str : value → string.
Variable set_iter : gset string → list string.

(** *** The result of [write] and the dirty set *)

Lemma create_stub_marks model_name ai w b w' :
  mode w ≠ Check →
  _create_new_model_stub_in_memory py_str model_name ai w = Ok (b, w') →
  mode w' = mode w ∧
  if b then ∃ p, files_to_write w' = {[p]} ∪ files_to_write w
  else files_to_write w' = files_to_write w.
Proof.
  intros Hmode H. unfold _create_new_model_stub_in_memory in H. monad_inv.
  rewrite bool_decide_eq_false_2 in H by done. monad_inv.
  match goal with
  | H : build_stub _ _ _ _ = Ok _ |- _ =>
      apply build_stub_frame in H as (_ & Hftw & _ & Hm & _)
  end.
  apply place_stub_spec in H as (_ & Hm' & _ & _ & Hcase).
  split; [congruence|].
  destruct Hcase as [(-> & _ & Hsame & _)|(-> & _ & sql_path & data' & _ & _ & _ & Hadd & _)].
  - congruence.
  - exists (stub_path sql_path). congruence.
Qed.

Lemma update_loop_marks catalog_data names acc w b w' :
  update_loop py_str catalog_data names acc w = Ok (b, w') →
  (acc = true ↔ files_to_write w ≠ ∅) →
  mode w' = mode w ∧ (b = true ↔ files_to_write w' ≠ ∅).
Proof.
  revert acc w. induction names as [|name names IH]; intros acc w H Hinv;
    simpl in H; monad_inv; [done|].
  match goal with
  | H : _update_existing_model_in_memory _ _ _ _ _ = Ok (?r, _) |- _ =>
      apply update_existing_spec in H as (_ & Hm & _ & Hftw & _)
  end.
  apply IH in H as [Hm' Hiff].
  - split; [congruence|done].
  - rewrite Hftw.
    match goal with |- context [if ?r then true else _] => destruct r end;
      [|done].
    split; [set_solver|done].
Qed.

Lemma create_loop_marks catalog_data names acc w b w' :
  mode w ≠ Check →
  create_loop py_str catalog_data names acc w = Ok (b, w') →
  (acc = true ↔ files_to_write w ≠ ∅) →
  mode w' = mode w ∧ (b = true ↔ files_to_write w' ≠ ∅).
Proof.
  revert acc w. induction names as [|name names IH]; intros acc w Hmode H Hinv;
    simpl in H; monad_inv; [done|].
  match goal with
  | H : _create_new_model_stub_in_memory _ _ _ _ = Ok (?r, _) |- _ =>
      apply create_stub_marks in H as [Hm Hftw]; [|done]
  end.
  apply IH in H as [Hm' Hiff].
  - split; [congruence|done].
  - congruence.
  - match goal with |- context [if ?r then true else _] => destruct r end;
      [|by rewrite Hftw].
    destruct Hftw as [p ->]. split; [set_solver|done].
Qed.

Lemma reconcile_models_marks catalog_data w b w' :
  mode w ≠ Check → files_to_write w = ∅ →
  reconcile_models py_str set_iter catalog_data w = Ok (b, w') →
  mode w' = mode w ∧ (b = true ↔ files_to_write w' ≠ ∅).
Proof.
  intros Hmode Hempty H. unfold reconcile_models in H. monad_inv.
  match goal with
  | H : update_loop _ _ _ _ _ = Ok _ |- _ =>
      apply update_loop_marks in H as [Hm Hiff]; [|by rewrite Hempty]
  end.
  case_bool_decide.
  - apply create_loop_marks in H as [Hm' Hiff']; [|congruence|done].
    split; [congruence|done].
  - by monad_inv.
Qed.

(** Outside the check mode, and on a writer that has marked no file yet,
    [write] returns true exactly when its dirty set is not empty; when the
    result is false the disk is left as it was. *)
Theorem true_iff_a_file_is_marked
    (catalog_data : gmap string value) (d : disk) (w : writer)
    (b : bool) (w' : writer) :
  mode w ≠ Check → files_to_write w = ∅ →
  reconcile py_str set_iter catalog_data d w = Ok (b, w') →
  (b = true ↔ files_to_write w' ≠ ∅) ∧
  (b = false → write py_str set_iter catalog_data w d = (Ok false, d)).
Proof.
  intros Hmode Hempty Hrec.
  destruct (reconcile_inv _ _ _ _ _ _ _ Hrec) as (w0 & _ & Hmodels & Hm0 & Hf0).
  apply reconcile_models_marks in Hmodels as [_ Hiff]; [|congruence..].
  split; [done|]. intros ->. unfold write. rewrite Hrec.
  assert (files_to_write w' = ∅) as Hnone.
  { destruct (decide (files_to_write w' = ∅)) as [|Hne]; [done|].
    by apply Hiff in Hne. }
  assert (persists w' = false) as ->; [|done].
  unfold persists. rewrite Hnone. rewrite (bool_decide_eq_true_2 (∅ = ∅)) by done.
  apply andb_false_r.
Qed.

(** *** What [write] does to the disk *)

(** [write] creates and removes no directory and removes no file, whatever
    its outcome: a place holds a directory afterwards exactly when it did
    before, a place that held a file still holds one, and a file that is
    there afterwards lies in a directory that was there before. *)
Theorem write_keeps_the_tree
    (catalog_data : gmap string value) (w : writer) (d : disk)
    (comps : list string) :
  let d' := (write py_str set_iter catalog_data w d).2 in
  (is_dir (root d') comps ↔ is_dir (root d) comps) ∧
  (is_Some (file_at (root d) comps) → is_Some (file_at (root d') comps)) ∧
  (∀ parent name, comps = parent ++ [name] →
     is_Some (file_at (root d') comps) → is_dir (root d) parent).
Proof.
  intros d'.
  assert (∀ comps, (is_dir (root d') comps ↔ is_dir (root d) comps) ∧
            (is_Some (file_at (root d) comps) →
             is_Some (file_at (root d') comps))) as Hkinds.
  { intros c0. subst d'. unfold write.
    destruct (reconcile _ _ _ _ _) as [[b w']|e]; [|done].
    destruct (persists w'); [|done].
    destruct (_write_modified_files_to_disk _ w' d) as [r d1] eqn:Hwrite.
    apply (write_files_kinds _ _ _ _ _ c0) in Hwrite. by destruct r. }
  split_and!; [apply Hkinds..|].
  intros parent name -> Hfile%file_in_dir. by apply Hkinds.
Qed.

(** After a [write] that persists and ends without an exception, every
    file of the dirty set holds the document that the writer has for it in
    memory, provided that no two paths of the dirty set lead to the same
    place. *)
Theorem dirty_files_hold_their_documents
    (catalog_data : gmap string value) (w : writer) (d : disk)
    (b : bool) (w' : writer) (d' : disk) :
  (∀ s, set_iter s ≡ₚ elements s) →
  mode w = Update ∨ mode w = Interactive →
  reconcile py_str set_iter catalog_data d w = Ok (b, w') →
  write py_str set_iter catalog_data w d = (Ok b, d') →
  NoDup (locate d <$> set_iter (files_to_write w')) →
  ∀ p, p ∈ files_to_write w' →
       ∃ data, yaml_files w' !! p = Some data ∧
               open_read d' p = Ok (Yaml data).
Proof.
  intros Hperm Hmode Hrec Hwrite Hnd p Hp.
  pose proof (reconcile_mode _ _ _ _ _ _ _ Hrec) as Hm.
  unfold write in Hwrite. rewrite Hrec in Hwrite.
  assert (persists w' = true) as Hpers.
  { unfold persists. rewrite Hm.
    rewrite (bool_decide_eq_false_2 (files_to_write w' = ∅)) by set_solver.
    by destruct Hmode as [-> | ->]. }
  rewrite Hpers in Hwrite. unfold _write_modified_files_to_disk in Hwrite.
  destruct (write_files w' (set_iter (files_to_write w')) d) as [r d1] eqn:Hloop.
  destruct r as [[]|e]; [|done]. injection Hwrite as <-.
  apply (write_files_read _ _ _ _ Hloop Hnd). by apply set_iter_elem.
Qed.

(** *** The log and the pending input *)

(** [w'] is [w] with a longer log and with less pending input at most; the
    input is touched in the interactive mode only, and in the update mode
    nothing changes at all. *)
Definition echoes (w w' : writer) : Prop :=
  frame w w' ∧
  (∃ l, log w' = log w ++ l) ∧
  (∃ n, replies w' = drop n (replies w)) ∧
  (mode w ≠ Interactive → replies w' = replies w) ∧
  (mode w = Update → w' = w).

Lemma echoes_refl w : echoes w w.
Proof.
  split_and!; [apply frame_refl|exists []; by rewrite app_nil_r|by exists 0|done..].
Qed.

Lemma echoes_trans w1 w2 w3 : echoes w1 w2 → echoes w2 w3 → echoes w1 w3.
Proof.
  intros (Hf1 & [l1 Hl1] & [n1 Hn1] & Hr1 & Hu1) (Hf2 & [l2 Hl2] & [n2 Hn2] & Hr2 & Hu2).
  assert (mode w2 = mode w1) as Hm by apply Hf1.
  split_and!.
  - by eapply frame_trans.
  - exists (l1 ++ l2). by rewrite Hl2, Hl1, (assoc_L (++)).
  - exists (n1 + n2). by rewrite Hn2, Hn1, drop_drop.
  - intros Hni. rewrite Hr2, Hr1; congruence.
  - intros Hup. rewrite Hu2, Hu1; congruence.
Qed.

Lemma echoes_logger e w : mode w ≠ Update → echoes w (set_log (log w ++ [e]) w).
Proof.
  intros Hm. split_and!; [apply frame_set_log|by exists [e]|by exists 0|done..].
Qed.

Lemma echoes_frame w w' : echoes w w' → frame w w'.
Proof. by intros [? _]. Qed.

Lemma echoes_mode w w' : echoes w w' → mode w' = mode w.
Proof. by intros [(_&_&_&?&_) _]. Qed.

Lemma process_update_echoes e key v target w r w' :
  _process_update py_str e key v target w = Ok (r, w') → echoes w w'.
Proof.
  unfold _process_update. intros H. monad_inv.
  destruct (mode w) eqn:Hmode; monad_inv.
  - apply echoes_refl.
  - apply echoes_logger. congruence.
  - match goal with
    | H : _prompt_user_for_change _ _ _ _ = Ok (_, ?w1) |- _ =>
        assert (echoes w w1) as Hw1
    end.
    { match goal with
      | H : _prompt_user_for_change _ _ _ _ = Ok _ |- _ =>
          unfold _prompt_user_for_change in H;
          destruct (replies w) as [|line rest] eqn:Hrep; [done|];
          case_decide; injection H as _ <-
      end;
      (split_and!; [apply frame_set_replies|exists []; by rewrite app_nil_r
                   |exists 1; simpl; by rewrite Hrep|congruence|congruence]). }
    match goal with
    | H : match ?o with Some _ => _ | None => _ end _ = Ok _ |- _ =>
        destruct o; monad_inv
    end; done.
  - apply echoes_refl.
Qed.

Lemma update_fields_echoes target items e c w r w' :
  update_fields py_str target items e c w = Ok (r, w') → echoes w w'.
Proof.
  revert e c w. induction items as [|[key v] items IH]; intros e c w H;
    simpl in H.
  - monad_inv. apply echoes_refl.
  - destruct (truthy (default VNone (dict_get e key))); simpl in H; [by eapply IH|].
    monad_inv.
    match goal with
    | H : _process_update _ _ _ _ _ _ = Ok _ |- _ =>
        apply process_update_echoes in H
    end.
    eapply echoes_trans; [done|]. by eapply IH.
Qed.

Lemma update_column_echoes model_name ai c col w r w' :
  update_column py_str model_name ai c col w = Ok (r, w') → echoes w w'.
Proof.
  unfold update_column. destruct col as [| | | | |e]; try (intros; monad_inv; fail).
  intros H. monad_inv.
  match goal with
  | H : match ?o with Some _ => _ | None => _ end _ = Ok _ |- _ =>
      destruct o as [aic|]
  end.
  2:{ monad_inv. apply echoes_refl. }
  destruct (truthy aic); simpl in H.
  2:{ monad_inv. apply echoes_refl. }
  monad_inv.
  match goal with
  | H : (if _ && _ then _ else ret false) _ = Ok (?d, ?wd) |- _ =>
      rename H into Hdrift; rename wd into w0; destruct d
  end.
  - assert (mode w = Drift ∧ w0 = w) as [Hm ->].
    { revert Hdrift. case_bool_decide as Hm; simpl.
      - case_match; intros Hd; by monad_inv.
      - intros Hd. monad_inv. }
    monad_inv. apply echoes_logger. congruence.
  - assert (w0 = w) as ->.
    { revert Hdrift. case_match; intros Hd; by monad_inv. }
    monad_inv.
    match goal with
    | H : update_fields _ _ _ _ _ _ = Ok _ |- _ => by apply update_fields_echoes in H
    end.
Qed.

Lemma update_columns_echoes model_name ai cols c w r w' :
  update_columns py_str model_name ai cols c w = Ok (r, w') → echoes w w'.
Proof.
  revert c w r. induction cols as [|col cols IH]; intros c w r H;
    simpl in H; monad_inv; [apply echoes_refl|].
  match goal with
  | H : update_column _ _ _ _ _ _ = Ok _ |- _ => apply update_column_echoes in H
  end.
  match goal with
  | H : update_columns _ _ _ _ _ _ = Ok _ |- _ => apply IH in H
  end.
  by eapply echoes_trans.
Qed.

Lemma update_description_echoes model_name ai e w r w' :
  update_description py_str model_name ai e w = Ok (r, w') → echoes w w'.
Proof.
  unfold update_description.
  destruct (truthy (default VNone (dict_get e "description")));
    simpl; intros H; monad_inv; [apply echoes_refl|].
  match goal with
  | H : (if truthy ?d then _ else _) _ = Ok _ |- _ =>
      destruct (truthy d); monad_inv; [|apply echoes_refl]
  end.
  by eapply process_update_echoes.
Qed.

Lemma stub_fields_echoes target items e w e' w' :
  stub_fields py_str target items e w = Ok (e', w') → echoes w w'.
Proof.
  revert e w. induction items as [|[key v] items IH]; intros e w H; simpl in H;
    monad_inv; [apply echoes_refl|].
  match goal with
  | H : _process_update _ _ _ _ _ _ = Ok _ |- _ => apply process_update_echoes in H
  end.
  eapply echoes_trans; [done|]. by eapply IH.
Qed.

Lemma stub_columns_echoes model_name cols w cols' w' :
  stub_columns py_str model_name cols w = Ok (cols', w') → echoes w w'.
Proof.
  revert w cols'. induction cols as [|col cols IH]; intros w cols' H; simpl in H;
    monad_inv; [apply echoes_refl|].
  match goal with
  | H : stub_fields _ _ _ _ _ = Ok _ |- _ => apply stub_fields_echoes in H
  end.
  match goal with
  | H : stub_columns _ _ _ _ = Ok _ |- _ => apply IH in H
  end.
  by eapply echoes_trans.
Qed.

Lemma build_stub_echoes model_name ai w stub w' :
  build_stub py_str model_name ai w = Ok (stub, w') → echoes w w'.
Proof.
  unfold build_stub. intros H. monad_inv.
  match goal with
  | H : _process_update _ _ _ _ _ _ = Ok _ |- _ => apply process_update_echoes in H
  end.
  match goal with
  | H : stub_columns _ _ _ _ = Ok _ |- _ => apply stub_columns_echoes in H
  end.
  by eapply echoes_trans.
Qed.

(** *** The anatomy of an update *)

(** The node as [_update_existing_model_in_memory] leaves it: the columns
    are put back where the node has a list of columns. *)
Definition node_after (node1 : list (string * value)) (cols' : list value)
  : list (string * value) :=
  match dict_get node1 "columns" with
  | Some (VList _) => dict_set node1 "columns" (VList cols')
  | _ => node1
  end.

Lemma find_node_name items model_name k i e :
  find_node items model_name k = Ok (Some (i, e)) →
  py_eq (default VNone (dict_get e "name")) (VStr model_name) = true.
Proof.
  revert k. induction items as [|n items IH]; intros k; simpl; [done|].
  destruct n as [| | | | |entries]; try done.
  case_match eqn:Heq; [|apply IH]. by intros [= _ <-].
Qed.

(** Either the call returns at once, the writer being as it was, or it
    finds the node, goes through the description and the columns, and puts
    the node back. *)
Lemma update_existing_anatomy file_path model_name ai w b w' :
  _update_existing_model_in_memory py_str file_path model_name ai w
    = Ok (b, w') →
  (b = false ∧ w' = w ∧
   ∀ doc nodes, yaml_files w !! file_path = Some (VDict doc) →
                dict_get doc "models" = Some (VList nodes) →
                find_node nodes model_name 0 = Ok None) ∨
  ∃ doc nodes j node b1 node1 w1 cols cols' w2,
    yaml_files w !! file_path = Some (VDict doc) ∧
    dict_get doc "models" = Some (VList nodes) ∧
    find_node nodes model_name 0 = Ok (Some (j, node)) ∧
    nodes !! j = Some (VDict node) ∧
    update_description py_str model_name ai node w = Ok ((b1, node1), w1) ∧
    py_iter (default (VList []) (dict_get node1 "columns")) = Ok cols ∧
    update_columns py_str model_name ai cols b1 w1 = Ok ((b, cols'), w2) ∧
    yaml_files w' =
      <[file_path := VDict (dict_set doc "models"
                              (VList (<[j := VDict (node_after node1 cols')]> nodes)))]>
        (yaml_files w) ∧
    files_to_write w' =
      (if b then {[file_path]} ∪ files_to_write w else files_to_write w) ∧
    log w' = log w2 ∧ replies w' = replies w2 ∧ mode w' = mode w ∧
    model_to_file_map w' = model_to_file_map w.
Proof.
  unfold _update_existing_model_in_memory. intros H. monad_inv.
  destruct (yaml_files w !! file_path) as [data|] eqn:Hdata; monad_inv;
    [|left; by split_and!].
  destruct (truthy data) eqn:Htruthy; cbn [negb] in *; monad_inv.
  2:{ left. split_and!; try done. intros doc nodes [= ->] Hm.
      simpl in Htruthy. destruct doc; [done|].
      by rewrite bool_decide_eq_false_2 in Htruthy. }
  match goal with
  | H : match ?o with Some _ => _ | None => _ end _ = Ok _ |- _ =>
      destruct o as [[i node]|] eqn:Hfound; monad_inv
  end.
  2:{ left. split_and!; try done. intros doc nodes [= ->] Hm.
      match goal with
      | H1 : py_get _ "models" _ = Ok ?m, H2 : py_iter ?m = Ok ?l |- _ =>
          simpl in H1; rewrite Hm in H1; simpl in H1; injection H1 as <-;
          simpl in H2; injection H2 as <-
      end.
      match goal with H : find_node _ _ _ = Ok None |- _ => exact H end. }
  match goal with
  | H : find_node _ _ _ = Ok _ |- _ =>
      pose proof H as Hfind; pose proof (find_node_name _ _ _ _ _ H) as Hname;
      apply find_node_Some in H as (j & -> & Hj); simpl in Hj
  end.
  assert (truthy (VDict node) = true) as Hnode.
  { simpl. destruct node; [done|]. by rewrite bool_decide_eq_false_2. }
  rewrite Hnode in *. cbn [negb] in *. monad_inv.
  match goal with
  | H1 : py_get data "models" _ = Ok ?m, H2 : py_iter ?m = Ok ?l |- _ =>
      pose proof (py_iter_lookup_dict _ _ _ _ H2 Hj) as ->;
      rename l into nodes; rename H1 into Hmodels
  end.
  destruct data as [| | | | |entries]; try discriminate Hmodels.
  simpl in Hmodels. injection Hmodels as Hmodels.
  assert (dict_get entries "models" = Some (VList nodes)) as Hget.
  { destruct (dict_get entries "models"); simpl in Hmodels; [congruence|].
    injection Hmodels as <-. done. }
  clear Hmodels. rewrite Hget in *. change (0 + j) with j in *.
  right.
  match goal with
  | H : update_description _ _ _ _ _ = Ok ((?b1, ?n1), ?w1) |- _ =>
      exists entries, nodes, j, node, b1, n1, w1; rename H into Hdesc
  end.
  match goal with
  | H1 : py_iter _ = Ok ?cols,
    H : update_columns _ _ _ _ _ _ = Ok ((_, ?cols'), ?w2) |- _ =>
      exists cols, cols', w2; rename H into Hcols
  end.
  cbn [fst snd] in *.
  assert (echoes w w2) as Hech.
  { eapply echoes_trans; [by eapply update_description_echoes|].
    by eapply update_columns_echoes. }
  destruct Hech as ((Hy & Hf & Hmap & Hmo & _) & _).
  match goal with
  | H : (if b then _ else _) _ = Ok _ |- _ => destruct b; monad_inv; simpl
  end; unfold node_after; rewrite ?Hy, ?Hf, ?Hmap, ?Hmo; split_and!; done.
Qed.

(** *** The check mode *)

Lemma process_update_check e key v target w b e' w' :
  mode w = Check →
  _process_update py_str e key v target w = Ok ((b, e'), w') →
  b = true ∧ e' = e.
Proof.
  intros Hm H. unfold _process_update in H. monad_inv. rewrite Hm in H.
  by monad_inv.
Qed.

Lemma update_fields_check target items e c w b e' w' :
  mode w = Check →
  update_fields py_str target items e c w = Ok ((b, e'), w') → e' = e.
Proof.
  revert e c w. induction items as [|[key v] items IH]; intros e c w Hm H;
    simpl in H.
  - by monad_inv.
  - destruct (truthy (default VNone (dict_get e key))); simpl in H; [by eapply IH|].
    monad_inv.
    match goal with
    | H : _process_update _ _ _ _ _ _ = Ok _ |- _ =>
        pose proof (process_update_echoes _ _ _ _ _ _ _ H) as Hech;
        apply process_update_check in H as [-> ->]; [|done]
    end.
    eapply IH; [|done]. by rewrite (echoes_mode _ _ Hech).
Qed.

Lemma update_column_check model_name ai c col w b col' w' :
  mode w = Check →
  update_column py_str model_name ai c col w = Ok ((b, col'), w') → col' = col.
Proof.
  intros Hm. unfold update_column.
  destruct col as [| | | | |e]; try (intros; monad_inv; fail).
  intros H. monad_inv.
  match goal with
  | H : match ?o with Some _ => _ | None => _ end _ = Ok _ |- _ =>
      destruct o as [aic|]
  end.
  2:{ by monad_inv. }
  destruct (truthy aic); simpl in H.
  2:{ by monad_inv. }
  monad_inv. rewrite Hm in *. simpl in *. monad_inv.
  match goal with
  | H : update_fields _ _ _ _ _ _ = Ok _ |- _ =>
      apply update_fields_check in H as ->; [done|done]
  end.
Qed.

Lemma update_columns_check model_name ai cols c w b cols' w' :
  mode w = Check →
  update_columns py_str model_name ai cols c w = Ok ((b, cols'), w') →
  cols' = cols.
Proof.
  revert c w b cols'. induction cols as [|col cols IH]; intros c w b cols' Hm H;
    simpl in H; monad_inv; [done|].
  match goal with
  | H : update_column _ _ _ _ _ _ = Ok _ |- _ =>
      pose proof (update_column_echoes _ _ _ _ _ _ _ H) as Hech;
      apply update_column_check in H as ->; [|done]
  end.
  match goal with
  | H : update_columns _ _ _ _ _ _ = Ok _ |- _ =>
      apply IH in H as ->; [done|by rewrite (echoes_mode _ _ Hech)]
  end.
Qed.

Lemma update_description_check model_name ai e w b e' w' :
  mode w = Check →
  update_description py_str model_name ai e w = Ok ((b, e'), w') → e' = e.
Proof.
  intros Hm. unfold update_description.
  destruct (truthy (default VNone (dict_get e "description")));
    simpl; intros H; monad_inv; [done|].
  match goal with
  | H : (if truthy ?d then _ else _) _ = Ok _ |- _ =>
      destruct (truthy d); monad_inv; [|done]
  end.
  match goal with
  | H : _process_update _ _ _ _ _ _ = Ok _ |- _ =>
      by apply process_update_check in H as [_ ->]
  end.
Qed.

(** Putting back a node whose columns are as they were changes nothing. *)
Lemma node_after_same node cols :
  py_iter (default (VList []) (dict_get node "columns")) = Ok cols →
  node_after node cols = node.
Proof.
  unfold node_after. destruct (dict_get node "columns") as [[| | | |l|]|] eqn:Hc;
    try done.
  simpl. intros [= ->]. by apply dict_set_id.
Qed.

Lemma put_back_same (files : gmap string value) file_path doc nodes j node :
  files !! file_path = Some (VDict doc) →
  dict_get doc "models" = Some (VList nodes) →
  nodes !! j = Some (VDict node) →
  <[file_path := VDict (dict_set doc "models"
                          (VList (<[j := VDict node]> nodes)))]> files = files.
Proof.
  intros Hf Hm Hj. rewrite list_insert_id by done.
  rewrite dict_set_id by done. by apply insert_id.
Qed.

Lemma update_existing_check file_path model_name ai w b w' :
  mode w = Check →
  _update_existing_model_in_memory py_str file_path model_name ai w
    = Ok (b, w') →
  yaml_files w' = yaml_files w ∧ replies w' = replies w ∧ mode w' = mode w ∧
  model_to_file_map w' = model_to_file_map w.
Proof.
  intros Hm H. apply update_existing_anatomy in H
    as [(_ & -> & _)|(doc & nodes & j & node & b1 & node1 & w1 & cols & cols' & w2
                      & Hdoc & Hmodels & _ & Hj & Hdesc & Hiter & Hcols
                      & Hy & _ & _ & Hr & Hmo & Hmap)]; [done|].
  pose proof (update_description_echoes _ _ _ _ _ _ Hdesc) as Hech1.
  pose proof (update_columns_echoes _ _ _ _ _ _ _ Hcols) as Hech2.
  apply update_description_check in Hdesc as ->; [|done].
  apply update_columns_check in Hcols as ->;
    [|by rewrite (echoes_mode _ _ Hech1)].
  split_and!; try done.
  - rewrite Hy, node_after_same by done. by apply put_back_same.
  - destruct (echoes_trans _ _ _ Hech1 Hech2) as (_ & _ & _ & Hrep & _).
    rewrite Hr. apply Hrep. congruence.
Qed.

Lemma update_loop_check catalog_data names acc w b w' :
  mode w = Check →
  update_loop py_str catalog_data names acc w = Ok (b, w') →
  yaml_files w' = yaml_files w ∧ replies w' = replies w ∧ mode w' = mode w ∧
  model_to_file_map w' = model_to_file_map w.
Proof.
  revert acc w. induction names as [|name names IH]; intros acc w Hm H;
    simpl in H; monad_inv; [done|].
  match goal with
  | H : _update_existing_model_in_memory _ _ _ _ _ = Ok _ |- _ =>
      apply update_existing_check in H as (Hy & Hr & Hmo & Hmap); [|done]
  end.
  apply IH in H as (Hy' & Hr' & Hmo' & Hmap'); [|congruence].
  split_and!; congruence.
Qed.

Lemma create_loop_check_log catalog_data names acc w b w' :
  mode w = Check →
  create_loop py_str catalog_data names acc w = Ok (b, w') →
  b = (if decide (names = []) then acc else true) ∧
  yaml_files w' = yaml_files w ∧ replies w' = replies w ∧
  log w' = log w ++ (Warn_missing_model <$> names) ∧
  model_to_file_map w' = model_to_file_map w.
Proof.
  revert acc w. induction names as [|name names IH]; intros acc w Hm H;
    simpl in H; monad_inv.
  - by rewrite app_nil_r.
  - match goal with
    | H : _create_new_model_stub_in_memory _ _ _ _ = Ok _ |- _ =>
        unfold _create_new_model_stub_in_memory in H; monad_inv;
        rewrite Hm in H; simpl in H; monad_inv
    end.
    apply IH in H as (-> & Hy & Hr & Hl & Hmap); [|done].
    split_and!; try done.
    + by case_decide.
    + rewrite Hl. simpl. by rewrite <- (assoc_L (++)).
Qed.

(** In the check mode the reconciliation is a dry run: the documents in
    memory stay as they were loaded, and no input is read. *)
Theorem check_mode_is_a_dry_run
    (catalog_data : gmap string value) (w : writer) (b : bool) (w' : writer) :
  mode w = Check →
  reconcile_models py_str set_iter catalog_data w = Ok (b, w') →
  yaml_files w' = yaml_files w ∧ replies w' = replies w ∧
  model_to_file_map w' = model_to_file_map w.
Proof.
  intros Hm H. unfold reconcile_models in H. monad_inv.
  match goal with
  | H : update_loop _ _ _ _ _ = Ok _ |- _ =>
      apply update_loop_check in H as (Hy & Hr & Hmo & Hmap); [|done]
  end.
  case_bool_decide; [|by monad_inv].
  apply create_loop_check_log in H as (_ & Hy' & Hr' & _ & Hmap'); [|congruence].
  split_and!; congruence.
Qed.

(** In the check mode every model of the catalog that the documentation
    does not know makes the result true and is named in a warning; the
    loop over these models cannot fail. *)
Theorem check_mode_reports_missing_models
    (catalog_data : gmap string value) (w : writer) :
  (∀ s, set_iter s ≡ₚ elements s) →
  mode w = Check →
  (∀ b w' name,
     reconcile_models py_str set_iter catalog_data w = Ok (b, w') →
     name ∈ dom catalog_data → name ∉ dom (model_to_file_map w) →
     b = true ∧ Warn_missing_model name ∈ log w') ∧
  (∀ is_outdated w0,
     mode w0 = Check →
     ∃ w',
       create_loop py_str catalog_data
         (set_iter (dom catalog_data ∖ dom (model_to_file_map w))) is_outdated w0
       = Ok (if decide (set_iter (dom catalog_data ∖ dom (model_to_file_map w)) = [])
             then is_outdated else true, w')).
Proof.
  intros Hperm Hm. split.
  - intros b w' name H Hcat Hdoc. unfold reconcile_models in H. monad_inv.
    match goal with
    | H : update_loop _ _ _ _ _ = Ok _ |- _ =>
        apply update_loop_check in H as (_ & _ & Hmo & _); [|done]
    end.
    assert (name ∈ dom catalog_data ∖ dom (model_to_file_map w)) as Hin
      by set_solver.
    rewrite bool_decide_eq_true_2 in H by set_solver.
    apply create_loop_check_log in H as (-> & _ & _ & Hl & _); [|congruence].
    apply (set_iter_elem set_iter _ _ Hperm) in Hin. split.
    + case_decide as Hnil; [|done]. rewrite Hnil in Hin.
      by apply elem_of_nil in Hin.
    + rewrite Hl. apply elem_of_app. right. apply list_elem_of_fmap. by exists name.
  - intros is_outdated w0 Hm0.
    destruct (create_loop_check py_str catalog_data
                (set_iter (dom catalog_data ∖ dom (model_to_file_map w)))
                is_outdated w0 Hm0) as (w' & Hloop & _); [|by exists w'].
    apply Forall_forall. intros name Hin.
    apply (set_iter_elem set_iter _ _ Hperm) in Hin. apply elem_of_dom. set_solver.
Qed.

(** *** The update mode *)

(** The value of a field after the update: a truthy value stays; otherwise
    the suggestion, if there is one, takes its place. *)
Definition filled (old suggestion : option value) : option value :=
  if truthy (default VNone old) then old
  else match suggestion with
       | Some v => Some v
       | None => old
       end.

Lemma dict_get_absent (l : list (string * value)) k :
  k ∉ l.*1 → dict_get l k = None.
Proof.
  induction l as [|[k' v] l IH]; [done|]. simpl.
  intros [Hne Hl]%not_elem_of_cons. rewrite decide_False by done. by apply IH.
Qed.

Lemma update_fields_fills target items e c w b e' w' :
  mode w = Update → NoDup items.*1 →
  update_fields py_str target items e c w = Ok ((b, e'), w') →
  ∀ key, dict_get e' key = filled (dict_get e key) (dict_get items key).
Proof.
  intros Hm. revert e c. induction items as [|[k v0] items IH];
    intros e c Hnd H key; simpl in H.
  - monad_inv. unfold filled. simpl. by case_match.
  - apply NoDup_cons in Hnd as [Hk Hnd].
    destruct (truthy (default VNone (dict_get e k))) eqn:Hslot; simpl in H.
    + rewrite (IH _ _ Hnd H key). simpl. unfold filled.
      destruct (decide (k = key)) as [<-|Hne]; [|done]. by rewrite Hslot.
    + unfold bind in H. rewrite process_update_applies in H by done.
      simpl in H. rewrite (IH _ _ Hnd H key). simpl. unfold filled.
      destruct (decide (k = key)) as [<-|Hne].
      * rewrite dict_get_set_eq, Hslot, dict_get_absent by done. simpl.
        by case_match.
      * by rewrite dict_get_set_ne.
Qed.

Lemma find_ai_column_named candidates col_name c :
  find_ai_column candidates col_name = Ok (Some c) →
  ∃ ce x, c = VDict ce ∧ dict_get ce "name" = Some x.
Proof.
  induction candidates as [|x rest IH]; simpl; [done|].
  destruct (py_getitem x "name") as [n|] eqn:Hn; [|done].
  case_match; [|done]. intros [= <-].
  destruct x as [| | | | |ce]; try done. simpl in Hn.
  destruct (dict_get ce "name") as [y|] eqn:Hy; [|done]. by exists ce, y.
Qed.

Lemma find_ai_column_truthy candidates col_name c :
  find_ai_column candidates col_name = Ok (Some c) → truthy c = true.
Proof.
  intros (ce & x & -> & Hx)%find_ai_column_named. simpl.
  destruct ce; [done|]. by rewrite bool_decide_eq_false_2.
Qed.

(** What the update mode makes of one column. *)
Definition column_filled (ai : value) (col col' : list (string * value)) : Prop :=
  ∃ ai_columns candidates found,
    py_get ai "columns" (VList []) = Ok ai_columns ∧
    py_iter ai_columns = Ok candidates ∧
    find_ai_column candidates (default VNone (dict_get col "name")) = Ok found ∧
    match found with
    | None => col' = col
    | Some ai_column =>
        ∃ fields,
          py_get ai_column "ai_generated" (VDict []) = Ok (VDict fields) ∧
          (NoDup fields.*1 →
           ∀ key, dict_get col' key = filled (dict_get col key) (dict_get fields key))
    end.

Lemma update_column_fills model_name ai c col w b col' w' :
  mode w = Update →
  update_column py_str model_name ai c col w = Ok ((b, col'), w') →
  ∃ e e', col = VDict e ∧ col' = VDict e' ∧ column_filled ai e e'.
Proof.
  intros Hm. unfold update_column.
  destruct col as [| | | | |e]; try (intros; monad_inv; fail).
  intros H. monad_inv.
  match goal with
  | H1 : py_get ai "columns" _ = Ok ?x, H2 : py_iter ?x = Ok ?y,
    H3 : find_ai_column ?y _ = Ok ?f |- _ =>
      rename x into ai_columns; rename y into candidates; rename f into found;
      rename H1 into Hget; rename H2 into Hiter; rename H3 into Hfound
  end.
  destruct found as [aic|].
  2:{ monad_inv. exists e, e. split_and!; try done.
      exists ai_columns, candidates, None. by split_and!. }
  rewrite (find_ai_column_truthy _ _ _ Hfound) in H. simpl in H.
  monad_inv. rewrite Hm in *. simpl in *. monad_inv.
  match goal with
  | H1 : py_get aic "ai_generated" _ = Ok ?g, H2 : py_items ?g = Ok ?items,
    H : update_fields _ _ _ _ _ _ = Ok ((_, ?e1), _) |- _ =>
      destruct g; try discriminate H2; simpl in H2; injection H2 as ->;
      exists e, e1; split_and!; try done;
      exists ai_columns, candidates, (Some aic); split_and!; try done;
      exists items; split; [done|]; intros Hnd; by eapply update_fields_fills
  end.
Qed.

Lemma update_columns_fills model_name ai cols c w b cols' w' :
  mode w = Update →
  update_columns py_str model_name ai cols c w = Ok ((b, cols'), w') →
  Forall2 (fun col col' =>
             ∃ e e', col = VDict e ∧ col' = VDict e' ∧ column_filled ai e e')
    cols cols'.
Proof.
  intros Hm. revert c w b cols' Hm.
  induction cols as [|col cols IH]; intros c w b cols' Hm H;
    simpl in H; monad_inv; [constructor|].
  match goal with
  | H : update_column _ _ _ _ _ _ = Ok _ |- _ =>
      pose proof (update_column_echoes _ _ _ _ _ _ _ H) as Hech;
      apply update_column_fills in H; [|done]
  end.
  match goal with
  | H : update_columns _ _ _ _ _ _ = Ok _ |- _ =>
      apply IH in H; [|by rewrite (echoes_mode _ _ Hech)]
  end.
  by constructor.
Qed.

Lemma update_description_fills model_name ai e w b e' w' :
  mode w = Update →
  update_description py_str model_name ai e w = Ok ((b, e'), w') →
  (∀ k, k ≠ "description" → dict_get e' k = dict_get e k) ∧
  ∀ d, py_get ai "model_description" VNone = Ok d →
       dict_get e' "description"
       = filled (dict_get e "description") (if truthy d then Some d else None).
Proof.
  intros Hm H.
  split; [by apply update_description_spec in H as (_&_&_&_&_&?)|].
  intros d Hd. unfold update_description in H. unfold filled.
  destruct (truthy (default VNone (dict_get e "description"))) eqn:Hslot;
    simpl in H; monad_inv; [done|].
  match goal with
  | H1 : py_get ai "model_description" VNone = Ok ?x |- _ =>
      rewrite Hd in H1; injection H1 as <-
  end.
  destruct (truthy d); monad_inv; [|done].
  rewrite process_update_applies in H by done. monad_inv.
  apply dict_get_set_eq.
Qed.

(** In the update mode, [_update_existing_model_in_memory] fills every gap
    of the node of the model for which the catalog has a suggestion, and
    nothing else: the description when it is empty and the suggested one is
    not, and, in each column that the catalog knows by its name, every
    suggested field whose value is empty; all other fields of the node and
    of its columns are as they were. *)
Theorem update_mode_fills_the_gaps
    (file_path model_name : string) (ai : value) (w : writer) (b : bool)
    (w' : writer) (doc : list (string * value)) (nodes : list value) (j : nat)
    (node : list (string * value)) :
  mode w = Update →
  _update_existing_model_in_memory py_str file_path model_name ai w
    = Ok (b, w') →
  yaml_files w !! file_path = Some (VDict doc) →
  dict_get doc "models" = Some (VList nodes) →
  find_node nodes model_name 0 = Ok (Some (j, node)) →
  ∃ node',
    yaml_files w' =
      <[file_path := VDict (dict_set doc "models"
                              (VList (<[j := VDict node']> nodes)))]>
        (yaml_files w) ∧
    (∀ k, k ≠ "description" → k ≠ "columns" →
          dict_get node' k = dict_get node k) ∧
    (∀ d, py_get ai "model_description" VNone = Ok d →
          dict_get node' "description"
          = filled (dict_get node "description")
                   (if truthy d then Some d else None)) ∧
    Forall2 (fun col col' =>
               ∃ e e', col = VDict e ∧ col' = VDict e' ∧ column_filled ai e e')
      (columns_of node) (columns_of node').
Proof.
  intros Hm H Hdoc Hmodels Hfind.
  apply update_existing_anatomy in H
    as [(_ & _ & Hnone)|(doc0 & nodes0 & j0 & node0 & b1 & node1 & w1 & cols & cols'
                         & w2 & Hdoc0 & Hmodels0 & Hfind0 & Hj & Hdesc & Hiter
                         & Hcols & Hy & _)].
  { rewrite (Hnone _ _ Hdoc Hmodels) in Hfind. done. }
  rewrite Hdoc in Hdoc0. injection Hdoc0 as <-.
  rewrite Hmodels in Hmodels0. injection Hmodels0 as <-.
  rewrite Hfind in Hfind0. injection Hfind0 as <- <-.
  pose proof (update_description_echoes _ _ _ _ _ _ Hdesc) as Hech.
  apply update_description_fills in Hdesc as [Hkeys Hd]; [|done].
  apply update_columns_fills in Hcols; [|by rewrite (echoes_mode _ _ Hech)].
  exists (node_after node1 cols'). split; [done|].
  assert (columns_of node1 = columns_of node) as Hcn.
  { unfold columns_of. by rewrite Hkeys. }
  unfold node_after.
  destruct (dict_get node1 "columns") as [cv|] eqn:Hcv.
  - assert (∀ k, k ≠ "columns" →
              dict_get (dict_set node1 "columns" (VList cols')) k
              = dict_get node1 k) as Hset.
    { intros k Hk. by rewrite dict_get_set_ne. }
    destruct cv as [| | | |l|];
      try (split_and!;
           [intros k Hk1 Hk2; by apply Hkeys|done
           |rewrite <- Hcn; apply Forall2_refl_all; intros x; unfold columns_of;
            rewrite Hcv; simpl; fail]).
    all: try (split_and!; [intros k Hk1 Hk2; by apply Hkeys|done|];
              rewrite <- Hcn; unfold columns_of; rewrite Hcv; constructor).
    simpl in Hiter. injection Hiter as <-. split_and!.
    + intros k Hk1 Hk2. rewrite Hset by done. by apply Hkeys.
    + intros d Hdd. rewrite Hset by done. by apply Hd.
    + rewrite <- Hcn. unfold columns_of at 2. rewrite dict_get_set_eq.
      unfold columns_of. by rewrite Hcv.
  - split_and!; [intros k Hk1 Hk2; by apply Hkeys|done|].
    rewrite <- Hcn. unfold columns_of. rewrite Hcv. constructor.
Qed.

(** *** The interactive mode *)

(** A reply that skips the suggestion: [s] or [S]. *)
Definition skips (line : string) : Prop := str_lower line = "s".

Lemma prompt_skip target key text w r w' :
  Forall skips (replies w) →
  _prompt_user_for_change target key text w = Ok (r, w') →
  r = None ∧ Forall skips (replies w').
Proof.
  unfold _prompt_user_for_change. intros Hall.
  destruct (replies w) as [|line rest] eqn:Hrep; [done|].
  apply Forall_cons in Hall as [Hline Hrest].
  assert (line ≠ "") as Hne by (by intros ->).
  rewrite (decide_False (P := line = "")) by done.
  rewrite decide_True by done. by intros [= <- <-].
Qed.

Lemma process_update_skip e key v target w b e' w' :
  mode w = Interactive → Forall skips (replies w) →
  _process_update py_str e key v target w = Ok ((b, e'), w') →
  b = false ∧ e' = e ∧ Forall skips (replies w').
Proof.
  intros Hm Hall H. unfold _process_update in H. monad_inv. rewrite Hm in H.
  monad_inv.
  match goal with
  | H : _prompt_user_for_change _ _ _ _ = Ok _ |- _ =>
      apply prompt_skip in H as [-> Hall']; [|done]
  end.
  by monad_inv.
Qed.

Lemma update_fields_skip target items e c w b e' w' :
  mode w = Interactive → Forall skips (replies w) →
  update_fields py_str target items e c w = Ok ((b, e'), w') →
  b = c ∧ e' = e ∧ Forall skips (replies w').
Proof.
  revert e c w. induction items as [|[key v] items IH]; intros e c w Hm Hall H;
    simpl in H.
  - by monad_inv.
  - destruct (truthy (default VNone (dict_get e key))); simpl in H; [by eapply IH|].
    monad_inv.
    match goal with
    | H : _process_update _ _ _ _ _ _ = Ok _ |- _ =>
        pose proof (process_update_echoes _ _ _ _ _ _ _ H) as Hech;
        apply process_update_skip in H as (-> & -> & Hall'); [|done..]
    end.
    eapply IH; [|done..]. by rewrite (echoes_mode _ _ Hech).
Qed.

Lemma update_column_skip model_name ai c col w b col' w' :
  mode w = Interactive → Forall skips (replies w) →
  update_column py_str model_name ai c col w = Ok ((b, col'), w') →
  b = c ∧ col' = col ∧ Forall skips (replies w').
Proof.
  intros Hm Hall. unfold update_column.
  destruct col as [| | | | |e]; try (intros; monad_inv; fail).
  intros H. monad_inv.
  match goal with
  | H : match ?o with Some _ => _ | None => _ end _ = Ok _ |- _ =>
      destruct o as [aic|]
  end.
  2:{ by monad_inv. }
  destruct (truthy aic); simpl in H.
  2:{ by monad_inv. }
  monad_inv. rewrite Hm in *. simpl in *. monad_inv.
  match goal with
  | H : update_fields _ _ _ _ _ _ = Ok _ |- _ =>
      by apply update_fields_skip in H as (-> & -> & ?)
  end.
Qed.

Lemma update_columns_skip model_name ai cols c w b cols' w' :
  mode w = Interactive → Forall skips (replies w) →
  update_columns py_str model_name ai cols c w = Ok ((b, cols'), w') →
  b = c ∧ cols' = cols ∧ Forall skips (replies w').
Proof.
  revert c w b cols'. induction cols as [|col cols IH];
    intros c w b cols' Hm Hall H; simpl in H; monad_inv; [done|].
  match goal with
  | H : update_column _ _ _ _ _ _ = Ok _ |- _ =>
      pose proof (update_column_echoes _ _ _ _ _ _ _ H) as Hech;
      apply update_column_skip in H as (-> & -> & Hall'); [|done..]
  end.
  match goal with
  | H : update_columns _ _ _ _ _ _ = Ok _ |- _ =>
      apply IH in H as (-> & -> & ?);
        [done|by rewrite (echoes_mode _ _ Hech)|done]
  end.
Qed.

Lemma update_description_skip model_name ai e w b e' w' :
  mode w = Interactive → Forall skips (replies w) →
  update_description py_str model_name ai e w = Ok ((b, e'), w') →
  b = false ∧ e' = e ∧ Forall skips (replies w').
Proof.
  intros Hm Hall. unfold update_description.
  destruct (truthy (default VNone (dict_get e "description")));
    simpl; intros H; monad_inv; [done|].
  match goal with
  | H : (if truthy ?d then _ else _) _ = Ok _ |- _ =>
      destruct (truthy d); monad_inv; [|done]
  end.
  by eapply process_update_skip.
Qed.

Lemma update_existing_skip file_path model_name ai w b w' :
  mode w = Interactive → Forall skips (replies w) →
  _update_existing_model_in_memory py_str file_path model_name ai w
    = Ok (b, w') →
  b = false ∧ yaml_files w' = yaml_files w ∧
  files_to_write w' = files_to_write w ∧ Forall skips (replies w') ∧
  mode w' = mode w ∧ model_to_file_map w' = model_to_file_map w.
Proof.
  intros Hm Hall H. apply update_existing_anatomy in H
    as [(-> & -> & _)|(doc & nodes & j & node & b1 & node1 & w1 & cols & cols' & w2
                      & Hdoc & Hmodels & _ & Hj & Hdesc & Hiter & Hcols
                      & Hy & Hf & _ & Hr & Hmo & Hmap)]; [done|].
  pose proof (update_description_echoes _ _ _ _ _ _ Hdesc) as Hech1.
  apply update_description_skip in Hdesc as (-> & -> & Hall1); [|done..].
  apply update_columns_skip in Hcols as (-> & -> & Hall2);
    [|by rewrite (echoes_mode _ _ Hech1)|done].
  split_and!; try done.
  - rewrite Hy, node_after_same by done. by apply put_back_same.
  - by rewrite Hr.
Qed.

Lemma update_loop_skip catalog_data names acc w b w' :
  mode w = Interactive → Forall skips (replies w) →
  update_loop py_str catalog_data names acc w = Ok (b, w') →
  b = acc ∧ yaml_files w' = yaml_files w ∧
  files_to_write w' = files_to_write w ∧ Forall skips (replies w').
Proof.
  revert acc w. induction names as [|name names IH]; intros acc w Hm Hall H;
    simpl in H; monad_inv; [done|].
  match goal with
  | H : _update_existing_model_in_memory _ _ _ _ _ = Ok _ |- _ =>
      apply update_existing_skip in H as (-> & Hy & Hf & Hall' & Hmo & _);
        [|done..]
  end.
  apply IH in H as (-> & Hy' & Hf' & ?); [|congruence|done].
  split_and!; congruence.
Qed.

(** When the operator skips every suggestion, and every model of the
    catalog is documented, nothing changes: the result is false, the
    documents are as they were and no file is marked. *)
Theorem skipping_changes_nothing
    (catalog_data : gmap string value) (w : writer) (b : bool) (w' : writer) :
  mode w = Interactive → Forall skips (replies w) →
  dom catalog_data ⊆ dom (model_to_file_map w) →
  reconcile_models py_str set_iter catalog_data w = Ok (b, w') →
  b = false ∧ yaml_files w' = yaml_files w ∧
  files_to_write w' = files_to_write w.
Proof.
  intros Hm Hall Hsub H. unfold reconcile_models in H. monad_inv.
  match goal with
  | H : update_loop _ _ _ _ _ = Ok _ |- _ =>
      apply update_loop_skip in H as (-> & Hy & Hf & _); [|done..]
  end.
  rewrite bool_decide_eq_false_2 in H by set_solver. by monad_inv.
Qed.

Lemma stub_fields_skip target items e w e' w' :
  mode w = Interactive → Forall skips (replies w) →
  stub_fields py_str target items e w = Ok (e', w') →
  e' = e ∧ Forall skips (replies w').
Proof.
  revert e w. induction items as [|[key v] items IH]; intros e w Hm Hall H;
    simpl in H; monad_inv; [done|].
  match goal with
  | H : _process_update _ _ _ _ _ _ = Ok _ |- _ =>
      pose proof (process_update_echoes _ _ _ _ _ _ _ H) as Hech;
      apply process_update_skip in H as (_ & -> & Hall'); [|done..]
  end.
  eapply IH; [|done..]. by rewrite (echoes_mode _ _ Hech).
Qed.

(** A column stub that holds the name only. *)
Definition bare_column (c : value) : Prop := ∃ n, c = VDict [("name", n)].

Lemma stub_columns_skip model_name cols w cols' w' :
  mode w = Interactive → Forall skips (replies w) →
  stub_columns py_str model_name cols w = Ok (cols', w') →
  Forall bare_column cols' ∧ length cols' = length cols ∧
  Forall skips (replies w').
Proof.
  revert w cols'. induction cols as [|col cols IH]; intros w cols' Hm Hall H;
    simpl in H; monad_inv; [by split_and!|].
  match goal with
  | H : stub_fields _ _ _ _ _ = Ok _ |- _ =>
      pose proof (stub_fields_echoes _ _ _ _ _ _ H) as Hech;
      apply stub_fields_skip in H as (-> & Hall'); [|done..]
  end.
  match goal with
  | H : stub_columns _ _ _ _ = Ok _ |- _ =>
      apply IH in H as (Hbare & Hlen & ?);
        [|by rewrite (echoes_mode _ _ Hech)|done]
  end.
  split_and!; [|by simpl; rewrite Hlen|done].
  constructor; [by eexists|done].
Qed.

(** Skipping does not keep a stub from being made: the model without
    documentation gets a stub that holds its name and the names of its
    columns, and the file of the stub is marked. *)
Theorem skipped_stub_holds_the_names
    (model_name : string) (ai : value) (w : writer) (b : bool) (w' : writer)
    (sql_path : string) :
  mode w = Interactive → Forall skips (replies w) →
  _create_new_model_stub_in_memory py_str model_name ai w = Ok (b, w') →
  py_get ai "original_file_path" VNone = Ok (VStr sql_path) →
  sql_path ≠ "" →
  b = true ∧ stub_path sql_path ∈ files_to_write w' ∧
  ∃ cols data',
    Forall bare_column cols ∧
    yaml_files w' !! stub_path sql_path = Some data' ∧
    match yaml_files w !! stub_path sql_path with
    | Some data =>
        append_stub data
          (VDict [("name", VStr model_name); ("columns", VList cols)])
        = Ok data'
    | None =>
        data' = new_document
                  (VDict [("name", VStr model_name); ("columns", VList cols)])
    end.
Proof.
  intros Hm Hall H Hpath Hne.
  unfold _create_new_model_stub_in_memory in H. monad_inv.
  rewrite Hm in H. simpl in H. monad_inv.
  match goal with
  | H : build_stub _ _ _ _ = Ok (?s, ?w1) |- _ =>
      rename s into stub; rename w1 into w1';
      pose proof (build_stub_echoes _ _ _ _ _ H) as Hech;
      unfold build_stub in H; monad_inv
  end.
  match goal with
  | H : _process_update _ _ _ _ _ _ = Ok _ |- _ =>
      pose proof (process_update_echoes _ _ _ _ _ _ _ H) as Hech1;
      apply process_update_skip in H as (_ & -> & Hall1); [|done..]
  end.
  match goal with
  | H : stub_columns _ _ _ _ = Ok (?cs, _) |- _ =>
      rename cs into cols;
      apply stub_columns_skip in H as (Hbare & _ & _);
        [|by rewrite (echoes_mode _ _ Hech1)|done]
  end.
  cbn [fst snd] in *.
  change (dict_set [("name", VStr model_name)] "columns" (VList cols))
    with [("name", VStr model_name); ("columns", VList cols)] in *.
  apply place_stub_spec in H as (_ & _ & _ & _ & Hcase).
  destruct Hcase as [(_ & _ & _ & _ & p & Hp & Hfalsy)
                    |(-> & _ & p & data' & Hp & _ & Hy & Hf & Hdata)].
  { rewrite Hpath in Hp. injection Hp as <-. simpl in Hfalsy.
    by rewrite bool_decide_eq_false_2 in Hfalsy. }
  rewrite Hpath in Hp. injection Hp as <-.
  destruct Hech as ((Hy0 & _) & _).
  split_and!; [done|rewrite Hf; set_solver|].
  exists cols, data'. split_and!; [done|by rewrite Hy, lookup_insert_eq|].
  by rewrite <- Hy0.
Qed.

(** *** The drift mode *)

Lemma update_column_drift model_name ai c e w ai_columns candidates ai_column :
  mode w = Drift →
  truthy (default VNone (dict_get e "description")) = true →
  py_get ai "columns" (VList []) = Ok ai_columns →
  py_iter ai_columns = Ok candidates →
  find_ai_column candidates (default VNone (dict_get e "name"))
    = Ok (Some ai_column) →
  py_get ai_column "drift_status" VNone = Ok (VStr "DRIFT") →
  update_column py_str model_name ai c (VDict e) w
  = Ok ((true, VDict e),
        set_log (log w ++ [Warn_drift model_name
                             (default VNone (dict_get e "name"))]) w).
Proof.
  intros Hm Hdesc Hcols Hiter Hfound Hstatus.
  unfold update_column, bind at 1, lift. rewrite Hcols.
  unfold bind at 1. rewrite Hiter.
  unfold bind at 1. rewrite Hfound.
  rewrite (find_ai_column_truthy _ _ _ Hfound). simpl.
  unfold bind at 1, get_self. unfold bind at 1. rewrite Hm, Hdesc. simpl.
  unfold bind at 1, lift. rewrite Hstatus. done.
Qed.

Lemma update_columns_flag model_name ai cols c w b cols' w' :
  update_columns py_str model_name ai cols c w = Ok ((b, cols'), w') →
  c = true → b = true.
Proof.
  intros (_ & _ & _ & Hb & _)%update_columns_spec ->.
  destruct b; [done|]. by destruct (Hb eq_refl).
Qed.

Lemma update_columns_drift model_name ai cols c w b cols' w' k e
    ai_columns candidates ai_column :
  mode w = Drift →
  update_columns py_str model_name ai cols c w = Ok ((b, cols'), w') →
  cols !! k = Some (VDict e) →
  truthy (default VNone (dict_get e "description")) = true →
  py_get ai "columns" (VList []) = Ok ai_columns →
  py_iter ai_columns = Ok candidates →
  find_ai_column candidates (default VNone (dict_get e "name"))
    = Ok (Some ai_column) →
  py_get ai_column "drift_status" VNone = Ok (VStr "DRIFT") →
  b = true ∧ cols' !! k = Some (VDict e) ∧
  Warn_drift model_name (default VNone (dict_get e "name")) ∈ log w'.
Proof.
  intros Hm H Hk Hdesc Hcols Hiter Hfound Hstatus.
  revert c w b cols' k Hm H Hk.
  induction cols as [|col cols IH]; intros c w b cols' k Hm H Hk; [done|].
  simpl in H. monad_inv.
  match goal with
  | H : update_column _ _ _ _ _ _ = Ok _ |- _ => rename H into Hone
  end.
  match goal with
  | H : update_columns _ _ _ _ _ _ = Ok _ |- _ => rename H into Hrest
  end.
  cbn [fst snd] in *.
  pose proof (update_column_echoes _ _ _ _ _ _ _ Hone) as Hech.
  destruct k as [|k]; simpl in Hk.
  - injection Hk as ->.
    rewrite (update_column_drift _ _ _ _ _ _ _ _ Hm Hdesc Hcols Hiter Hfound
               Hstatus) in Hone.
    monad_inv.
    pose proof (update_columns_echoes _ _ _ _ _ _ _ Hrest)
      as (_ & [lg Hlg] & _).
    split_and!; [by eapply update_columns_flag|done|].
    rewrite Hlg. simpl. apply elem_of_app. left. apply elem_of_app. right.
    apply list_elem_of_here.
  - apply (IH _ _ _ _ k) in Hrest as (-> & Hk' & Hlog);
      [|by rewrite (echoes_mode _ _ Hech)|done].
    by split_and!.
Qed.

(** In the drift mode a column that has a description and a drift verdict
    in the catalog makes the result true, marks the file and is named in a
    warning; the column is left as it is. *)
Theorem drift_is_reported
    (file_path model_name : string) (ai : value) (w : writer) (b : bool)
    (w' : writer) (doc : list (string * value)) (nodes : list value) (j : nat)
    (node : list (string * value)) (k : nat) (col : list (string * value))
    (ai_columns : value) (candidates : list value) (ai_column : value) :
  mode w = Drift →
  _update_existing_model_in_memory py_str file_path model_name ai w
    = Ok (b, w') →
  yaml_files w !! file_path = Some (VDict doc) →
  dict_get doc "models" = Some (VList nodes) →
  find_node nodes model_name 0 = Ok (Some (j, node)) →
  columns_of node !! k = Some (VDict col) →
  truthy (default VNone (dict_get col "description")) = true →
  py_get ai "columns" (VList []) = Ok ai_columns →
  py_iter ai_columns = Ok candidates →
  find_ai_column candidates (default VNone (dict_get col "name"))
    = Ok (Some ai_column) →
  py_get ai_column "drift_status" VNone = Ok (VStr "DRIFT") →
  b = true ∧ file_path ∈ files_to_write w' ∧
  Warn_drift model_name (default VNone (dict_get col "name")) ∈ log w' ∧
  ∃ doc' node',
    yaml_files w' !! file_path = Some (VDict doc') ∧
    models_of doc' !! j = Some (VDict node') ∧
    columns_of node' !! k = Some (VDict col).
Proof.
  intros Hm H Hdoc Hmodels Hfind Hk Hdesc Hcols Hiter Hfound Hstatus.
  apply update_existing_anatomy in H
    as [(_ & _ & Hnone)|(doc0 & nodes0 & j0 & node0 & b1 & node1 & w1 & cols & cols'
                         & w2 & Hdoc0 & Hmodels0 & Hfind0 & Hj & Hd & Hit
                         & Hc & Hy & Hf & Hl & _)].
  { rewrite (Hnone _ _ Hdoc Hmodels) in Hfind. done. }
  rewrite Hdoc in Hdoc0. injection Hdoc0 as <-.
  rewrite Hmodels in Hmodels0. injection Hmodels0 as <-.
  rewrite Hfind in Hfind0. injection Hfind0 as <- <-.
  pose proof (update_description_echoes _ _ _ _ _ _ Hd) as Hech.
  apply update_description_spec in Hd as (_ & _ & _ & _ & _ & Hkeys).
  assert (∃ cl, dict_get node1 "columns" = Some (VList cl) ∧
                cl !! k = Some (VDict col)) as (cl & Hl1 & Hlk).
  { rewrite Hkeys by done. unfold columns_of in Hk.
    destruct (dict_get node "columns") as [[| | | |cl|]|]; try done.
    by exists cl. }
  rewrite Hl1 in Hit. simpl in Hit. injection Hit as <-.
  eapply update_columns_drift in Hc as (-> & Hk' & Hlog);
    [|by rewrite (echoes_mode _ _ Hech)|done..].
  split_and!; [done|rewrite Hf; set_solver|by rewrite Hl|].
  eexists _, (node_after node1 cols'). split_and!.
  - rewrite Hy. apply lookup_insert_eq.
  - unfold models_of. rewrite dict_get_set_eq.
    apply list_lookup_insert_eq. by eapply lookup_lt_Some.
  - unfold node_after, columns_of. rewrite Hl1, dict_get_set_eq. done.
Qed.

(** *** The input matters in the interactive mode only *)

(** The outcome of a method with the pending input of the writer replaced. *)
Definition with_replies {A} (r : list string) (res : result (A * writer))
  : result (A * writer) :=
  match res with
  | Ok (a, w') => Ok (a, set_replies r w')
  | Raise e => Raise e
  end.

(** A method that, outside the interactive mode, does the same whatever
    the pending input is, and leaves the mode as it is. *)
Definition oblivious {A} (m : M A) : Prop :=
  ∀ r w, mode w ≠ Interactive →
    m (set_replies r w) = with_replies r (m w) ∧
    ∀ a w', m w = Ok (a, w') → mode w' = mode w.

Lemma oblivious_ret {A} (a : A) : oblivious (ret a).
Proof. intros r w _. split; [done|]. by intros ? ? [= _ <-]. Qed.

Lemma oblivious_lift {A} (x : result A) : oblivious (lift x).
Proof.
  intros r w _. unfold lift. destruct x; split; try done. by intros ? ? [= _ <-].
Qed.

Lemma oblivious_bind {A B} (m : M A) (k : A → M B) :
  oblivious m → (∀ a, oblivious (k a)) → oblivious (bind m k).
Proof.
  intros Hm Hk r w Hmode. destruct (Hm r w Hmode) as [Heq Hmo].
  unfold bind. rewrite Heq. destruct (m w) as [[a w1]|e]; [|done]. simpl.
  assert (mode w1 ≠ Interactive) as Hmode1 by (rewrite (Hmo a w1); done).
  destruct (Hk a r w1 Hmode1) as [Heq1 Hmo1]. split; [done|].
  intros b w' Hb. rewrite (Hmo1 _ _ Hb). by apply (Hmo a).
Qed.

(** [self] is read for its attributes other than the pending input. *)
Lemma oblivious_get_self {A} (k : writer → M A) :
  (∀ r w, k (set_replies r w) = k w) → (∀ w, oblivious (k w)) →
  oblivious (bind get_self k).
Proof.
  intros Hread Hk r w Hmode. unfold bind, get_self. rewrite Hread.
  apply Hk, Hmode.
Qed.

Lemma oblivious_modify (f : writer → writer) :
  (∀ r w, f (set_replies r w) = set_replies r (f w)) →
  (∀ w, mode (f w) = mode w) →
  oblivious (modify f).
Proof.
  intros Hf Hm r w _. unfold modify. rewrite Hf. split; [done|].
  by intros ? ? [= _ <-].
Qed.

Lemma oblivious_logger e : oblivious (logger e).
Proof. by apply oblivious_modify. Qed.

Lemma process_update_oblivious e key v target :
  oblivious (_process_update py_str e key v target).
Proof.
  intros r w Hmode. unfold _process_update, bind, get_self. simpl.
  destruct (mode w) eqn:Hm; try done; split; try done;
    intros ? ? [= _ <-]; done.
Qed.

Lemma update_fields_oblivious target items e c :
  oblivious (update_fields py_str target items e c).
Proof.
  revert e c. induction items as [|[key v] items IH]; intros e c; simpl.
  - apply oblivious_ret.
  - case_match; [|apply IH].
    apply oblivious_bind; [apply process_update_oblivious|intros ?; apply IH].
Qed.

Lemma update_column_oblivious model_name ai c col :
  oblivious (update_column py_str model_name ai c col).
Proof.
  unfold update_column. destruct col; try apply oblivious_lift.
  apply oblivious_bind; [apply oblivious_lift|intros ?].
  apply oblivious_bind; [apply oblivious_lift|intros ?].
  apply oblivious_bind; [apply oblivious_lift|intros ?].
  case_match; [|apply oblivious_ret].
  case_match; [apply oblivious_ret|].
  apply oblivious_get_self; [done|intros self].
  apply oblivious_bind.
  { case_match; [|apply oblivious_ret].
    apply oblivious_bind; [apply oblivious_lift|intros ?; apply oblivious_ret]. }
  intros [|].
  - apply oblivious_bind; [apply oblivious_logger|intros ?; apply oblivious_ret].
  - apply oblivious_bind; [apply oblivious_lift|intros ?].
    apply oblivious_bind; [apply oblivious_lift|intros ?].
    apply oblivious_bind; [apply update_fields_oblivious|intros ?].
    apply oblivious_ret.
Qed.

Lemma update_columns_oblivious model_name ai cols c :
  oblivious (update_columns py_str model_name ai cols c).
Proof.
  revert c. induction cols as [|col cols IH]; intros c; simpl.
  - apply oblivious_ret.
  - apply oblivious_bind; [apply update_column_oblivious|intros ?].
    apply oblivious_bind; [apply IH|intros ?; apply oblivious_ret].
Qed.

Lemma update_description_oblivious model_name ai e :
  oblivious (update_description py_str model_name ai e).
Proof.
  unfold update_description. case_match; [|apply oblivious_ret].
  apply oblivious_bind; [apply oblivious_lift|intros ?].
  case_match; [apply process_update_oblivious|apply oblivious_ret].
Qed.

Lemma update_existing_oblivious file_path model_name ai :
  oblivious (_update_existing_model_in_memory py_str file_path model_name ai).
Proof.
  unfold _update_existing_model_in_memory.
  apply oblivious_get_self; [done|intros self].
  case_match; [|apply oblivious_ret].
  case_match; [apply oblivious_ret|].
  apply oblivious_bind; [apply oblivious_lift|intros ?].
  apply oblivious_bind; [apply oblivious_lift|intros ?].
  apply oblivious_bind; [apply oblivious_lift|intros found].
  destruct found as [[i node_config]|]; [|apply oblivious_ret].
  case_match; [apply oblivious_ret|].
  apply oblivious_bind; [apply update_description_oblivious|intros ?].
  apply oblivious_bind; [apply oblivious_lift|intros ?].
  apply oblivious_bind; [apply update_columns_oblivious|intros ?].
  apply oblivious_bind; [by apply oblivious_modify|intros ?].
  apply oblivious_bind; [|intros ?; apply oblivious_ret].
  case_match; [by apply oblivious_modify|apply oblivious_ret].
Qed.

Lemma stub_fields_oblivious target items e :
  oblivious (stub_fields py_str target items e).
Proof.
  revert e. induction items as [|[key v] items IH]; intros e; simpl.
  - apply oblivious_ret.
  - apply oblivious_bind; [apply process_update_oblivious|intros ?; apply IH].
Qed.

Lemma stub_columns_oblivious model_name cols :
  oblivious (stub_columns py_str model_name cols).
Proof.
  induction cols as [|col cols IH]; simpl.
  - apply oblivious_ret.
  - apply oblivious_bind; [apply oblivious_lift|intros ?].
    apply oblivious_bind; [apply oblivious_lift|intros ?].
    apply oblivious_bind; [apply oblivious_lift|intros ?].
    apply oblivious_bind; [apply stub_fields_oblivious|intros ?].
    apply oblivious_bind; [apply IH|intros ?; apply oblivious_ret].
Qed.

Lemma build_stub_oblivious model_name ai :
  oblivious (build_stub py_str model_name ai).
Proof.
  unfold build_stub.
  apply oblivious_bind; [apply oblivious_lift|intros ?].
  apply oblivious_bind; [apply process_update_oblivious|intros ?].
  apply oblivious_bind; [apply oblivious_lift|intros ?].
  apply oblivious_bind; [apply oblivious_lift|intros ?].
  apply oblivious_bind; [apply stub_columns_oblivious|intros ?].
  apply oblivious_ret.
Qed.

Lemma place_stub_oblivious model_name ai stub :
  oblivious (place_stub model_name ai stub).
Proof.
  unfold place_stub.
  apply oblivious_bind; [apply oblivious_lift|intros sql_path].
  case_match.
  { apply oblivious_bind; [apply oblivious_logger|intros ?; apply oblivious_ret]. }
  destruct sql_path; try apply oblivious_lift.
  apply oblivious_get_self; [done|intros self].
  apply oblivious_bind; [apply oblivious_lift|intros ?].
  apply oblivious_bind; [by apply oblivious_modify|intros ?].
  apply oblivious_bind; [by apply oblivious_modify|intros ?].
  apply oblivious_ret.
Qed.

Lemma create_stub_oblivious model_name ai :
  oblivious (_create_new_model_stub_in_memory py_str model_name ai).
Proof.
  unfold _create_new_model_stub_in_memory.
  apply oblivious_get_self; [done|intros self].
  case_match.
  - apply oblivious_bind; [apply oblivious_logger|intros ?; apply oblivious_ret].
  - apply oblivious_bind; [apply build_stub_oblivious|intros ?].
    apply place_stub_oblivious.
Qed.

Lemma update_loop_oblivious catalog_data names acc :
  oblivious (update_loop py_str catalog_data names acc).
Proof.
  revert acc. induction names as [|name names IH]; intros acc; simpl.
  - apply oblivious_ret.
  - apply oblivious_get_self; [done|intros self].
    apply oblivious_bind; [apply oblivious_lift|intros ?].
    apply oblivious_bind; [apply oblivious_lift|intros ?].
    apply oblivious_bind; [apply update_existing_oblivious|intros ?].
    apply IH.
Qed.

Lemma create_loop_oblivious catalog_data names acc :
  oblivious (create_loop py_str catalog_data names acc).
Proof.
  revert acc. induction names as [|name names IH]; intros acc; simpl.
  - apply oblivious_ret.
  - apply oblivious_bind; [apply oblivious_lift|intros ?].
    apply oblivious_bind; [apply create_stub_oblivious|intros ?].
    apply IH.
Qed.

Lemma reconcile_models_oblivious catalog_data :
  oblivious (reconcile_models py_str set_iter catalog_data).
Proof.
  unfold reconcile_models.
  apply oblivious_get_self; [done|intros self].
  apply oblivious_bind; [apply update_loop_oblivious|intros ?].
  case_match; [apply create_loop_oblivious|apply oblivious_ret].
Qed.

Lemma load_file_oblivious d file_path : oblivious (load_file d file_path).
Proof.
  unfold load_file.
  apply oblivious_bind; [apply oblivious_lift|intros c].
  destruct c as [|data]; [apply oblivious_lift|].
  case_match; [apply oblivious_ret|].
  apply oblivious_bind; [by apply oblivious_modify|intros ?].
  apply oblivious_get_self; [done|intros self].
  apply oblivious_bind; [apply oblivious_lift|intros ?].
  by apply oblivious_modify.
Qed.

Lemma load_files_oblivious d schema_files : oblivious (load_files d schema_files).
Proof.
  induction schema_files as [|file_path rest IH]; simpl.
  - apply oblivious_ret.
  - apply oblivious_bind; [apply load_file_oblivious|intros ?; apply IH].
Qed.

Lemma reconcile_oblivious catalog_data d :
  oblivious (reconcile py_str set_iter catalog_data d).
Proof.
  unfold reconcile, _load_and_map_existing_yamls.
  apply oblivious_bind; [|intros ?; apply reconcile_models_oblivious].
  apply oblivious_get_self; [done|intros self]. apply load_files_oblivious.
Qed.

Lemma write_files_replies input self paths d :
  write_files (set_replies input self) paths d = write_files self paths d.
Proof.
  revert d. induction paths as [|p paths IH]; intros d; simpl; [done|].
  destruct (yaml_files self !! p); [|done].
  destruct (open_write d p _); [apply IH|done].
Qed.

(** Outside the interactive mode [write] reads no input: whatever the
    operator might type, the result, the exception and the disk are the
    same. *)
Theorem input_matters_in_interactive_mode_only
    (catalog_data : gmap string value) (w : writer) (d : disk)
    (input : list string) :
  mode w ≠ Interactive →
  write py_str set_iter catalog_data (set_replies input w) d
  = write py_str set_iter catalog_data w d.
Proof.
  intros Hmode. unfold write.
  destruct (reconcile_oblivious catalog_data d input w Hmode) as [-> _].
  destruct (reconcile py_str set_iter catalog_data d w) as [[b w']|e]; [|done].
  simpl. unfold _write_modified_files_to_disk.
  by rewrite write_files_replies.
Qed.

(** *** Keys stay in place *)

(** [e'] has the keys of [e], in the same order, and then new keys. *)
Definition extends (e e' : list (string * value)) : Prop :=
  ∃ added, e'.*1 = e.*1 ++ added.

Definition col_extends (c c' : value) : Prop :=
  match c, c' with
  | VDict e, VDict e' => extends e e'
  | _, _ => c' = c
  end.

Lemma dict_set_keys e k v :
  (dict_set e k v).*1 = if decide (k ∈ e.*1) then e.*1 else e.*1 ++ [k].
Proof.
  induction e as [|[k' v'] e IH]; [done|].
  cbn [dict_set]. destruct (decide (k' = k)) as [->|Hne].
  - rewrite !fmap_cons. cbn [fst].
    rewrite decide_True; [done|]. apply list_elem_of_here.
  - rewrite !fmap_cons, IH. cbn [fst].
    destruct (decide (k ∈ e.*1)) as [Hin|Hout].
    + rewrite decide_True; [done|]. by apply list_elem_of_further.
    + rewrite decide_False; [done|].
      intros [?|?]%elem_of_cons; congruence.
Qed.

Lemma extends_refl e : extends e e.
Proof. exists []. by rewrite app_nil_r. Qed.

Lemma extends_trans e1 e2 e3 : extends e1 e2 → extends e2 e3 → extends e1 e3.
Proof.
  intros [a1 H1] [a2 H2]. exists (a1 ++ a2). by rewrite H2, H1, (assoc_L (++)).
Qed.

Lemma extends_set e k v : extends e (dict_set e k v).
Proof.
  unfold extends. rewrite dict_set_keys.
  case_decide; [exists []|exists [k]]; [|done]. by rewrite app_nil_r.
Qed.

Lemma col_extends_refl c : col_extends c c.
Proof. destruct c; try done. apply extends_refl. Qed.

Lemma process_update_extends e key v target w b e' w' :
  _process_update py_str e key v target w = Ok ((b, e'), w') → extends e e'.
Proof.
  intros (_ & [[_ ->]|[(_ & -> & _)|(_ & _ & x & -> & _)]])%process_update_spec;
    [apply extends_refl..|apply extends_set].
Qed.

Lemma update_fields_extends target items e c w b e' w' :
  update_fields py_str target items e c w = Ok ((b, e'), w') → extends e e'.
Proof.
  revert e c w. induction items as [|[key v] items IH]; intros e c w H;
    simpl in H.
  - monad_inv. apply extends_refl.
  - destruct (truthy (default VNone (dict_get e key))); simpl in H; [by eapply IH|].
    monad_inv.
    match goal with
    | H : _process_update _ _ _ _ _ _ = Ok _ |- _ =>
        apply process_update_extends in H
    end.
    eapply extends_trans; [done|]. by eapply IH.
Qed.

Lemma update_column_extends model_name ai c col w b col' w' :
  update_column py_str model_name ai c col w = Ok ((b, col'), w') →
  col_extends col col'.
Proof.
  unfold update_column. destruct col as [| | | | |e]; try (intros; monad_inv; fail).
  intros H. monad_inv.
  match goal with
  | H : match ?o with Some _ => _ | None => _ end _ = Ok _ |- _ =>
      destruct o as [aic|]
  end.
  2:{ monad_inv. apply extends_refl. }
  destruct (truthy aic); simpl in H.
  2:{ monad_inv. apply extends_refl. }
  monad_inv.
  match goal with
  | H : (if _ && _ then _ else ret false) _ = Ok (?d, ?wd) |- _ => destruct d
  end; monad_inv; [apply extends_refl|].
  match goal with
  | H : update_fields _ _ _ _ _ _ = Ok _ |- _ => by apply update_fields_extends in H
  end.
Qed.

Lemma update_columns_extends model_name ai cols c w b cols' w' :
  update_columns py_str model_name ai cols c w = Ok ((b, cols'), w') →
  Forall2 col_extends cols cols'.
Proof.
  revert c w b cols'. induction cols as [|col cols IH]; intros c w b cols' H;
    simpl in H; monad_inv; [constructor|].
  match goal with
  | H : update_column _ _ _ _ _ _ = Ok _ |- _ => apply update_column_extends in H
  end.
  match goal with
  | H : update_columns _ _ _ _ _ _ = Ok _ |- _ => apply IH in H
  end.
  by constructor.
Qed.

Lemma update_description_extends model_name ai e w b e' w' :
  update_description py_str model_name ai e w = Ok ((b, e'), w') →
  extends e e'.
Proof.
  unfold update_description.
  destruct (truthy (default VNone (dict_get e "description")));
    simpl; intros H; monad_inv; [apply extends_refl|].
  match goal with
  | H : (if truthy ?d then _ else _) _ = Ok _ |- _ =>
      destruct (truthy d); monad_inv; [|apply extends_refl]
  end.
  by eapply process_update_extends.
Qed.

Lemma dict_get_keys (e : list (string * value)) k v :
  dict_get e k = Some v → k ∈ e.*1.
Proof.
  induction e as [|[k' v'] e IH]; simpl; [done|].
  case_decide as Hk; [subst; intros _; apply list_elem_of_here|].
  intros ?. by apply list_elem_of_further, IH.
Qed.

Lemma dict_set_keys_same e k v x :
  dict_get e k = Some x → (dict_set e k v).*1 = e.*1.
Proof.
  intros Hk%dict_get_keys. by rewrite dict_set_keys, decide_True.
Qed.

(** An update of a model never removes or moves a key: the document has
    the keys it had, in their order; its [models] list has the nodes it
    had, at their places; every node has the keys it had, in their order,
    followed by the keys that were added, and so has every column. *)
Theorem update_keeps_the_keys_in_place
    (file_path model_name : string) (ai : value) (w : writer) (b : bool)
    (w' : writer) (doc : list (string * value)) :
  _update_existing_model_in_memory py_str file_path model_name ai w
    = Ok (b, w') →
  yaml_files w !! file_path = Some (VDict doc) →
  ∃ doc',
    yaml_files w' !! file_path = Some (VDict doc') ∧
    doc'.*1 = doc.*1 ∧
    length (models_of doc') = length (models_of doc) ∧
    ∀ i node, models_of doc !! i = Some (VDict node) →
      ∃ node', models_of doc' !! i = Some (VDict node') ∧
               extends node node' ∧
               Forall2 col_extends (columns_of node) (columns_of node').
Proof.
  intros H Hdoc. apply update_existing_anatomy in H
    as [(_ & -> & _)|(doc0 & nodes & j & node0 & b1 & node1 & w1 & cols & cols'
                      & w2 & Hdoc0 & Hmodels & _ & Hj & Hdesc & Hiter & Hcols
                      & Hy & _)].
  { exists doc. split_and!; try done. intros i node Hi. exists node.
    split_and!; [done|apply extends_refl|].
    apply Forall2_refl_all, col_extends_refl. }
  rewrite Hdoc in Hdoc0. injection Hdoc0 as <-.
  pose proof (update_description_spec _ _ _ _ _ _ _ _ Hdesc)
    as (_ & _ & _ & _ & _ & Hkeys).
  apply update_description_extends in Hdesc.
  apply update_columns_extends in Hcols.
  eexists. split; [rewrite Hy; apply lookup_insert_eq|].
  assert (models_of (dict_set doc "models"
                       (VList (<[j := VDict (node_after node1 cols')]> nodes)))
          = <[j := VDict (node_after node1 cols')]> nodes) as ->.
  { unfold models_of. by rewrite dict_get_set_eq. }
  assert (models_of doc = nodes) as -> by (unfold models_of; by rewrite Hmodels).
  split_and!.
  - by eapply dict_set_keys_same.
  - by rewrite length_insert.
  - intros i node Hi. destruct (decide (i = j)) as [->|Hne].
    2:{ exists node. rewrite list_lookup_insert_ne by done.
        split_and!; [done|apply extends_refl|].
        apply Forall2_refl_all, col_extends_refl. }
    rewrite Hj in Hi. injection Hi as <-.
    exists (node_after node1 cols').
    split; [apply list_lookup_insert_eq; by eapply lookup_lt_Some|].
    assert (columns_of node1 = columns_of node0) as Hcn.
    { unfold columns_of. by rewrite Hkeys. }
    unfold node_after.
    destruct (dict_get node1 "columns") as [cv|] eqn:Hcv.
    + destruct cv as [| | | |l|];
        try (split; [done|]; rewrite Hcn;
             apply Forall2_refl_all, col_extends_refl).
      simpl in Hiter. injection Hiter as <-. split.
      * destruct Hdesc as [added Ha]. exists added.
        by rewrite (dict_set_keys_same _ _ _ _ Hcv).
      * rewrite <- Hcn. unfold columns_of at 2. rewrite dict_get_set_eq.
        unfold columns_of. by rewrite Hcv.
    + split; [done|]. rewrite Hcn. apply Forall2_refl_all, col_extends_refl.
Qed.

(** *** The replies of the operator *)

(** One suggestion in the interactive mode takes one reply.  An empty
    reply stands for the text of the suggestion, which is what the prompt
    then returns.  When what the prompt returns is [s] or [S], the
    suggestion is skipped: nothing is written and the result is false; this
    is also what an empty reply does to a suggestion whose text is [s] or
    [S].  Otherwise what the prompt returns is written, as a string, and
    the result is true: an empty reply accepts the suggestion, and another
    reply replaces it.  When the input has run out the prompt aborts. *)
Theorem interactive_replies
    (e : list (string * value)) (key : string) (v : value) (target : node_ref)
    (w : writer) :
  mode w = Interactive →
  (replies w = [] →
   _process_update py_str e key v target w = Raise Abort) ∧
  (∀ line rest, replies w = line :: rest →
     let final_value := if decide (line = "") then py_str v else line in
     (skips final_value →
      _process_update py_str e key v target w
      = Ok ((false, e), set_replies rest w)) ∧
     (¬ skips final_value →
      _process_update py_str e key v target w
      = Ok ((true, dict_set e key (VStr final_value)), set_replies rest w))) ∧
  (∀ rest, replies w = "" :: rest →
     _process_update py_str e key v target w
     = if decide (str_lower (py_str v) = "s")
       then Ok ((false, e), set_replies rest w)
       else Ok ((true, dict_set e key (VStr (py_str v))), set_replies rest w)) ∧
  (∀ line rest, replies w = line :: rest → line ≠ "" → ¬ skips line →
     _process_update py_str e key v target w
     = Ok ((true, dict_set e key (VStr line)), set_replies rest w)).
Proof.
  intros Hm. unfold _process_update, bind, get_self, _prompt_user_for_change.
  rewrite Hm. unfold skips. split_and!.
  - by intros ->.
  - intros line rest ->. split; intros Hs.
    + by rewrite decide_True.
    + by rewrite decide_False.
  - intros rest ->.
    destruct (decide ("" = "")) as [_|Hne]; [|done].
    by destruct (decide (str_lower (py_str v) = "s")).
  - intros line rest -> Hne Hs.
    destruct (decide (line = "")) as [->|_]; [done|].
    by rewrite decide_False.
Qed.

(** *** A second update *)

(** The suggestions of a catalog entry have unique keys, as the items of a
    [dict] have. *)
Definition column_keys (c : value) : list string :=
  match c with
  | VDict e =>
      match default (VDict []) (dict_get e "ai_generated") with
      | VDict kvs => kvs.*1
      | _ => []
      end
  | _ => []
  end.

Definition suggested_columns (ai_model_data : value) : list value :=
  match ai_model_data with
  | VDict e =>
      match default (VList []) (dict_get e "columns") with
      | VList cols => cols
      | _ => []
      end
  | _ => []
  end.

Definition fields_unique (ai_model_data : value) : Prop :=
  Forall (fun c => NoDup (column_keys c)) (suggested_columns ai_model_data).

(** The columns of a node have names. *)
Definition named (c : value) : Prop :=
  match c with
  | VDict e => truthy (default VNone (dict_get e "name")) = true
  | _ => True
  end.

Definition columns_named (node : list (string * value)) : Prop :=
  Forall named (columns_of node).

Lemma suggested_keys_unique ai ai_columns candidates ai_column fields :
  fields_unique ai →
  py_get ai "columns" (VList []) = Ok ai_columns →
  py_iter ai_columns = Ok candidates →
  ai_column ∈ candidates →
  py_get ai_column "ai_generated" (VDict []) = Ok (VDict fields) →
  NoDup fields.*1.
Proof.
  intros Hok Hget Hiter Hin Hgen.
  destruct ai_column as [| | | | |ce]; try discriminate Hgen.
  pose proof (py_iter_dict_elem _ _ _ Hiter Hin) as ->.
  destruct ai as [| | | | |aie]; try discriminate Hget.
  simpl in Hget. injection Hget as Hget.
  unfold fields_unique, suggested_columns in Hok. rewrite Hget in Hok.
  rewrite Forall_forall in Hok. specialize (Hok _ Hin).
  simpl in Hok, Hgen. injection Hgen as Hgen. by rewrite Hgen in Hok.
Qed.

Lemma suggested_values_truthy ai ai_columns candidates ai_column fields :
  candidates_ok ai →
  py_get ai "columns" (VList []) = Ok ai_columns →
  py_iter ai_columns = Ok candidates →
  ai_column ∈ candidates →
  py_get ai_column "ai_generated" (VDict []) = Ok (VDict fields) →
  Forall (fun kv => truthy kv.2 = true) fields.
Proof.
  intros Hok Hget Hiter Hin Hgen.
  destruct ai_column as [| | | | |ce]; try discriminate Hgen.
  pose proof (py_iter_dict_elem _ _ _ Hiter Hin) as ->.
  destruct ai as [| | | | |aie]; try discriminate Hget.
  simpl in Hget. injection Hget as Hget.
  unfold candidates_ok, candidate_values in Hok. rewrite Hget in Hok.
  rewrite Forall_forall in Hok. apply Forall_forall. intros [k v] Hkv.
  apply Hok. apply list_elem_of_bind. exists (VDict ce). split; [|done].
  simpl. simpl in Hgen. injection Hgen as Hgen. rewrite Hgen.
  apply list_elem_of_fmap. by exists (k, v).
Qed.

Lemma dict_get_elem (l : list (string * value)) k v :
  dict_get l k = Some v → (k, v) ∈ l.
Proof.
  induction l as [|[k' v'] l IH]; simpl; [done|].
  case_decide as Hk; [intros [= ->]; subst; apply list_elem_of_here|].
  intros ?. by apply list_elem_of_further, IH.
Qed.

Lemma dict_get_Some_elem (l : list (string * value)) k v :
  (k, v) ∈ l → is_Some (dict_get l k).
Proof.
  induction l as [|[k' v'] l IH]; [by intros ?%elem_of_nil|].
  intros Hin. simpl. case_decide; [by eexists|].
  apply elem_of_cons in Hin as [[= ? ?]|Hin]; [congruence|by apply IH].
Qed.

(** Where every suggested field has a value, nothing is to be filled. *)
Lemma update_fields_full target items e c w :
  Forall (fun kv => truthy (default VNone (dict_get e kv.1)) = true) items →
  update_fields py_str target items e c w = Ok ((c, e), w).
Proof.
  induction 1 as [|[k v] items Hk _ IH]; [done|]. simpl in *.
  by rewrite Hk.
Qed.

Lemma filled_truthy old v :
  truthy v = true → truthy (default VNone (filled old (Some v))) = true.
Proof. intros Hv. unfold filled. by case_match eqn:Hold. Qed.

Lemma update_column_full model_name ai c e e' w :
  mode w = Update →
  candidates_ok ai → fields_unique ai →
  named (VDict e) →
  column_filled ai e e' →
  update_column py_str model_name ai c (VDict e') w = Ok ((c, VDict e'), w).
Proof.
  intros Hm Hok Huniq Hname (ai_columns & candidates & found & Hget & Hiter
                             & Hfound & Hcase).
  unfold update_column, bind at 1, lift. rewrite Hget.
  unfold bind at 1. rewrite Hiter.
  destruct found as [ai_column|].
  - destruct Hcase as (fields & Hgen & Hfill).
    pose proof (find_ai_column_Some _ _ _ Hfound) as [Hin _].
    specialize (Hfill (suggested_keys_unique _ _ _ _ _ Huniq Hget Hiter Hin Hgen)).
    pose proof (suggested_values_truthy _ _ _ _ _ Hok Hget Hiter Hin Hgen)
      as Htruthy.
    assert (dict_get e' "name" = dict_get e "name") as Hsame.
    { rewrite Hfill. unfold filled. by rewrite Hname. }
    rewrite Hsame. unfold bind at 1. rewrite Hfound.
    rewrite (find_ai_column_truthy _ _ _ Hfound). simpl.
    unfold bind at 1, get_self. unfold bind at 1. rewrite Hm. simpl.
    unfold bind at 1, lift. rewrite Hgen. unfold bind at 1. simpl.
    unfold bind at 1. rewrite update_fields_full; [done|].
    apply Forall_forall. intros [k v] Hkv. simpl. rewrite Hfill.
    destruct (dict_get_Some_elem _ _ _ Hkv) as [v0 Hv0]. rewrite Hv0.
    apply filled_truthy.
    rewrite Forall_forall in Htruthy. apply (Htruthy (k, v0)).
    by apply dict_get_elem.
  - subst e'. unfold bind at 1. by rewrite Hfound.
Qed.

Lemma update_columns_full model_name ai c cols cols' w :
  mode w = Update →
  candidates_ok ai → fields_unique ai →
  Forall named cols →
  Forall2 (fun col col' =>
             ∃ e e', col = VDict e ∧ col' = VDict e' ∧ column_filled ai e e')
    cols cols' →
  update_columns py_str model_name ai cols' c w = Ok ((c, cols'), w).
Proof.
  intros Hm Hok Huniq Hnamed Hfilled. revert Hnamed.
  induction Hfilled as [|col col' cols cols' (e & e' & -> & -> & Hone) _ IH];
    intros Hnamed; [done|].
  apply Forall_cons in Hnamed as [Hname Hnamed]. cbn [update_columns].
  unfold bind at 1.
  rewrite (update_column_full _ _ _ e e') by done.
  cbn [fst snd]. unfold bind at 1. by rewrite IH.
Qed.

Lemma find_node_insert nodes model_name k i node node' :
  find_node nodes model_name k = Ok (Some (i, node)) →
  dict_get node' "name" = dict_get node "name" →
  ∃ j, i = k + j ∧
       find_node (<[j := VDict node']> nodes) model_name k
       = Ok (Some (i, node')).
Proof.
  intros H Hname. revert k H.
  induction nodes as [|n nodes IH]; intros k H; simpl in H; [done|].
  destruct n as [| | | | |entries]; try done.
  destruct (py_eq (default VNone (dict_get entries "name")) (VStr model_name))
    eqn:Heq.
  - injection H as <- <-. exists 0. split; [lia|]. simpl.
    by rewrite Hname, Heq.
  - destruct (IH _ H) as (j & -> & Hj). exists (S j). split; [lia|].
    simpl. by rewrite Heq.
Qed.

Lemma dict_set_nonempty e k (v : value) : dict_set e k v ≠ [].
Proof. destruct e as [|[k' v'] e]; simpl; [done|]. by case_decide. Qed.

Lemma truthy_VDict e : e ≠ [] → truthy (VDict e) = true.
Proof. intros He. simpl. by rewrite bool_decide_eq_false_2. Qed.

Lemma set_yaml_files_same w : set_yaml_files (yaml_files w) w = w.
Proof. by destruct w. Qed.

(** What the first update makes of the description, and what the second
    update then does. *)
Lemma update_description_again model_name ai e w b e' w' :
  mode w = Update →
  update_description py_str model_name ai e w = Ok ((b, e'), w') →
  update_description py_str model_name ai e' w = Ok ((false, e'), w).
Proof.
  intros Hm H. unfold update_description in *.
  destruct (truthy (default VNone (dict_get e "description"))) eqn:Hslot;
    simpl in H; monad_inv.
  { by rewrite Hslot. }
  match goal with
  | H1 : py_get ai "model_description" VNone = Ok ?x |- _ =>
      rename x into d; rename H1 into Hd
  end.
  destruct (truthy d) eqn:Htruthy; monad_inv.
  - rewrite process_update_applies in H by done. monad_inv.
    by rewrite dict_get_set_eq; simpl; rewrite Htruthy.
  - rewrite Hslot. simpl. unfold bind, lift. rewrite Hd. by rewrite Htruthy.
Qed.

(** In the update mode, for a model of a loaded file whose columns have
    names and a catalog entry whose suggested values are not empty (and
    whose suggestions have unique keys), a second update of the model with
    the same entry returns false and leaves the writer as it is: the first
    update has filled everything that it fills. *)
Theorem second_update_changes_nothing
    (file_path model_name : string) (ai : value) (w : writer) (b : bool)
    (w' : writer) (doc : list (string * value)) (nodes : list value) (j : nat)
    (node : list (string * value)) :
  mode w = Update →
  candidates_ok ai → fields_unique ai → columns_named node →
  _update_existing_model_in_memory py_str file_path model_name ai w
    = Ok (b, w') →
  yaml_files w !! file_path = Some (VDict doc) →
  dict_get doc "models" = Some (VList nodes) →
  find_node nodes model_name 0 = Ok (Some (j, node)) →
  _update_existing_model_in_memory py_str file_path model_name ai w'
    = Ok (false, w').
Proof.
  intros Hm Hok Huniq Hnamed H Hdoc Hmodels Hfind.
  pose proof (update_existing_spec _ _ _ _ _ _ _ H) as (_ & Hmode' & _).
  apply update_existing_anatomy in H
    as [(_ & _ & Hnone)|(doc0 & nodes0 & j0 & node0 & b1 & node1 & w1 & cols & cols'
                         & w2 & Hdoc0 & Hmodels0 & Hfind0 & Hj & Hdesc & Hiter
                         & Hcols & Hy & _)].
  { rewrite (Hnone _ _ Hdoc Hmodels) in Hfind. done. }
  rewrite Hdoc in Hdoc0. injection Hdoc0 as <-.
  rewrite Hmodels in Hmodels0. injection Hmodels0 as <-.
  rewrite Hfind in Hfind0. injection Hfind0 as <- <-.
  rewrite Hm in Hmode'.
  pose proof (update_description_echoes _ _ _ _ _ _ Hdesc) as Hech.
  assert (w1 = w) as -> by (by apply Hech).
  pose proof (update_description_fills _ _ _ _ _ _ _ Hm Hdesc) as [Hkeys _].
  pose proof (update_columns_fills _ _ _ _ _ _ _ _ Hm Hcols) as Hfilled.
  assert (columns_of node1 = columns_of node) as Hcn.
  { unfold columns_of. by rewrite Hkeys. }
  (* the node after the first update, and its columns *)
  set (node' := node_after node1 cols') in *.
  assert (dict_get node' "name" = dict_get node "name") as Hname'.
  { subst node'. unfold node_after. rewrite <- Hkeys by done.
    destruct (dict_get node1 "columns") as [[| | | |l|]|]; try done.
    by rewrite dict_get_set_ne. }
  assert (dict_get node' "description" = dict_get node1 "description") as Hd'.
  { subst node'. unfold node_after.
    destruct (dict_get node1 "columns") as [[| | | |l|]|]; try done.
    by rewrite dict_get_set_ne. }
  assert (py_iter (default (VList []) (dict_get node' "columns")) = Ok cols')
    as Hiter'.
  { subst node'. unfold node_after.
    destruct (dict_get node1 "columns") as [cv|] eqn:Hcv.
    - destruct cv as [| | | |l|]; try (by rewrite dict_get_set_eq);
        rewrite Hcv;
        (pose proof (update_columns_spec _ _ _ _ _ _ _ _ _ Hcols)
           as (_ & Hf2 & _ & _ & _ & Hdicts);
         destruct (py_iter_all_dict _ _ Hiter Hdicts) as [Heq| ->];
           [discriminate Heq|];
         inversion Hf2; subst; exact Hiter).
    - rewrite Hcv. simpl in *. injection Hiter as <-.
      by inversion Hfilled. }
  assert (Forall named cols) as Hnamed'.
  { assert (Forall (fun x => ∃ e, x = VDict e) cols) as Hdicts.
    { clear -Hfilled. induction Hfilled as [|? ? ? ? (e & ? & -> & _) _ IH];
        constructor; [by exists e|done]. }
    destruct (py_iter_all_dict _ _ Hiter Hdicts) as [Hv| ->]; [|done].
    unfold columns_named in Hnamed. rewrite <- Hcn in Hnamed.
    unfold columns_of in Hnamed.
    destruct (dict_get node1 "columns") as [cv|]; simpl in Hv.
    - by subst cv.
    - by injection Hv as <-. }
  (* the second update *)
  destruct (find_node_insert _ _ _ _ _ node' Hfind Hname') as (j' & Hjj & Hfind').
  simpl in Hjj. subst j'.
  unfold _update_existing_model_in_memory, bind at 1, get_self.
  rewrite Hy, lookup_insert_eq.
  rewrite truthy_VDict by apply dict_set_nonempty. cbn [negb].
  unfold bind at 1, lift. cbn [py_get]. rewrite dict_get_set_eq. cbn [default].
  cbn [id py_iter].
  unfold bind at 1. rewrite Hfind'. unfold bind at 1.
  rewrite truthy_VDict.
  2:{ intros Hnil. rewrite Hnil in Hname'. simpl in Hname'.
      pose proof (find_node_name _ _ _ _ _ Hfind) as Hn.
      rewrite <- Hname' in Hn. done. }
  cbn [negb].
  assert (update_description py_str model_name ai node' w'
          = Ok ((false, node'), w')) as Hdesc'.
  { pose proof (update_description_again _ _ _ _ _ _ _ Hm Hdesc) as Hagain.
    unfold update_description in *. rewrite Hd'.
    destruct (truthy (default VNone (dict_get node1 "description")));
      simpl in *; [done|].
    unfold bind, lift in *.
    destruct (py_get ai "model_description" VNone) as [d|]; [|done].
    destruct (truthy d) eqn:Hd; [|done].
    unfold _process_update, bind, get_self in Hagain. rewrite Hm in Hagain.
    done. }
  unfold bind at 1. rewrite Hdesc'. cbn [fst snd].
  unfold bind at 1, lift. rewrite Hiter'.
  unfold bind at 1.
  rewrite (update_columns_full _ _ _ cols cols') by done.
  cbn [fst snd].
  fold (node_after node' cols'). rewrite (node_after_same _ _ Hiter').
  unfold bind at 1, modify.
  rewrite (put_back_same (yaml_files w') file_path).
  2:{ rewrite Hy. apply lookup_insert_eq. }
  2:{ apply dict_get_set_eq. }
  2:{ apply list_lookup_insert_eq. by eapply lookup_lt_Some. }
  by rewrite set_yaml_files_same.
Qed.

End Runs.


(** *** Scenarios *)

(** The shop project in the update mode: the file of [orders] is marked. *)
Lemma true_iff_a_file_is_marked_witness :
  files_to_write (reconciled shop_catalog (loaded "" Update [] shop_disk)) ≠ ∅.
Proof.
  refine (proj1 (proj1
    (true_iff_a_file_is_marked str_of elements shop_catalog shop_disk
       (new_writer "" Update []) true
       (reconciled shop_catalog (loaded "" Update [] shop_disk)) _ _ _))
    eq_refl).
  - discriminate.
  - reflexivity.
  - vm_compute. reflexivity.
Defined.

(** The disk of the shop project after [write] in the update mode. *)
Definition shop_disk_updated : disk :=
  (write str_of elements shop_catalog (new_writer "" Update []) shop_disk).2.

Lemma dirty_files_hold_their_documents_witness :
  ∃ data,
    yaml_files (reconciled shop_catalog (loaded "" Update [] shop_disk))
      !! "models/schema.yml" = Some data ∧
    open_read shop_disk_updated "models/schema.yml" = Ok (Yaml data).
Proof.
  refine (dirty_files_hold_their_documents str_of elements shop_catalog
            (new_writer "" Update []) shop_disk true
            (reconciled shop_catalog (loaded "" Update [] shop_disk))
            shop_disk_updated elements_order _ _ _ _ "models/schema.yml" _).
  - left. reflexivity.
  - vm_compute. reflexivity.
  - vm_compute. reflexivity.
  - apply (bool_decide_unpack _). vm_compute. exact I.
  - apply (bool_decide_unpack _). vm_compute. exact I.
Defined.

Lemma check_mode_is_a_dry_run_witness :
  yaml_files (reconciled shop_catalog (loaded "" Check [] shop_disk))
    = yaml_files (loaded "" Check [] shop_disk) ∧
  replies (reconciled shop_catalog (loaded "" Check [] shop_disk))
    = replies (loaded "" Check [] shop_disk) ∧
  model_to_file_map (reconciled shop_catalog (loaded "" Check [] shop_disk))
    = model_to_file_map (loaded "" Check [] shop_disk).
Proof.
  refine (check_mode_is_a_dry_run str_of elements shop_catalog
            (loaded "" Check [] shop_disk) true _ _ _).
  - vm_compute. reflexivity.
  - vm_compute. reflexivity.
Defined.

Lemma check_mode_reports_missing_models_witness :
  true = true ∧
  Warn_missing_model "orders"
    ∈ log (reconciled orders_catalog (new_writer "" Check [])).
Proof.
  refine (proj1
    (check_mode_reports_missing_models str_of elements orders_catalog
       (new_writer "" Check []) elements_order _)
    true (reconciled orders_catalog (new_writer "" Check [])) "orders" _ _ _).
  - reflexivity.
  - vm_compute. reflexivity.
  - apply (bool_decide_unpack _). vm_compute. exact I.
  - apply (bool_decide_unpack _). vm_compute. exact I.
Defined.

(** What the catalog of the shop project suggests for [orders]. *)
Definition orders_suggestions : value :=
  default VNone (shop_catalog !! "orders").

(** The writer after the update of [orders] in the shop project. *)
Definition orders_updated : writer :=
  match _update_existing_model_in_memory str_of "models/schema.yml" "orders"
          orders_suggestions (loaded "" Update [] shop_disk) with
  | Ok (_, w') => w'
  | Raise _ => loaded "" Update [] shop_disk
  end.

Lemma update_mode_fills_the_gaps_witness :
  ∃ node',
    yaml_files orders_updated =
      <["models/schema.yml" :=
          VDict (dict_set shop_document "models"
                   (VList (<[0%nat := VDict node']> [VDict shop_orders])))]>
        (yaml_files (loaded "" Update [] shop_disk)) ∧
    dict_get node' "description" = Some (VStr "One row per order").
Proof.
  destruct (update_mode_fills_the_gaps str_of "models/schema.yml" "orders"
              orders_suggestions (loaded "" Update [] shop_disk) true
              orders_updated shop_document [VDict shop_orders] 0%nat shop_orders)
    as (node' & Hy & _ & Hd & _).
  - vm_compute. reflexivity.
  - vm_compute. reflexivity.
  - vm_compute. reflexivity.
  - reflexivity.
  - reflexivity.
  - exists node'. split; [exact Hy|].
    exact (Hd (VStr "Order facts") eq_refl).
Defined.

Lemma second_update_changes_nothing_witness :
  _update_existing_model_in_memory str_of "models/schema.yml" "orders"
    orders_suggestions orders_updated
  = Ok (false, orders_updated).
Proof.
  apply (second_update_changes_nothing str_of "models/schema.yml" "orders"
           orders_suggestions (loaded "" Update [] shop_disk) true
           orders_updated shop_document [VDict shop_orders] 0%nat shop_orders).
  - vm_compute. reflexivity.
  - unfold candidates_ok. apply (bool_decide_unpack _). vm_compute. exact I.
  - unfold fields_unique. apply (bool_decide_unpack _). vm_compute. exact I.
  - unfold columns_named. vm_compute. repeat constructor.
  - vm_compute. reflexivity.
  - vm_compute. reflexivity.
  - reflexivity.
  - reflexivity.
Defined.

Lemma skipping_changes_nothing_witness :
  false = false ∧
  yaml_files (reconciled shop_catalog (loaded "" Interactive ["s"; "S"] shop_disk))
    = yaml_files (loaded "" Interactive ["s"; "S"] shop_disk) ∧
  files_to_write (reconciled shop_catalog
                    (loaded "" Interactive ["s"; "S"] shop_disk))
    = files_to_write (loaded "" Interactive ["s"; "S"] shop_disk).
Proof.
  refine (skipping_changes_nothing str_of elements shop_catalog
            (loaded "" Interactive ["s"; "S"] shop_disk) false _ _ _ _ _).
  - vm_compute. reflexivity.
  - repeat constructor.
  - apply (bool_decide_unpack _). vm_compute. exact I.
  - vm_compute. reflexivity.
Defined.

(** What the catalog of the bare project suggests for [orders], and the
    writer after the stub is made while every suggestion is skipped. *)
Definition orders_entry : value :=
  default VNone (orders_catalog !! "orders").

Definition orders_stubbed : writer :=
  match _create_new_model_stub_in_memory str_of "orders" orders_entry
          (new_writer "" Interactive ["s"; "s"]) with
  | Ok (_, w') => w'
  | Raise _ => new_writer "" Interactive ["s"; "s"]
  end.

Lemma skipped_stub_holds_the_names_witness :
  true = true ∧
  stub_path "models/orders.sql" ∈ files_to_write orders_stubbed.
Proof.
  destruct (skipped_stub_holds_the_names str_of "orders" orders_entry
              (new_writer "" Interactive ["s"; "s"]) true orders_stubbed
              "models/orders.sql") as (Hb & Hin & _).
  - reflexivity.
  - repeat constructor.
  - vm_compute. reflexivity.
  - reflexivity.
  - discriminate.
  - split; [exact Hb|exact Hin].
Defined.

(** The drift verdict of the catalog for the column [status] of [orders]. *)
Definition drift_verdict : value :=
  VDict [("name", VStr "status");
         ("drift_status", VStr "DRIFT");
         ("ai_generated", VDict [("description", VStr "State of the order")])].

Definition orders_drifted : writer :=
  match _update_existing_model_in_memory str_of "models/schema.yml" "orders"
          (default VNone (drift_catalog !! "orders"))
          (loaded "" Drift [] shop_disk) with
  | Ok (_, w') => w'
  | Raise _ => loaded "" Drift [] shop_disk
  end.

Lemma drift_is_reported_witness :
  true = true ∧ "models/schema.yml" ∈ files_to_write orders_drifted ∧
  Warn_drift "orders" (VStr "status") ∈ log orders_drifted.
Proof.
  destruct (drift_is_reported str_of "models/schema.yml" "orders"
              (default VNone (drift_catalog !! "orders"))
              (loaded "" Drift [] shop_disk) true orders_drifted
              shop_document [VDict shop_orders] 0%nat shop_orders 1%nat
              [("name", VStr "status");
               ("description", VStr "Open, paid or sent")]
              (VList [drift_verdict]) [drift_verdict] drift_verdict)
    as (Hb & Hin & Hlog & _).
  - vm_compute. reflexivity.
  - vm_compute. reflexivity.
  - vm_compute. reflexivity.
  - reflexivity.
  - reflexivity.
  - reflexivity.
  - reflexivity.
  - vm_compute. reflexivity.
  - reflexivity.
  - reflexivity.
  - reflexivity.
  - split_and!; [exact Hb|exact Hin|exact Hlog].
Defined.

Lemma loading_builds_a_sound_index_witness :
  ∃ data,
    yaml_files (loaded "" Update [] shop_disk) !! "models/schema.yml"
      = Some data ∧
    names_node data "orders".
Proof.
  refine (proj1 (proj2
    (loading_builds_a_sound_index shop_disk (new_writer "" Update [])
       (loaded "" Update [] shop_disk) _ _ _)) "orders" "models/schema.yml" _).
  - reflexivity.
  - reflexivity.
  - vm_compute. reflexivity.
  - vm_compute. reflexivity.
Defined.

Lemma input_matters_in_interactive_mode_only_witness :
  write str_of elements shop_catalog
    (set_replies ["no"] (new_writer "" Update [])) shop_disk
  = write str_of elements shop_catalog (new_writer "" Update []) shop_disk.
Proof.
  apply (input_matters_in_interactive_mode_only str_of elements shop_catalog
           (new_writer "" Update []) shop_disk ["no"]).
  discriminate.
Defined.

Lemma update_keeps_the_keys_in_place_witness :
  ∃ doc',
    yaml_files orders_updated !! "models/schema.yml" = Some (VDict doc') ∧
    doc'.*1 = ["version"; "models"; "sources"].
Proof.
  destruct (update_keeps_the_keys_in_place str_of "models/schema.yml" "orders"
              orders_suggestions (loaded "" Update [] shop_disk) true
              orders_updated shop_document) as (doc' & Hdoc & Hkeys & _).
  - vm_compute. reflexivity.
  - vm_compute. reflexivity.
  - exists doc'. split; [exact Hdoc|exact Hkeys].
Defined.

(** The operator edits the description of a column. *)
Lemma interactive_replies_witness :
  _process_update str_of [("name", VStr "id")] "description" (VStr "PK")
    (ColumnRef "orders" (VStr "id"))
    (new_writer "" Interactive ["Primary key"; "s"])
  = Ok ((true, [("name", VStr "id"); ("description", VStr "Primary key")]),
        set_replies ["s"] (new_writer "" Interactive ["Primary key"; "s"])) ∧
  _process_update str_of [("name", VStr "id")] "description" (VStr "S")
    (ColumnRef "orders" (VStr "id"))
    (new_writer "" Interactive [""])
  = Ok ((false, [("name", VStr "id")]),
        set_replies [] (new_writer "" Interactive [""])).
Proof.
  split.
  - refine (proj2 (proj2 (proj2
      (interactive_replies str_of [("name", VStr "id")] "description" (VStr "PK")
         (ColumnRef "orders" (VStr "id"))
         (new_writer "" Interactive ["Primary key"; "s"]) _)))
      "Primary key" ["s"] _ _ _).
    + reflexivity.
    + reflexivity.
    + discriminate.
    + discriminate.
  - refine (proj1 (proj1 (proj2
      (interactive_replies str_of [("name", VStr "id")] "description" (VStr "S")
         (ColumnRef "orders" (VStr "id"))
         (new_writer "" Interactive [""]) _)) "" [] _) _).
    + reflexivity.
    + reflexivity.
    + reflexivity.
Defined.

End WriterRuns.

(** * The dirty set *)

Module DirtySet.
Import Py Fs Writer FsFacts WriterFacts WriterRuns.

#[local] Open Scope nat_scope.
#[local] Open Scope list_scope.
#[local] Set Warnings "-clear-no-such-hyp".




Section Dirty.

Variable py_str : value → string.
Variable set_iter : gset string → list string.

(** *** The drift mode, method by method *)










(** *** The drift mode, over a run *)












End Dirty.



End DirtySet.

(** * Properties of the workflows *)

Module WorkflowFacts.
Import Py Fs Writer WriterFacts Workflow.

Section Dbt.
Import DbtWorkflow.

Variable py_str : value → string.
Variable set_iter : gset string → list string.
Variable generate_catalog : string → bool → disk → result (gmap string value).
Variable output_write : gmap string value → disk → result unit * disk.

Lemma write_check_drift catalog_data w d :
  mode w = Check ∨ mode w = Drift →
  (write py_str set_iter catalog_data w d).2 = d.
Proof.
  intros Hmode. unfold write.
  destruct (reconcile _ _ _ _ _) as [[b w']|e] eqn:Hrec; [|done].
  apply reconcile_mode in Hrec. unfold persists. rewrite Hrec.
  destruct Hmode as [-> | ->]; done.
Qed.

Lemma action_mode_valid self mode :
  action_mode self = Some mode → is_Some (parse_mode mode).
Proof.
  unfold action_mode. repeat case_match; intros [= <-]; by eexists.
Qed.

Lemma handle_ci self mode m catalog d :
  (mode = "check" ∧ m = Check) ∨ (mode = "drift" ∧ m = Drift) →
  _handle_yaml_update py_str set_iter self mode catalog d =
    match (write py_str set_iter catalog
             (new_writer (dbt_project_dir self) m (stdin self)) d).1 with
    | Ok true =>
        (Stop (CIError ("CI CHECK FAILED: " +:+ log_msg self +:+ ".")), d)
    | Ok false => (Done, d)
    | Raise e => (Stop (Uncaught e), d)
    end.
Proof.
  intros Hmode. unfold _handle_yaml_update.
  assert (__init__ (dbt_project_dir self) mode (stdin self)
          = Ok (new_writer (dbt_project_dir self) m (stdin self))) as ->.
  { by destruct Hmode as [[-> ->]|[-> ->]]. }
  pose proof (write_check_drift catalog
                (new_writer (dbt_project_dir self) m (stdin self)) d) as Hd.
  destruct (write _ _ _ _ _) as [res d'] eqn:Hw. simpl in *.
  rewrite Hd by (destruct Hmode as [[_ ->]|[_ ->]]; auto).
  destruct res as [[|]|e]; [| |done]; by destruct Hmode as [[-> _]|[-> _]].
Qed.

Lemma handle_no_ci self mode catalog d message :
  mode = "update" ∨ mode = "interactive" →
  (_handle_yaml_update py_str set_iter self mode catalog d).1
    ≠ Stop (CIError message).
Proof.
  intros Hmode. unfold _handle_yaml_update.
  destruct (__init__ _ _ _) as [wr|e]; [|done].
  destruct (write _ _ _ _ _) as [[b|e] d']; [|done].
  by destruct Hmode as [-> | ->].
Qed.

Lemma handle_file_no_ci self catalog d message :
  (_handle_file_output output_write self catalog d).1 ≠ Stop (CIError message).
Proof.
  unfold _handle_file_output.
  destruct (output_write catalog d) as [[u|e] d']; [done|]. by destruct e.
Qed.

(** The continuous-integration gate.  With [--drift] or [--check], whatever
    the other flags are, [run] leaves the disk as it was; when the catalog
    could be built it stops with a [CIError] exactly when the writer, in
    the drift mode if [--drift] is given and in the check mode otherwise,
    reports outdated documentation, and it ends normally exactly when the
    writer reports none.  Without these two flags [run] never stops with a
    [CIError]. *)
Theorem ci_flags_gate_and_keep_the_disk (self : dbt_workflow) (s : world) :
  let r := run py_str set_iter generate_catalog output_write self s in
  let m := if drift self then Drift else Check in
  (drift self = true ∨ check self = true → files r.2 = files s) ∧
  (drift self = true ∨ check self = true →
   ∀ catalog,
     (drift self = true → db_connector self = true) →
     generate_catalog (dbt_project_dir self) (drift self) (files s)
       = Ok catalog →
     let result :=
       (write py_str set_iter catalog
          (new_writer (dbt_project_dir self) m (stdin self)) (files s)).1 in
     (r.1 = Stop (CIError ("CI CHECK FAILED: " +:+ log_msg self +:+ "."))
        ↔ result = Ok true) ∧
     (r.1 = Done ↔ result = Ok false)) ∧
  (drift self = false → check self = false →
   ∀ message, r.1 ≠ Stop (CIError message)).
Proof.
  intros r m.
  assert (drift self = true ∨ check self = true →
          action_mode self = Some (if drift self then "drift" else "check") ∧
          ((if drift self then "drift" else "check") = "check" ∧ m = Check ∨
           (if drift self then "drift" else "check") = "drift" ∧ m = Drift))
    as Hci.
  { subst m. unfold action_mode. intros [-> | Hc].
    - split; [done|by right].
    - rewrite Hc. destruct (drift self); split; auto. }
  split_and!.
  - intros Hflag. destruct (Hci Hflag) as [Ham Hmode]. subst r. unfold run.
    destruct (drift self && negb (db_connector self)); [done|].
    destruct (generate_catalog _ _ _) as [catalog|e]; [|done].
    rewrite Ham, (handle_ci _ _ m _ _ Hmode).
    by destruct (write _ _ _ _ _).1 as [[|]|e].
  - intros Hflag catalog Hconn Hcat result.
    destruct (Hci Hflag) as [Ham Hmode]. subst r result. unfold run.
    assert (drift self && negb (db_connector self) = false) as ->.
    { destruct (drift self); [|done]. by rewrite Hconn. }
    rewrite Hcat, Ham, (handle_ci _ _ m _ _ Hmode).
    destruct (write _ _ _ _ _).1 as [[|]|e]; simpl; split; split; done.
  - intros Hd Hc message. subst r. unfold run. rewrite Hd. simpl.
    destruct (generate_catalog _ _ _) as [catalog|e]; [|done].
    unfold action_mode. rewrite Hd, Hc.
    assert (∀ x : outcome * disk, x.1 ≠ Stop (CIError message) →
              (match x.1 with
               | Done => (Done, World x.2 (if db_connector self then false
                                           else connected s))
               | Stop f => (Stop f, World x.2 (connected s))
               end).1 ≠ Stop (CIError message)) as Hwrap.
    { intros [[|f] d'] Hx; simpl in *; [done|congruence]. }
    apply Hwrap.
    destruct (interactive self); [apply handle_no_ci; auto|].
    destruct (update_yaml self); [apply handle_no_ci; auto|].
    destruct (writer self); [apply handle_file_no_ci|done].
Qed.

(** The connection of the injected connector: [run] closes it when it ends
    normally and leaves it as it is when it stops early, a failed check
    included; without a connector [--drift] stops at once with exit code 1
    and nothing is touched. *)
Theorem connection_is_closed_on_success_only (self : dbt_workflow) (s : world) :
  let r := run py_str set_iter generate_catalog output_write self s in
  (r.1 = Done → db_connector self = true → connected r.2 = false) ∧
  (∀ f, r.1 = Stop f → connected r.2 = connected s) ∧
  (drift self = true → db_connector self = false → r = (Stop (Exit 1), s)).
Proof.
  intros r. subst r. unfold run.
  destruct (drift self && negb (db_connector self)) eqn:Hguard.
  { split_and!; done. }
  assert (drift self = true → db_connector self = false → False) as Hno.
  { intros Hd Hc. by rewrite Hd, Hc in Hguard. }
  destruct (generate_catalog _ _ _) as [catalog|e].
  2:{ split_and!; try done. intros Hd Hc. by destruct (Hno Hd Hc). }
  match goal with
  | |- context [match ?x.1 with Done => _ | Stop _ => _ end] =>
      destruct x as [[|f0] d']
  end; simpl.
  - split_and!; [by intros _ ->|done|]. intros Hd Hc. by destruct (Hno Hd Hc).
  - split_and!; [done|done|]. intros Hd Hc. by destruct (Hno Hd Hc).
Qed.

End Dbt.

Section Lineage.
Import LineageWorkflow.

Variable get_foreign_keys : result (list Lineage.fk).
Variable _parse_dbt_models : string → disk → result (list Lineage.dbt_model).
Variable output_write : gmap string value → disk → result unit * disk.

(** The lineage workflow ends normally or with exit code 1, never
    otherwise, and in both cases the connection of its connector is closed
    (without a connector it exits with code 1 and nothing is touched).  It
    fails without touching the disk when the foreign keys or the models
    cannot be fetched; and when both are fetched, the writer is run once, on
    the diagram that [generate_graph] makes of them, and the workflow ends
    normally exactly if the writer does. *)
Theorem lineage_run_closes_the_connection (db_connector : bool)
    (dbt_project_dir : string) (s : world) :
  let r := run db_connector get_foreign_keys _parse_dbt_models output_write
             dbt_project_dir s in
  connected r.2 = (if db_connector then false else connected s) ∧
  (r.1 = Done ∨ r.1 = Stop (Exit 1)) ∧
  (db_connector = false ∨
   (∃ e, get_foreign_keys = Raise e) ∨
   (∃ e, _parse_dbt_models dbt_project_dir (files s) = Raise e) →
   r.1 = Stop (Exit 1) ∧ files r.2 = files s) ∧
  (∀ db_fks dbt_models,
     db_connector = true →
     get_foreign_keys = Ok db_fks →
     _parse_dbt_models dbt_project_dir (files s) = Ok dbt_models →
     files r.2
     = (output_write
          {[ "mermaid_graph" :=
               VStr (Lineage.generate_graph db_fks dbt_models) ]}
          (files s)).2 ∧
     (r.1 = Done ↔
      ∃ u, (output_write
              {[ "mermaid_graph" :=
                   VStr (Lineage.generate_graph db_fks dbt_models) ]}
              (files s)).1 = Ok u)).
Proof.
  intros r. subst r. unfold run, attempt. split_and!.
  - by repeat case_match.
  - repeat case_match; auto.
  - intros [->|[[e He]|[e He]]]; [done| |].
    + rewrite He. by destruct db_connector.
    + rewrite He. destruct db_connector; [|done].
      by destruct get_foreign_keys.
  - intros db_fks dbt_models -> Hfks Hmodels. rewrite Hfks, Hmodels. simpl.
    destruct (output_write _ _) as [[u|e] d']; simpl; split; try done.
    + split; [by eexists|done].
    + split; [done|by intros [? [=]]].
Qed.

End Lineage.

End WorkflowFacts.

(** * Properties of the expansion *)

Module UtilsFacts.
Import Utils.

#[local] Open Scope nat_scope.

Lemma str_app_assoc (a b c : string) : (a +:+ b) +:+ c = a +:+ (b +:+ c).
Proof.
  induction a as [|x a IH]; [done|].
  change (String x ((a +:+ b) +:+ c) = String x (a +:+ (b +:+ c))).
  by rewrite IH.
Qed.

Lemma str_app_nil_r (a : string) : a +:+ "" = a.
Proof.
  induction a as [|x a IH]; [done|].
  change (String x (a +:+ "") = String x a). by rewrite IH.
Qed.

Lemma str_contains_cons needle c hay :
  str_contains needle (String c hay) = false → str_contains needle hay = false.
Proof.
  cbn [str_contains]. intros [_ H]%orb_false_iff. exact H.
Qed.

Lemma no_dollar_head c s :
  str_contains "$" (String c s) = false → c ≠ "$"%char.
Proof.
  cbn [str_contains]. intros [H _]%orb_false_iff ->. simpl in H.
  by destruct s.
Qed.

Lemma match_at_other c s : c ≠ "$"%char → match_at (String c s) = None.
Proof.
  intros Hc. unfold match_at.
  destruct c as [[] [] [] [] [] [] [] []]; try done.
Qed.

(** The passing of a match. *)
Lemma sub_skip getenv a b :
  sub getenv (a +:+ b) (String.length a) = sub getenv b 0.
Proof.
  induction a as [|c a IH]; [done|].
  change (sub getenv (String c (a +:+ b)) (S (String.length a))
          = sub getenv b 0).
  exact IH.
Qed.

Lemma span_name_app name rest :
  is_name name = true →
  (∀ c s, rest = String c s → is_name_char c = false) →
  span_name (name +:+ rest) = (name, rest).
Proof.
  intros Hname Hrest. induction name as [|c name IH].
  - change ("" +:+ rest) with rest.
    destruct rest as [|c s]; [done|]. simpl. by rewrite (Hrest c s).
  - simpl in Hname. apply andb_true_iff in Hname as [Hc Hname].
    change (String c name +:+ rest) with (String c (name +:+ rest)).
    cbn [span_name]. by rewrite Hc, (IH Hname).
Qed.

Lemma match_at_placeholder name post :
  name ≠ "" → is_name name = true →
  match_at ("${" +:+ name +:+ "}" +:+ post) = Some (name, post).
Proof.
  intros Hne Hname.
  change ("${" +:+ name +:+ "}" +:+ post)
    with (String "$" (String "{" (name +:+ String "}" post))).
  cbn [match_at].
  rewrite (span_name_app name (String "}" post)); [|done|].
  - by destruct name.
  - by intros c s [= <- _].
Qed.

Lemma sub_match getenv c rest name post :
  match_at (String c rest) = Some (name, post) →
  sub getenv (String c rest) 0 =
    match getenv name with
    | None => ConfigError name
    | Some var_value =>
        match sub getenv rest (String.length name + 2) with
        | Expanded text => Expanded (var_value +:+ text)
        | ConfigError n => ConfigError n
        end
    end.
Proof. intros H. cbn [sub]. by rewrite H. Qed.

Lemma sub_no_dollar getenv pre rest :
  str_contains "$" pre = false →
  sub getenv (pre +:+ rest) 0 =
    match sub getenv rest 0 with
    | Expanded text => Expanded (pre +:+ text)
    | ConfigError n => ConfigError n
    end.
Proof.
  induction pre as [|c pre IH]; intros Hpre.
  - change ("" +:+ rest) with rest. by destruct (sub getenv rest 0).
  - change (String c pre +:+ rest) with (String c (pre +:+ rest)).
    cbn [sub]. rewrite match_at_other by (by eapply no_dollar_head).
    rewrite IH by (by eapply str_contains_cons).
    by destruct (sub getenv rest 0).
Qed.

(** The expansion, placeholder by placeholder.  A text without a dollar
    sign is left as it is.  After such a text, a placeholder [${NAME}]
    whose variable is not set raises the [ConfigError] of that variable;
    when it is set, its value follows the text as it is, without being
    expanded again, and the expansion goes on behind the closing brace. *)
Theorem expansion_step (getenv : string → option string)
    (pre name post : string) :
  str_contains "$" pre = false →
  expand_env_vars getenv pre = Expanded pre ∧
  (name ≠ "" → is_name name = true →
   expand_env_vars getenv (pre +:+ "${" +:+ name +:+ "}" +:+ post) =
     match getenv name with
     | None => ConfigError name
     | Some var_value =>
         match expand_env_vars getenv post with
         | Expanded text => Expanded (pre +:+ var_value +:+ text)
         | ConfigError n => ConfigError n
         end
     end).
Proof.
  intros Hpre. unfold expand_env_vars. split.
  - pose proof (sub_no_dollar getenv pre "" Hpre) as H.
    cbn [sub] in H. by rewrite !str_app_nil_r in H.
  - intros Hne Hname. rewrite sub_no_dollar by done.
    pose proof (match_at_placeholder name post Hne Hname) as Hm.
    change ("${" +:+ name +:+ "}" +:+ post)
      with (String "$" (String "{" (name +:+ "}" +:+ post))) in *.
    rewrite (sub_match _ _ _ _ _ Hm).
    destruct (getenv name) as [var_value|]; [|done].
    assert (sub getenv (String "{" (name +:+ "}" +:+ post))
              (String.length name + 2) = sub getenv post 0) as ->.
    { rewrite <- (sub_skip getenv ("{" +:+ name +:+ "}") post). f_equal.
      - change (String "{" (name +:+ "}" +:+ post)
                = String "{" ((name +:+ "}") +:+ post)).
        by rewrite str_app_assoc.
      - change (String.length name + 2 = S (String.length (name +:+ "}"))).
        rewrite LineageFacts.str_length_app. simpl. lia. }
    by destruct (sub getenv post 0).
Qed.

(** An environment with one variable. *)
Definition one_variable (name value : string) (n : string) : option string :=
  if decide (n = name) then Some value else None.

(** The value of the variable is not expanded again, and the variable that
    is not set is named. *)
Lemma expansion_step_witness :
  expand_env_vars (one_variable "DB_PASSWORD" "${HOME}")
    ("password: " +:+ "${" +:+ "DB_PASSWORD" +:+ "}" +:+ " # ${HOME}")
  = ConfigError "HOME".
Proof.
  refine (eq_trans (proj2
    (expansion_step (one_variable "DB_PASSWORD" "${HOME}")
       "password: " "DB_PASSWORD" " # ${HOME}" _) _ _) _).
  - reflexivity.
  - discriminate.
  - reflexivity.
  - reflexivity.
Defined.

Example expand_env_vars_docstring :
  expand_env_vars (one_variable "DB_PASSWORD" "mysecret")
    "password: ${DB_PASSWORD}"
  = Expanded "password: mysecret".
Proof. reflexivity. Qed.

Lemma sub_no_match getenv content :
  (∀ a b, content = a +:+ b → match_at b = None) →
  sub getenv content 0 = Expanded content.
Proof.
  induction content as [|c content IH]; intros Hnone; [done|].
  cbn [sub]. rewrite (Hnone "" (String c content)) by done.
  rewrite IH; [done|]. intros a b ->. by apply (Hnone (String c a)).
Qed.

(** A text in which the pattern matches nowhere is left as it is, without
    an error: a dollar sign alone, braces without a name, a name with a
    character outside the class, a brace that is not closed. *)
Theorem text_without_a_match_is_kept (getenv : string → option string)
    (content : string) :
  (∀ a b, content = a +:+ b → match_at b = None) →
  expand_env_vars getenv content = Expanded content.
Proof. apply sub_no_match. Qed.

(** The pattern matches at no place of the text. *)
Fixpoint matches_nowhere (s : string) : bool :=
  match match_at s with
  | Some _ => false
  | None => match s with
            | "" => true
            | String _ s' => matches_nowhere s'
            end
  end.

Lemma matches_nowhere_spec (content : string) :
  matches_nowhere content = true →
  ∀ a b, content = a +:+ b → match_at b = None.
Proof.
  induction content as [|c content IH]; intros Hall a b Hab.
  - destruct a, b; try done.
  - destruct a as [|x a].
    + change ("" +:+ b) with b in Hab. subst b.
      revert Hall. cbn [matches_nowhere].
      by destruct (match_at (String c content)).
    + change (String x a +:+ b) with (String x (a +:+ b)) in Hab.
      injection Hab as _ Hab. apply (IH) with a; [|done].
      revert Hall. cbn [matches_nowhere].
      by destruct (match_at (String c content)).
Qed.

Lemma text_without_a_match_is_kept_witness :
  expand_env_vars (fun _ => None) "cost: $5, ${}, ${a-b}, $HOME, ${OPEN"
  = Expanded "cost: $5, ${}, ${a-b}, $HOME, ${OPEN".
Proof.
  apply text_without_a_match_is_kept. apply matches_nowhere_spec. reflexivity.
Defined.

End UtilsFacts.
